(** * pythonOBIEE: a shallow embedding of the session manager, the report
      descriptor and the export orchestrator

    The three modules of the package ([report.py], [session_manager.py] and
    [obiee_analysis_export.py]) are translated function by function.  The Python
    code is sequential and effectful: it logs, calls a remote SOAP service, reads
    the wall clock, sleeps and touches the file system.  All of that is threaded
    through an explicit state ([World], and the mutable [OBIEESession] object),
    with Python exceptions as one of the outcomes of a computation.

    Conventions of the model:
    - a [str] is a [string] of code points below 256, [bytes] a list of bytes;
    - paths follow pathlib's POSIX flavour, the library functions CPython
      3.11 on Linux;
    - the file system is a tree of directories and regular files; paths are
      resolved as the kernel does ([..] leads to the parent directory, names
      and paths have a maximal length, a NUL character is refused);
    - a field of a server reply that may be absent is an [option];
    - the clock counts microseconds (the resolution of [datetime]); the
      timeout and the poll interval are whole seconds;
    - the remote service is an oracle: the answers to logon, logoff and the
      export request are functions of the arguments, the answers to the
      successive status polls are a finite script, each with the time it takes
      to arrive;
    - [mimetypes.guess_extension(_, strict=True)] is a table of the world;
    - everything logged, every remote call and every sleep is recorded in
      one trace, in the order it happens. *)

From Stdlib Require Import ZArith List String Ascii Bool Lia DecimalString.
Import ListNotations.
Open Scope string_scope.
Open Scope Z_scope.

(* ================================================================== *)
(** ** Python strings *)
(* ================================================================== *)

(** A [string] stands for a Python [str] whose code points lie in
    U+0000..U+00FF, one [ascii] per code point. *)

(** [str.isspace] on one code point of that range: TAB..CR, FS..US, SPACE,
    NEL and NBSP. *)
Definition isspace (c : ascii) : bool :=
  let n := Z.of_nat (nat_of_ascii c) in
  ((9 <=? n) && (n <=? 13)) || ((28 <=? n) && (n <=? 32))
  || (n =? 133) || (n =? 160).

Fixpoint lstrip (s : string) : string :=
  match s with
  | EmptyString => EmptyString
  | String c s' => if isspace c then lstrip s' else s
  end.

Fixpoint rstrip (s : string) : string :=
  match s with
  | EmptyString => EmptyString
  | String c s' =>
      match rstrip s' with
      | EmptyString => if isspace c then EmptyString else String c EmptyString
      | t => String c t
      end
  end.

(** [str.strip()] with no argument. *)
Definition strip (s : string) : string := lstrip (rstrip s).

(** Truth value of a [str] and of an optional [str] ([None] and the empty
    string are falsy). *)
Definition truthy (s : string) : bool :=
  match s with EmptyString => false | String _ _ => true end.

Definition truthy_opt (o : option string) : bool :=
  match o with None => false | Some s => truthy s end.

(** [str(n)] for an [int]. *)
Definition str_int (n : Z) : string := NilZero.string_of_int (Z.to_int n).

(** ["%02d" % n]. *)
Definition pad2 (n : Z) : string :=
  if (0 <=? n) && (n <? 10) then "0" ++ str_int n else str_int n.

(** [str(True)], [str(False)]. *)
Definition str_bool (b : bool) : string := if b then "True" else "False".

(** What an f-string prints for an optional string: [None] prints as the
    word None. *)
Definition format_opt (o : option string) : string :=
  match o with None => "None" | Some s => s end.

(** [str(timedelta(seconds=n))]: the constructor normalises to a day count
    and [0 <= seconds < 86400] (floor division, as [divmod]). *)
Definition str_timedelta (n : Z) : string :=
  let days := n / 86400 in
  let seconds := n mod 86400 in
  let mm := seconds / 60 in
  let ss := seconds mod 60 in
  let hh := mm / 60 in
  let mm := mm mod 60 in
  let s := str_int hh ++ ":" ++ pad2 mm ++ ":" ++ pad2 ss in
  if days =? 0 then s
  else str_int days ++ " day" ++ (if Z.abs days =? 1 then "" else "s") ++ ", " ++ s.

(** [t.strftime("%I:%M:%S %p")] for a clock reading [t] in microseconds since a
    local midnight (C locale). *)
Definition strftime_IMSp (t : Z) : string :=
  let sec := (t / 1000000) mod 86400 in
  let h := sec / 3600 in
  let h12 := if h mod 12 =? 0 then 12 else h mod 12 in
  pad2 h12 ++ ":" ++ pad2 ((sec / 60) mod 60) ++ ":" ++ pad2 (sec mod 60)
  ++ (if h <? 12 then " AM" else " PM").

(** Bytes objects. *)
Definition bytes := list Byte.byte.

(** [c.isprintable()] on one code point below 256: the control characters,
    NBSP and the soft hyphen are not printable. *)
Definition isprintable (c : ascii) : bool :=
  let n := nat_of_ascii c in
  (((32 <=? n) && (n <? 127)) || ((161 <=? n) && negb (n =? 173)))%nat.

Definition hex_digit (n : nat) : ascii :=
  ascii_of_nat (if (n <? 10)%nat then 48 + n else 87 + n).

Definition double_quote : ascii := ascii_of_nat 34.

Fixpoint contains (c : ascii) (s : string) : bool :=
  match s with
  | EmptyString => false
  | String c' s' => Ascii.eqb c c' || contains c s'
  end.

(** How [repr] writes one character between the quotes [quote]. *)
Definition repr_char (quote c : ascii) : string :=
  let n := nat_of_ascii c in
  if Ascii.eqb c quote || Ascii.eqb c "\"%char then
    String "\"%char (String c EmptyString)
  else if (n =? 9)%nat then "\t"
  else if (n =? 10)%nat then "\n"
  else if (n =? 13)%nat then "\r"
  else if isprintable c then String c EmptyString
  else String "\"%char
         (String "x"%char
            (String (hex_digit (n / 16)) (String (hex_digit (n mod 16))
                                            EmptyString))).

Fixpoint repr_chars (quote : ascii) (s : string) : string :=
  match s with
  | EmptyString => EmptyString
  | String c s' => repr_char quote c ++ repr_chars quote s'
  end.

(** [repr(s)]: single quotes, unless the string holds a single quote and no
    double quote. *)
Definition repr (s : string) : string :=
  let quote :=
    if contains "'"%char s && negb (contains double_quote s)
    then double_quote else "'"%char in
  String quote (repr_chars quote s ++ String quote EmptyString).

(** The number of bytes of [os.fsencode(s)] (UTF-8): two for a code point
    from 128 on. *)
Fixpoint fsencoded_length (s : string) : nat :=
  match s with
  | EmptyString => 0
  | String c s' =>
      ((if nat_of_ascii c <? 128 then 1 else 2) + fsencoded_length s')%nat
  end.

(** A NUL character in the string. *)
Definition has_nul (s : string) : bool := contains (ascii_of_nat 0) s.

(* ================================================================== *)
(** ** Exceptions and outcomes *)
(* ================================================================== *)

(** The exception classes that occur.  All of them derive from [Exception];
    [Fault] is zeep's SOAP fault, [TransportError] stands for any other
    exception the SOAP client raises (connection errors and the like),
    [OSError] for an [OSError] of no more special class. *)
Inductive exn_class :=
| Fault
| TransportError
| TypeError
| ValueError
| TimeoutError
| FileExistsError
| FileNotFoundError
| NotADirectoryError
| IsADirectoryError
| OSError
| AttributeError
| LogonFailedError
| LogoffFailedError
| ExportFailedError.

(** An exception object: its class, [str(e)] and [e.__cause__] (set by
    [raise ... from e]). *)
#[warnings="-register-all"]
Inductive exn :=
| Exception (cls : exn_class) (message : string) (cause : option exn).

Definition class_of (e : exn) : exn_class :=
  match e with Exception c _ _ => c end.

Definition str_exn (e : exn) : string :=
  match e with Exception _ m _ => m end.

Definition cause_of (e : exn) : option exn :=
  match e with Exception _ _ c => c end.

Definition exn_class_eqb (a b : exn_class) : bool :=
  match a, b with
  | Fault, Fault | TransportError, TransportError | TypeError, TypeError
  | ValueError, ValueError | TimeoutError, TimeoutError
  | FileExistsError, FileExistsError | FileNotFoundError, FileNotFoundError
  | NotADirectoryError, NotADirectoryError
  | IsADirectoryError, IsADirectoryError
  | OSError, OSError | AttributeError, AttributeError
  | LogonFailedError, LogonFailedError
  | LogoffFailedError, LogoffFailedError
  | ExportFailedError, ExportFailedError => true
  | _, _ => false
  end.

(** [isinstance(e, Fault)], the test of an [except Fault] clause. *)
Definition is_Fault (e : exn) : bool := exn_class_eqb (class_of e) Fault.

(** How a computation ends: with a value, with an exception, or
    [Unanswered] when the remote side has no further reply in the scenario
    (an artefact of scripting the remote service with a finite list). *)
Inductive outcome (A : Type) :=
| Returned (a : A)
| Raised (e : exn)
| Unanswered.
Arguments Returned {A} a.
Arguments Raised {A} e.
Arguments Unanswered {A}.

(** State-and-exception monad over a state [S]. *)
Definition M (S A : Type) : Type := S -> outcome A * S.

Definition ret {S A} (a : A) : M S A := fun s => (Returned a, s).

Definition raise {S A} (e : exn) : M S A := fun s => (Raised e, s).

Definition bind {S A B} (m : M S A) (k : A -> M S B) : M S B :=
  fun s =>
    match m s with
    | (Returned a, s') => k a s'
    | (Raised e, s') => (Raised e, s')
    | (Unanswered, s') => (Unanswered, s')
    end.

(** [try: m  except Exception as e: handler(e)]; a handler that does not deal
    with [e] re-raises it. *)
Definition try_except {S A} (m : M S A) (handler : exn -> M S A) : M S A :=
  fun s =>
    match m s with
    | (Raised e, s') => handler e s'
    | r => r
    end.

(** [try: m  finally: cleanup]. *)
Definition try_finally {S A} (m : M S A) (cleanup : M S unit) : M S A :=
  fun s =>
    match m s with
    | (Unanswered, s') => (Unanswered, s')
    | (r, s') =>
        match cleanup s' with
        | (Returned _, s'') => (r, s'')
        | (Raised e, s'') => (Raised e, s'')
        | (Unanswered, s'') => (Unanswered, s'')
        end
    end.

Declare Scope py_scope.
Delimit Scope py_scope with py.
Notation "x <- c1 ;; c2" := (bind c1 (fun x => c2))
  (at level 61, c1 at next level, right associativity) : py_scope.
Notation "c1 ;; c2" := (bind c1 (fun _ => c2))
  (at level 61, right associativity) : py_scope.
Open Scope py_scope.

(* ================================================================== *)
(** ** The world: log, clock, remote replies, MIME table, file system *)
(* ================================================================== *)

(** *** pathlib (POSIX flavour) *)

(** A pure path: its root (empty, one slash or two slashes) and its parts
    below the root.  Parsing drops empty and [.] components and keeps [..]. *)
Record PurePath := { root : string; parts : list string }.

(** [s.split("/")]. *)
Fixpoint split_slash (s : string) : list string :=
  match s with
  | EmptyString => [EmptyString]
  | String c s' =>
      if Ascii.eqb c "/"%char then EmptyString :: split_slash s'
      else match split_slash s' with
           | [] => [String c EmptyString]
           | x :: xs => String c x :: xs
           end
  end.

(** [s.lstrip("/")]. *)
Fixpoint lstrip_slash (s : string) : string :=
  match s with
  | String c s' => if Ascii.eqb c "/"%char then lstrip_slash s' else s
  | EmptyString => EmptyString
  end.

(** The POSIX [splitroot]: exactly two leading slashes are kept as a root of
    their own, any other number collapses to one. *)
Definition splitroot (s : string) : string * string :=
  match s with
  | String c _ =>
      if Ascii.eqb c "/"%char then
        let stripped := lstrip_slash s in
        if (String.length s - String.length stripped =? 2)%nat
        then ("//", stripped) else ("/", stripped)
      else ("", s)
  | EmptyString => ("", s)
  end.

Definition is_component (x : string) : bool :=
  truthy x && negb (String.eqb x ".").

(** [Path(s)]. *)
Definition Path (s : string) : PurePath :=
  let (r, rel) := splitroot s in
  {| root := r; parts := filter is_component (split_slash rel) |}.

(** [p / s]: a rooted right operand replaces the left one. *)
Definition joinpath (p : PurePath) (s : string) : PurePath :=
  let q := Path s in
  if truthy (root q) then q
  else {| root := root p; parts := parts p ++ parts q |}.

(** [p.name]: the final path component, empty when there is none. *)
Definition name (p : PurePath) : string := last (parts p) "".

(** [str(p)]. *)
Definition str_path (p : PurePath) : string :=
  match parts p with
  | [] => if truthy (root p) then root p else "."
  | _ => root p ++ String.concat "/" (parts p)
  end.

(** *** The file system *)

(** A tree of directories and regular files below [/], all of them the
    process's own.  Symbolic links, permissions, quotas, other processes and
    the exhaustion of the interpreter ([MemoryError], [RecursionError]) are
    outside the model. *)
#[warnings="-register-all"]
Inductive node :=
| File (data : bytes)
| Dir (entries : list (string * node)).

Fixpoint assoc {A} (k : string) (l : list (string * A)) : option A :=
  match l with
  | [] => None
  | (k', v) :: l' => if String.eqb k k' then Some v else assoc k l'
  end.

(** Replace the entry of [k], or add it at the end. *)
Fixpoint put {A} (k : string) (v : A) (l : list (string * A))
  : list (string * A) :=
  match l with
  | [] => [(k, v)]
  | (k', v') :: l' =>
      if String.eqb k k' then (k, v) :: l' else (k', v') :: put k v l'
  end.

(** The node at a location.  A location is the list of entry names that
    leads from [/] to a node; it holds the names as the directories list
    them.  The components [..] of a path are no such names: path resolution
    ([walk]) follows them to the parent directory. *)
Fixpoint node_at (n : node) (loc : list string) : option node :=
  match loc with
  | [] => Some n
  | x :: loc' =>
      match n with
      | File _ => None
      | Dir es =>
          match assoc x es with
          | Some c => node_at c loc'
          | None => None
          end
      end
  end.

(** The tree with [v] at the location [loc], in the directory above it. *)
Fixpoint store (n : node) (loc : list string) (v : node) : node :=
  match loc with
  | [] => v
  | x :: loc' =>
      match n with
      | File _ => n
      | Dir es =>
          match loc' with
          | [] => Dir (put x v es)
          | _ :: _ =>
              match assoc x es with
              | Some c => Dir (put x (store c loc' v) es)
              | None => n
              end
          end
      end
  end.

(** The error numbers that occur. *)
Inductive errno := ENOENT | EEXIST | ENOTDIR | EISDIR | ENAMETOOLONG.

(** Why a call on a path fails: the path holds a NUL character, which
    Python refuses before the kernel sees the path, or the kernel reports an
    error number. *)
Inductive failure := EmbeddedNull | Errno (e : errno).

(** The limits of Linux: the bytes of a name, and of a whole path with its
    terminating NUL. *)
Definition NAME_MAX : nat := 255.
Definition PATH_MAX : nat := 4096.

(** Path resolution in the kernel, a component at a time, from the
    location [cur].  A component is looked up in a directory only: below a
    regular file it is [ENOTDIR], below nothing [ENOENT].  The component [..]
    leads to the parent directory ([/] is its own parent); a name of more
    than [NAME_MAX] bytes is refused.  The result is the location the
    path leads to; whether something is there is for the caller to see. *)
Fixpoint walk (fs : node) (cur : list string) (components : list string)
  : errno + list string :=
  match components with
  | [] => inr cur
  | x :: components' =>
      match node_at fs cur with
      | Some (Dir _) =>
          if String.eqb x ".." then walk fs (removelast cur) components'
          else if (NAME_MAX <? fsencoded_length x)%nat then inl ENAMETOOLONG
          else walk fs (cur ++ [x]) components'
      | Some (File _) => inl ENOTDIR
      | None => inl ENOENT
      end
  end.

(** The location of the path [p], given to the kernel as [str(p)] by a
    process whose current directory is [cwd]. *)
Definition resolve (fs : node) (cwd : list string) (p : PurePath)
  : failure + list string :=
  if has_nul (str_path p) then inl EmbeddedNull
  else if (PATH_MAX <=? fsencoded_length (str_path p))%nat
  then inl (Errno ENAMETOOLONG)
  else
    let start := if truthy (root p) then [] else cwd in
    match node_at fs start with
    | Some (Dir _) =>
        match walk fs start (parts p) with
        | inl e => inl (Errno e)
        | inr loc => inr loc
        end
    | Some (File _) => inl (Errno ENOTDIR)
    | None => inl (Errno ENOENT)
    end.

(** [os.stat(p)]: the node the path leads to. *)
Definition os_stat (fs : node) (cwd : list string) (p : PurePath)
  : failure + node :=
  match resolve fs cwd p with
  | inl f => inl f
  | inr loc =>
      match node_at fs loc with
      | Some n => inr n
      | None => inl (Errno ENOENT)
      end
  end.

(** [os.mkdir(p)]: a new, empty directory where nothing is yet. *)
Definition os_mkdir (fs : node) (cwd : list string) (p : PurePath)
  : failure + node :=
  match resolve fs cwd p with
  | inl f => inl f
  | inr loc =>
      match node_at fs loc with
      | Some _ => inl (Errno EEXIST)
      | None => inr (store fs loc (Dir []))
      end
  end.

(** [open(p, "wb")]: the regular file at the path is created or truncated;
    the result is its location and the new tree. *)
Definition os_open_wb (fs : node) (cwd : list string) (p : PurePath)
  : failure + (list string * node) :=
  match resolve fs cwd p with
  | inl f => inl f
  | inr loc =>
      match node_at fs loc with
      | Some (Dir _) => inl (Errno EISDIR)
      | _ => inr (loc, store fs loc (File []))
      end
  end.

(** The exception Python raises for a failure on the path [p]. *)
Definition strerror (e : errno) : string :=
  match e with
  | ENOENT => "[Errno 2] No such file or directory"
  | EEXIST => "[Errno 17] File exists"
  | ENOTDIR => "[Errno 20] Not a directory"
  | EISDIR => "[Errno 21] Is a directory"
  | ENAMETOOLONG => "[Errno 36] File name too long"
  end.

Definition errno_class (e : errno) : exn_class :=
  match e with
  | ENOENT => FileNotFoundError
  | EEXIST => FileExistsError
  | ENOTDIR => NotADirectoryError
  | EISDIR => IsADirectoryError
  | ENAMETOOLONG => OSError
  end.

Definition raised_for (f : failure) (p : PurePath) : exn :=
  match f with
  | EmbeddedNull => Exception ValueError "embedded null byte" None
  | Errno e =>
      Exception (errno_class e) (strerror e ++ ": " ++ repr (str_path p)) None
  end.

(** pathlib's [_ignore_error]: the error numbers [Path.exists] and
    [Path.is_dir] take for an absent path. *)
Definition ignore_error (e : errno) : bool :=
  match e with
  | ENOENT | ENOTDIR => true
  | _ => false
  end.

(** [Path.exists]: a path that cannot be encoded does not exist, any error
    that is not ignored is raised. *)
Definition Path_exists (fs : node) (cwd : list string) (p : PurePath)
  : failure + bool :=
  match os_stat fs cwd p with
  | inr _ => inr true
  | inl EmbeddedNull => inr false
  | inl (Errno e) => if ignore_error e then inr false else inl (Errno e)
  end.

(** [Path.is_dir]. *)
Definition Path_is_dir (fs : node) (cwd : list string) (p : PurePath)
  : failure + bool :=
  match os_stat fs cwd p with
  | inr (Dir _) => inr true
  | inr (File _) => inr false
  | inl EmbeddedNull => inr false
  | inl (Errno e) => if ignore_error e then inr false else inl (Errno e)
  end.

(** The [except OSError] clause of [Path.mkdir] with [exist_ok=True], for
    the error [e] of [os.mkdir]: the error is raised again unless the path is
    a directory.  The result is the exception, if any, and the tree. *)
Definition mkdir_exists (fs : node) (cwd : list string) (p : PurePath)
  (e : errno) : option exn * node :=
  match Path_is_dir fs cwd p with
  | inr true => (None, fs)
  | inr false => (Some (raised_for (Errno e) p), fs)
  | inl f => (Some (raised_for f p), fs)
  end.

(** [p.mkdir(parents=False, exist_ok=True)]. *)
Definition Path_mkdir_exist_ok (fs : node) (cwd : list string) (p : PurePath)
  : option exn * node :=
  match os_mkdir fs cwd p with
  | inr fs' => (None, fs')
  | inl (Errno ENOENT) => (Some (raised_for (Errno ENOENT) p), fs)
  | inl (Errno e) => mkdir_exists fs cwd p e
  | inl EmbeddedNull => (Some (raised_for EmbeddedNull p), fs)
  end.

(** [p.mkdir(parents=True, exist_ok=True)] for the path with the root [rt]
    and the parts [rparts], last part first: when [os.mkdir] finds no parent
    directory, the parent path is made in the same way and the directory
    itself after it.  A path without parts is its own parent.  Directories
    made before an error stay. *)
Fixpoint Path_mkdir_parents (fs : node) (cwd : list string) (rt : string)
  (rparts : list string) : option exn * node :=
  let p := {| root := rt; parts := rev rparts |} in
  match os_mkdir fs cwd p with
  | inr fs' => (None, fs')
  | inl (Errno ENOENT) =>
      match rparts with
      | [] => (Some (raised_for (Errno ENOENT) p), fs)
      | _ :: rparent =>
          match Path_mkdir_parents fs cwd rt rparent with
          | (Some e, fs1) => (Some e, fs1)
          | (None, fs1) => Path_mkdir_exist_ok fs1 cwd p
          end
      end
  | inl (Errno e) => mkdir_exists fs cwd p e
  | inl EmbeddedNull => (Some (raised_for EmbeddedNull p), fs)
  end.

(** *** The remote service *)

(** What a remote call does: it answers, or the SOAP client raises. *)
Inductive reply (A : Type) :=
| Answers (a : A)
| Throws (e : exn).
Arguments Answers {A} a.
Arguments Throws {A} e.

(** The dictionary [{"async": ..., "useMtom": ..., "refresh": ...}], keys in
    insertion order. *)
Definition execution_options_t := list (string * bool).

(** The answer of [initiateAnalysisExport]. *)
Record InitiateResult := { queryID : string }.

(** The answer of [completeAnalysisExport].  The payload and its MIME
    type are optional elements of the reply: absent, the attribute is
    [None]. *)
Record ExportResult := {
  exportStatus : string;
  viewData : option bytes;
  mimeType : option string
}.

(** The bound [SAWSessionService]: how the server answers a logon with a
    user name and password (the password is absent once it was cleared) and
    a logoff with a session id. *)
Record SAWSessionService := {
  logon : string -> option string -> reply string;
  logoff : string -> reply unit
}.

(** The bound [AnalysisExportViewsService]: how the server answers an
    export request.  Its answers to the status polls change from call to
    call; they are scripted in the world ([status_replies]). *)
Record AnalysisExportViewsService := {
  initiateAnalysisExport :
    string -> string -> execution_options_t -> reply InitiateResult
}.

(** *** Events and the world *)

Inductive level := DEBUG | INFO | WARNING | ERROR.

(** What is observable from outside, in the order it happens: log records
    (logger name, level, message, arguments of the lazy format), remote calls
    and sleeps. *)
Inductive event :=
| Log (logger : string) (lvl : level) (msg : string) (args : list string)
| CallLogon (username : string) (password : option string)
| CallLogoff (session_id : string)
| CallInitiateAnalysisExport (report output_format : string)
    (options : execution_options_t)
| CallCompleteAnalysisExport (query_id : string)
| Slept (seconds : Z).

Record World := {
  (** the wall clock, in microseconds since a local midnight *)
  clock : Z;
  (** everything logged and called so far, oldest first *)
  trace : list event;
  (** the file system below [/] and the current directory *)
  filesystem : node;
  cwd : list string;
  (** [mimetypes.guess_extension(type, strict=True)], a table of the Python
      installation *)
  guess_extension_strict : string -> option string;
  (** the server's answers to the status polls still to come, each with the
      time that passes until it arrives (microseconds) *)
  status_replies : list (Z * reply ExportResult)
}.

Definition set_clock (t : Z) (w : World) : World :=
  {| clock := t; trace := trace w; filesystem := filesystem w; cwd := cwd w;
     guess_extension_strict := guess_extension_strict w;
     status_replies := status_replies w |}.

Definition set_trace (tr : list event) (w : World) : World :=
  {| clock := clock w; trace := tr; filesystem := filesystem w; cwd := cwd w;
     guess_extension_strict := guess_extension_strict w;
     status_replies := status_replies w |}.

Definition set_filesystem (n : node) (w : World) : World :=
  {| clock := clock w; trace := trace w; filesystem := n; cwd := cwd w;
     guess_extension_strict := guess_extension_strict w;
     status_replies := status_replies w |}.

Definition set_status_replies (l : list (Z * reply ExportResult)) (w : World)
  : World :=
  {| clock := clock w; trace := trace w; filesystem := filesystem w;
     cwd := cwd w; guess_extension_strict := guess_extension_strict w;
     status_replies := l |}.

Definition emit (e : event) : M World unit :=
  fun w => (Returned tt, set_trace (trace w ++ [e]) w).

(** [logger.debug], [.info], [.warning], [.error] of the logger [lg]. *)
Definition logger_debug (lg msg : string) (args : list string) : M World unit :=
  emit (Log lg DEBUG msg args).
Definition logger_info (lg msg : string) (args : list string) : M World unit :=
  emit (Log lg INFO msg args).
Definition logger_warning (lg msg : string) (args : list string)
  : M World unit :=
  emit (Log lg WARNING msg args).
Definition logger_error (lg msg : string) (args : list string) : M World unit :=
  emit (Log lg ERROR msg args).

(** [datetime.now()]. *)
Definition datetime_now : M World Z := fun w => (Returned (clock w), w).

(** [time.sleep(seconds)]: the clock moves on by the interval (a longer
    sleep is accounted for in the latency of the next reply). *)
Definition time_sleep (seconds : Z) : M World unit :=
  if seconds <? 0 then
    raise (Exception ValueError "sleep length must be non-negative" None)
  else
    fun w =>
      (Returned tt,
       set_clock (clock w + seconds * 1000000)
         (set_trace (trace w ++ [Slept seconds]) w)).

Definition of_reply {S A} (r : reply A) : M S A :=
  match r with
  | Answers a => ret a
  | Throws e => raise e
  end.

(** [p.exists()]. *)
Definition path_exists (p : PurePath) : M World bool :=
  fun w =>
    match Path_exists (filesystem w) (cwd w) p with
    | inr present => (Returned present, w)
    | inl f => (Raised (raised_for f p), w)
    end.

(** [p.mkdir(parents=True, exist_ok=True)]. *)
Definition path_mkdir (p : PurePath) : M World unit :=
  fun w =>
    match Path_mkdir_parents (filesystem w) (cwd w) (root p) (rev (parts p))
    with
    | (Some e, n) => (Raised e, set_filesystem n w)
    | (None, n) => (Returned tt, set_filesystem n w)
    end.

(** [with open(p, "wb") as f: f.write(data)]: the file is created or
    truncated, then the bytes are written; [write] refuses [None], and the
    file is closed either way. *)
Definition open_wb_write (p : PurePath) (data : option bytes) : M World unit :=
  fun w =>
    match os_open_wb (filesystem w) (cwd w) p with
    | inl f => (Raised (raised_for f p), w)
    | inr (loc, n) =>
        match data with
        | Some b => (Returned tt, set_filesystem (store n loc (File b)) w)
        | None =>
            (Raised (Exception TypeError
                       "a bytes-like object is required, not 'NoneType'" None),
             set_filesystem n w)
        end
    end.

(** [guess_extension(mime_type, strict=True)]: the type is lowered first,
    which [None] does not allow. *)
Definition guess_extension (mime_type : option string)
  : M World (option string) :=
  match mime_type with
  | Some t => fun w => (Returned (guess_extension_strict w t), w)
  | None =>
      raise (Exception AttributeError
               "'NoneType' object has no attribute 'lower'" None)
  end.

(* ================================================================== *)
(** ** report.py *)
(* ================================================================== *)

Definition report_logger := "pythonOBIEE.report".

(** The dataclass [Report]. *)
Record Report := {
  report_ref : string;
  output_format : string;
  output_folder : option string;
  custom_report_name : option string;
  refresh : bool
}.

(** [Report._strip_and_log]. *)
Definition _strip_and_log (value attribute_name : string) : M World string :=
  let stripped_value := strip value in
  (if negb (String.eqb stripped_value value) then
     logger_warning report_logger
       ("Leading or trailing space removed from " ++ attribute_name ++ ": '"
        ++ value ++ "' -> '" ++ stripped_value ++ "'. "
        ++ "To avoid this warning, please consider correcting the input at the source.")
       []
   else ret tt) ;;
  ret stripped_value.

(** [Report.__post_init__], run on the fields as the generated [__init__]
    stored them; the result is the object once the four assignments are
    done. *)
Definition __post_init__ (self : Report) : M World Report :=
  report_ref' <- _strip_and_log (report_ref self) "report_ref" ;;
  output_format' <- _strip_and_log (output_format self) "output_format" ;;
  output_folder' <-
    (match output_folder self with
     | Some folder =>
         if truthy folder then
           v <- _strip_and_log folder "output_folder" ;; ret (Some v)
         else ret (output_folder self)
     | None => ret (output_folder self)
     end) ;;
  custom_report_name' <-
    (match custom_report_name self with
     | Some custom =>
         if truthy custom then
           v <- _strip_and_log custom "custom_report_name" ;; ret (Some v)
         else ret (custom_report_name self)
     | None => ret (custom_report_name self)
     end) ;;
  ret {| report_ref := report_ref';
         output_format := output_format';
         output_folder := output_folder';
         custom_report_name := custom_report_name';
         refresh := refresh self |}.

(** [Report(report_ref, output_format, output_folder, custom_report_name,
    refresh)]: the generated [__init__] stores the arguments and calls
    [__post_init__]. *)
Definition Report_init (report_ref output_format : string)
  (output_folder custom_report_name : option string) (refresh : bool)
  : M World Report :=
  __post_init__
    {| report_ref := report_ref;
       output_format := output_format;
       output_folder := output_folder;
       custom_report_name := custom_report_name;
       refresh := refresh |}.

(** [Report.execution_options]. *)
Definition execution_options (self : Report) : execution_options_t :=
  [("async", true); ("useMtom", false); ("refresh", refresh self)].

(** [Report._generate_report_name]. *)
Definition _generate_report_name (self : Report) : string :=
  name (Path (report_ref self)).

(** [Report.report_name]. *)
Definition report_name (self : Report) : string :=
  match custom_report_name self with
  | Some custom => if truthy custom then custom else _generate_report_name self
  | None => _generate_report_name self
  end.

(** [Report.original_name]. *)
Definition original_name (self : Report) : string :=
  _generate_report_name self.

(* ================================================================== *)
(** ** session_manager.py *)
(* ================================================================== *)

Definition session_logger := "pythonOBIEE.session_manager".

(** The object [OBIEESession]: the bound service and the three attributes
    [__init__] sets. *)
Record OBIEESession := {
  session_service : SAWSessionService;
  username : string;
  _password : option string;
  _session_id : option string
}.

(** [OBIEESession.__init__], with the service [client.bind] returns. *)
Definition OBIEESession_init (service : SAWSessionService)
  (username password : string) : OBIEESession :=
  {| session_service := service;
     username := username;
     _password := Some password;
     _session_id := None |}.

(** The state of a method of the session: the object and the world. *)
Definition SessionState : Type := OBIEESession * World.

Definition in_world {A} (m : M World A) : M SessionState A :=
  fun s => let (r, w) := m (snd s) in (r, (fst s, w)).

Definition self_ : M SessionState OBIEESession :=
  fun s => (Returned (fst s), s).

Definition set_session_id (v : option string) : M SessionState unit :=
  fun s =>
    (Returned tt,
     ({| session_service := session_service (fst s);
         username := username (fst s);
         _password := _password (fst s);
         _session_id := v |}, snd s)).

Definition set_password (v : option string) : M SessionState unit :=
  fun s =>
    (Returned tt,
     ({| session_service := session_service (fst s);
         username := username (fst s);
         _password := v;
         _session_id := _session_id (fst s) |}, snd s)).

(** [self.session_service.logon(username, password)]. *)
Definition call_logon (svc : SAWSessionService) (user : string)
  (password : option string) : M World string :=
  emit (CallLogon user password) ;; of_reply (logon svc user password).

(** [self.session_service.logoff(session_id)]. *)
Definition call_logoff (svc : SAWSessionService) (session_id : string)
  : M World unit :=
  emit (CallLogoff session_id) ;; of_reply (logoff svc session_id).

(** [OBIEESession.__enter__]. *)
Definition __enter__ : M SessionState string :=
  self <- self_ ;;
  in_world (logger_info session_logger
              ("Attempting to log in as " ++ username self ++ "...") []) ;;
  try_finally
    (try_except
       (sid <- in_world (call_logon (session_service self) (username self)
                           (_password self)) ;;
        set_session_id (Some sid) ;;
        in_world (logger_info session_logger
                    ("Logged in successfully as " ++ username self ++ ".") []) ;;
        in_world (logger_debug session_logger ("Session ID: " ++ sid) []) ;;
        ret sid)
       (fun e =>
          if is_Fault e then
            in_world (logger_error session_logger
                        ("Logon failed for user " ++ username self
                         ++ ". Error: " ++ str_exn e) []) ;;
            raise (Exception LogonFailedError
                     ("Logon failed. " ++ str_exn e) (Some e))
          else raise e))
    (set_password None).

(** [OBIEESession.__exit__]; it returns [None]. *)
Definition __exit__ : M SessionState unit :=
  self <- self_ ;;
  match _session_id self with
  | Some sid =>
      if truthy sid then
        try_finally
          (try_except
             (in_world (call_logoff (session_service self) sid) ;;
              in_world (logger_info session_logger
                          ("User " ++ username self
                           ++ " logged off successfully.") []) ;;
              in_world (logger_debug session_logger
                          ("Logged off from session " ++ sid ++ ".") []))
             (fun e =>
                if is_Fault e then
                  in_world (logger_error session_logger
                              ("Logoff failed for user " ++ username self
                               ++ ". Error: " ++ str_exn e) []) ;;
                  raise (Exception LogoffFailedError
                           ("Logoff failed. " ++ str_exn e) (Some e))
                else raise e))
          (set_session_id None)
      else ret tt
  | None => ret tt
  end.

(** [with session as session_id: body(session_id)].  When [__enter__]
    raises, neither the body nor [__exit__] runs.  Otherwise [__exit__] runs
    once, whether the body returned or raised; it returns [None], so an
    exception of the body goes on, unless [__exit__] raises one itself. *)
Definition with_session {A} (body : string -> M World A) : M SessionState A :=
  session_id <- __enter__ ;;
  fun s =>
    match in_world (body session_id) s with
    | (Unanswered, s') => (Unanswered, s')
    | (r, s') =>
        match __exit__ s' with
        | (Returned _, s'') => (r, s'')
        | (Raised e, s'') => (Raised e, s'')
        | (Unanswered, s'') => (Unanswered, s'')
        end
    end.

(* ================================================================== *)
(** ** obiee_analysis_export.py *)
(* ================================================================== *)

Definition export_logger := "pythonOBIEE.obiee_analysis_export".

(** The object [OBIEEAnalysisExporter]; [timeout] and
    [status_check_interval] are whole seconds. *)
Record OBIEEAnalysisExporter := {
  export_service : AnalysisExportViewsService;
  timeout : Z;
  overwrite_existing : bool;
  status_check_interval : Z
}.

(** [OBIEEAnalysisExporter.__init__] with its defaults spelled out by the
    caller: [timeout=300], [overwrite_existing=False],
    [status_check_interval=2]. *)
Definition OBIEEAnalysisExporter_init (service : AnalysisExportViewsService)
  (timeout : Z) (overwrite_existing : bool) (status_check_interval : Z)
  : OBIEEAnalysisExporter :=
  {| export_service := service;
     timeout := timeout;
     overwrite_existing := overwrite_existing;
     status_check_interval := status_check_interval |}.

Definition default_timeout : Z := 300.
Definition default_overwrite_existing : bool := false.
Definition default_status_check_interval : Z := 2.

(** [io.BytesIO(initial_bytes)]: the buffer and the read position; without
    initial bytes the buffer is empty. *)
Record BytesIO := { getvalue : bytes; tell : nat }.

Definition BytesIO_init (initial_bytes : option bytes) : BytesIO :=
  {| getvalue := match initial_bytes with Some b => b | None => [] end;
     tell := 0%nat |}.

(** [str(d)] of the options dictionary. *)
Definition str_options (d : execution_options_t) : string :=
  "{" ++ String.concat ", "
           (map (fun kv => "'" ++ fst kv ++ "': " ++ str_bool (snd kv)) d)
  ++ "}".

(** [OBIEEAnalysisExporter._initiate_export]. *)
Definition _initiate_export (self : OBIEEAnalysisExporter) (report : Report)
  : M World InitiateResult :=
  logger_debug export_logger
    ("Initiating export for report: " ++ report_ref report) [] ;;
  logger_debug export_logger
    ("Output format: " ++ output_format report) [] ;;
  logger_debug export_logger
    ("Execution options: " ++ str_options (execution_options report)) [] ;;
  emit (CallInitiateAnalysisExport (report_ref report) (output_format report)
          (execution_options report)) ;;
  of_reply (initiateAnalysisExport (export_service self) (report_ref report)
              (output_format report) (execution_options report)).

(** [OBIEEAnalysisExporter._get_export_result]: one status poll.  The next
    scripted reply arrives after its latency. *)
Definition _get_export_result (self : OBIEEAnalysisExporter)
  (query_id : string) : M World ExportResult :=
  fun w =>
    match status_replies w with
    | [] => (Unanswered, w)
    | (latency, r) :: rest =>
        of_reply r
          (set_status_replies rest
             (set_clock (clock w + latency)
                (set_trace (trace w ++ [CallCompleteAnalysisExport query_id])
                   w)))
    end.

(** The [while True] loop of [_wait_for_export_completion].  Every turn
    takes one scripted reply, so [fuel] above their number never runs out.
    Times are in microseconds; [elapsed_time > self.timeout] compares the
    elapsed seconds with the timeout. *)
Fixpoint polling_loop (fuel : nat) (self : OBIEEAnalysisExporter)
  (query_id : string) (start_time : Z) : M World ExportResult :=
  match fuel with
  | O => fun w => (Unanswered, w)
  | S fuel' =>
      export_result <- _get_export_result self query_id ;;
      let export_status := exportStatus export_result in
      now <- datetime_now ;;
      let elapsed_time := now - start_time in
      let formatted_elapsed_time :=
        str_timedelta (Z.quot elapsed_time 1000000) in
      now' <- datetime_now ;;
      logger_debug export_logger
        "Elapsed time: %s. Current time: %s. Export status: %s"
        [formatted_elapsed_time; strftime_IMSp now'; export_status] ;;
      if timeout self * 1000000 <? elapsed_time then
        raise (Exception TimeoutError
                 ("Export timed out after " ++ formatted_elapsed_time
                  ++ ". Timeout is " ++ str_int (timeout self) ++ " seconds.")
                 None)
      else if String.eqb export_status "InProgress" then
        time_sleep (status_check_interval self) ;;
        polling_loop fuel' self query_id start_time
      else if String.eqb export_status "Error" then
        logger_error export_logger
          "Export failed with an error. OBIEE returned exportStatus 'Error'."
          [] ;;
        raise (Exception ExportFailedError
                 "Export failed with an error. OBIEE returned exportStatus 'Error'."
                 None)
      else if String.eqb export_status "Done" then
        logger_debug export_logger "Report finished exporting in %s."
          [formatted_elapsed_time] ;;
        ret export_result
      else
        logger_error export_logger
          "OBIEE returned an unknown exportStatus: %s" [export_status] ;;
        raise (Exception ValueError
                 ("OBIEE returned an unknown exportStatus: " ++ export_status)
                 None)
  end.

(** [OBIEEAnalysisExporter._wait_for_export_completion]. *)
Definition _wait_for_export_completion (self : OBIEEAnalysisExporter)
  (query_id : string) : M World ExportResult :=
  start_time <- datetime_now ;;
  fun w =>
    polling_loop (S (List.length (status_replies w))) self query_id start_time w.

(** [OBIEEAnalysisExporter._export_report]. *)
Definition _export_report (self : OBIEEAnalysisExporter) (report : Report)
  : M World ExportResult :=
  try_except
    (logger_info export_logger "Exporting '%s' in '%s' format..."
       [report_name report; output_format report] ;;
     initiated <- _initiate_export self report ;;
     let query_id := queryID initiated in
     export_result <- _wait_for_export_completion self query_id ;;
     logger_info export_logger "Export Complete '%s'." [report_name report] ;;
     ret export_result)
    (fun e =>
       if is_Fault e then
         logger_error export_logger "Export failed for report '%s'. Error: %s"
           [report_name report; str_exn e] ;;
         raise (Exception ExportFailedError
                  ("Export failed. " ++ str_exn e) (Some e))
       else
         logger_error export_logger "Export failed for report '%s'. Error: %s"
           [report_name report; str_exn e] ;;
         raise (Exception ExportFailedError "Export failed." (Some e))).

(** [OBIEEAnalysisExporter._get_extension]. *)
Definition _get_extension (self : OBIEEAnalysisExporter)
  (mime_type : option string) : M World (option string) :=
  guess_extension mime_type.

(** [OBIEEAnalysisExporter._get_output_file_path]. *)
Definition _get_output_file_path (self : OBIEEAnalysisExporter)
  (export_result : ExportResult) (report : Report) : M World PurePath :=
  extension <- _get_extension self (mimeType export_result) ;;
  match output_folder report with
  | None =>
      raise (Exception TypeError
               "expected str, bytes or os.PathLike object, not NoneType" None)
  | Some folder =>
      let output_folder_path := Path folder in
      path_mkdir output_folder_path ;;
      let output_file_path :=
        joinpath output_folder_path (report_name report ++ format_opt extension)
      in
      ret output_file_path
  end.

(** [OBIEEAnalysisExporter._write_data_to_file]. *)
Definition _write_data_to_file (self : OBIEEAnalysisExporter)
  (export_result : ExportResult) (output_file_path : PurePath)
  : M World unit :=
  present <- path_exists output_file_path ;;
  if present && negb (overwrite_existing self) then
    logger_error export_logger
      "File %s already exists and overwriting is disabled."
      [str_path output_file_path] ;;
    raise (Exception FileExistsError
             ("File " ++ str_path output_file_path
              ++ " already exists and overwriting is disabled.") None)
  else
    open_wb_write output_file_path (viewData export_result).

(** [OBIEEAnalysisExporter._save_export]. *)
Definition _save_export (self : OBIEEAnalysisExporter)
  (export_result : ExportResult) (report : Report) : M World PurePath :=
  output_file_path <- _get_output_file_path self export_result report ;;
  logger_debug export_logger "Saving export data to %s..."
    [str_path output_file_path] ;;
  _write_data_to_file self export_result output_file_path ;;
  logger_info export_logger "Export saved to %s." [str_path output_file_path] ;;
  ret output_file_path.

(** [OBIEEAnalysisExporter.export_and_save]. *)
Definition export_and_save (self : OBIEEAnalysisExporter) (report : Report)
  : M World PurePath :=
  match output_folder report with
  | None =>
      logger_error export_logger
        "Output folder is required when exporting to file." [] ;;
      raise (Exception ValueError
               "Output folder is required when exporting to file." None)
  | Some _ =>
      export_result <- _export_report self report ;;
      _save_export self export_result report
  end.

(** [OBIEEAnalysisExporter.export_to_file_like_object]. *)
Definition export_to_file_like_object (self : OBIEEAnalysisExporter)
  (report : Report) : M World (BytesIO * option string) :=
  export_result <- _export_report self report ;;
  let file_like_object := BytesIO_init (viewData export_result) in
  file_extension <- _get_extension self (mimeType export_result) ;;
  ret (file_like_object, file_extension).

(* ================================================================== *)
(** ** Vocabulary of the statements *)
(* ================================================================== *)

(** A string of white space only (the empty string included). *)
Fixpoint blank (s : string) : bool :=
  match s with
  | EmptyString => true
  | String c s' => isspace c && blank s'
  end.

(** No slash in the string. *)
Fixpoint slash_free (s : string) : bool :=
  match s with
  | EmptyString => true
  | String c s' => negb (Ascii.eqb c "/"%char) && slash_free s'
  end.

(** The record [_strip_and_log] writes for an attribute and a value. *)
Definition strip_warning (attribute_name value : string) : event :=
  Log report_logger WARNING
    ("Leading or trailing space removed from " ++ attribute_name ++ ": '"
     ++ value ++ "' -> '" ++ strip value ++ "'. "
     ++ "To avoid this warning, please consider correcting the input at the source.")
    [].

(** The records construction writes for one attribute: one when trimming
    changes the value, none otherwise. *)
Definition strip_warnings (attribute_name value : string) : list event :=
  if String.eqb (strip value) value then []
  else [strip_warning attribute_name value].

Definition strip_warnings_opt (attribute_name : string)
  (value : option string) : list event :=
  match value with
  | Some v => strip_warnings attribute_name v
  | None => []
  end.

Definition is_warning (e : event) : bool :=
  match e with Log _ WARNING _ _ => true | _ => false end.

Definition is_logoff (e : event) : bool :=
  match e with CallLogoff _ => true | _ => false end.

(** How often logoff was called. *)
Definition logoff_calls (tr : list event) : nat :=
  List.length (filter is_logoff tr).

(** The session object with its password cleared and the given token. *)
Definition after_logon_attempt (self : OBIEESession)
  (session_id : option string) : OBIEESession :=
  {| session_service := session_service self;
     username := username self;
     _password := None;
     _session_id := session_id |}.

(** The session object with its token cleared. *)
Definition after_logoff_attempt (self : OBIEESession) : OBIEESession :=
  {| session_service := session_service self;
     username := username self;
     _password := _password self;
     _session_id := None |}.

Definition is_poll (e : event) : bool :=
  match e with CallCompleteAnalysisExport _ => true | _ => false end.

(** How often the export status was queried. *)
Definition poll_calls (tr : list event) : nat :=
  List.length (filter is_poll tr).

(** The exceptions the polling loop raises. *)
Definition timeout_error (self : OBIEEAnalysisExporter) (elapsed_time : Z)
  : exn :=
  Exception TimeoutError
    ("Export timed out after " ++ str_timedelta (Z.quot elapsed_time 1000000)
     ++ ". Timeout is " ++ str_int (timeout self) ++ " seconds.") None.

Definition error_status_error : exn :=
  Exception ExportFailedError
    "Export failed with an error. OBIEE returned exportStatus 'Error'." None.

Definition unknown_status_error (export_status : string) : exn :=
  Exception ValueError
    ("OBIEE returned an unknown exportStatus: " ++ export_status) None.

Definition negative_sleep_error : exn :=
  Exception ValueError "sleep length must be non-negative" None.

(** The world once the reply [r] to a status poll has arrived after [d]
    microseconds and the loop has logged it. *)
Definition received (query_id : string) (start_time d : Z) (r : ExportResult)
  (rest : list (Z * reply ExportResult)) (w : World) : World :=
  set_status_replies rest
    (set_clock (clock w + d)
       (set_trace
          (trace w
           ++ [CallCompleteAnalysisExport query_id;
               Log export_logger DEBUG
                 "Elapsed time: %s. Current time: %s. Export status: %s"
                 [str_timedelta (Z.quot (clock w + d - start_time) 1000000);
                  strftime_IMSp (clock w + d);
                  exportStatus r]]) w)).

(** The world after the sleep between two polls. *)
Definition slept (self : OBIEEAnalysisExporter) (w : World) : World :=
  set_clock (clock w + status_check_interval self * 1000000)
    (set_trace (trace w ++ [Slept (status_check_interval self)]) w).

(** The world with one more log record. *)
Definition logged (lvl : level) (msg : string) (args : list string)
  (w : World) : World :=
  set_trace (trace w ++ [Log export_logger lvl msg args]) w.

(** Two worlds with the same file system, current directory and MIME
    table. *)
Definition same_disk (w w' : World) : Prop :=
  filesystem w' = filesystem w
  /\ cwd w' = cwd w
  /\ guess_extension_strict w' = guess_extension_strict w.

(** [w'] comes after [w]: its trace continues the trace of [w]. *)
Definition continues (w w' : World) : Prop :=
  exists evs, trace w' = (trace w ++ evs)%list.

(** What [_export_report] raises in place of an exception [e] of its
    [try] block. *)
Definition export_failed (e : exn) : exn :=
  if is_Fault e then
    Exception ExportFailedError ("Export failed. " ++ str_exn e) (Some e)
  else Exception ExportFailedError "Export failed." (Some e).

(** The remote call that starts the export of [report]. *)
Definition initiate_call (report : Report) : event :=
  CallInitiateAnalysisExport (report_ref report) (output_format report)
    (execution_options report).

(** The world once the export of [report] was requested. *)
Definition requested (report : Report) (w : World) : World :=
  set_trace
    (trace w
     ++ [Log export_logger INFO "Exporting '%s' in '%s' format..."
           [report_name report; output_format report];
         Log export_logger DEBUG
           ("Initiating export for report: " ++ report_ref report) [];
         Log export_logger DEBUG
           ("Output format: " ++ output_format report) [];
         Log export_logger DEBUG
           ("Execution options: " ++ str_options (execution_options report))
           [];
         initiate_call report]) w.

(** The server's answer to the export request of [report]. *)
Definition initiate_reply (self : OBIEEAnalysisExporter) (report : Report)
  : reply InitiateResult :=
  initiateAnalysisExport (export_service self) (report_ref report)
    (output_format report) (execution_options report).

(** The record [_export_report] logs before it raises for [e]. *)
Definition logged_failure (report : Report) (e : exn) (w : World) : World :=
  logged ERROR "Export failed for report '%s'. Error: %s"
    [report_name report; str_exn e] w.

(** A scripted poll that is answered. *)
Definition answered (p : Z * ExportResult) : Z * reply ExportResult :=
  (fst p, Answers (snd p)).

(** The polls [pre], taken one after the other from the clock reading
    [now], all report [InProgress] and none of them is seen after the
    timeout (the loop started at [start_time]). *)
Fixpoint in_progress_in_time (self : OBIEEAnalysisExporter)
  (start_time now : Z) (pre : list (Z * ExportResult)) : Prop :=
  match pre with
  | [] => True
  | (d, r) :: pre' =>
      exportStatus r = "InProgress"
      /\ now + d - start_time <= timeout self * 1000000
      /\ in_progress_in_time self start_time
           (now + d + status_check_interval self * 1000000) pre'
  end.

(** The world after the loop has been through the polls [pre] and slept
    after each. *)
Fixpoint after_in_progress (self : OBIEEAnalysisExporter) (query_id : string)
  (start_time : Z) (pre : list (Z * ExportResult)) (w : World) : World :=
  match pre with
  | [] => w
  | (d, r) :: pre' =>
      after_in_progress self query_id start_time pre'
        (slept self
           (received query_id start_time d r (tl (status_replies w)) w))
  end.

(** The clock after the polls [pre] and the sleeps after each. *)
Fixpoint clock_after (self : OBIEEAnalysisExporter) (now : Z)
  (pre : list (Z * ExportResult)) : Z :=
  match pre with
  | [] => now
  | (d, _) :: pre' =>
      clock_after self (now + d + status_check_interval self * 1000000) pre'
  end.

(** The statuses the polling loop logged, in order. *)
Fixpoint observed_statuses (tr : list event) : list string :=
  match tr with
  | [] => []
  | Log _ DEBUG msg [_; _; export_status] :: tr' =>
      if String.eqb msg "Elapsed time: %s. Current time: %s. Export status: %s"
      then export_status :: observed_statuses tr'
      else observed_statuses tr'
  | _ :: tr' => observed_statuses tr'
  end.

(** The path [_get_output_file_path] builds for a result of the MIME type
    [mime_type], in a world with the MIME table of [w]. *)
Definition output_file_path_of (w : World) (report : Report) (folder : string)
  (mime_type : string) : PurePath :=
  joinpath (Path folder)
    (report_name report ++ format_opt (guess_extension_strict w mime_type)).

(** The error of [guess_extension] for an absent MIME type. *)
Definition missing_mime_type : exn :=
  Exception AttributeError "'NoneType' object has no attribute 'lower'" None.

(** The error of [write] for an absent payload. *)
Definition missing_payload : exn :=
  Exception TypeError "a bytes-like object is required, not 'NoneType'" None.

(** Where a path leads in a world, and what is there. *)
Definition location_of (w : World) (p : PurePath) : option (list string) :=
  match resolve (filesystem w) (cwd w) p with
  | inr loc => Some loc
  | inl _ => None
  end.

Definition node_of (w : World) (p : PurePath) : option node :=
  match os_stat (filesystem w) (cwd w) p with
  | inr n => Some n
  | inl _ => None
  end.

(** The error [_write_data_to_file] raises for an existing target. *)
Definition file_exists_error (target : PurePath) : exn :=
  Exception FileExistsError
    ("File " ++ str_path target ++ " already exists and overwriting is disabled.")
    None.

(** The error of the fail-fast check of [export_and_save]. *)
Definition output_folder_required : exn :=
  Exception ValueError "Output folder is required when exporting to file." None.

(** *** Example scenarios *)

(** A strict MIME table that knows PDF and CSV. *)
Definition example_mime_table (mime_type : string) : option string :=
  if String.eqb mime_type "application/pdf" then Some ".pdf"
  else if String.eqb mime_type "text/csv" then Some ".csv"
  else None.

(** A world in which nothing has happened yet: an empty log, an empty
    file system with [/] as the current directory, the example MIME table,
    and no status reply scripted. *)
Definition example_world : World :=
  {| clock := 0;
     trace := [];
     filesystem := Dir [];
     cwd := [];
     guess_extension_strict := example_mime_table;
     status_replies := [] |}.

(** A session service that accepts every logon with the token [sid-1] and
    whose logoff fails with a connection error (not a SOAP fault). *)
Definition service_with_broken_logoff : SAWSessionService :=
  {| logon := fun _ _ => Answers "sid-1";
     logoff := fun _ =>
       Throws (Exception TransportError "Connection aborted." None) |}.

(** A session service that rejects the logon with a SOAP fault. *)
Definition service_rejecting_logon : SAWSessionService :=
  {| logon := fun _ _ =>
       Throws (Exception Fault "Authentication error. Invalid credentials."
                 None);
     logoff := fun _ => Answers tt |}.

(** A session service whose logon succeeds and whose logoff raises a SOAP
    fault. *)
Definition service_with_faulting_logoff : SAWSessionService :=
  {| logon := fun _ _ => Answers "sid-1";
     logoff := fun _ => Throws (Exception Fault "Session expired." None) |}.

(** An export service that accepts every request under the query id
    [q-1]. *)
Definition example_service : AnalysisExportViewsService :=
  {| initiateAnalysisExport := fun _ _ _ => Answers {| queryID := "q-1" |} |}.

(** An exporter with the defaults of [__init__]: a timeout of 300 seconds,
    no overwriting, a poll every 2 seconds. *)
Definition example_exporter : OBIEEAnalysisExporter :=
  OBIEEAnalysisExporter_init example_service default_timeout
    default_overwrite_existing default_status_check_interval.

Definition example_report : Report :=
  {| report_ref := "/shared/Sales/Revenue";
     output_format := "PDF";
     output_folder := Some "out";
     custom_report_name := None;
     refresh := false |}.

Definition in_progress : ExportResult :=
  {| exportStatus := "InProgress"; viewData := None; mimeType := None |}.

(** A finished export: the four bytes [%PDF] as [application/pdf]. *)
Definition done_pdf : ExportResult :=
  {| exportStatus := "Done";
     viewData := Some [Byte.x25; Byte.x50; Byte.x44; Byte.x46];
     mimeType := Some "application/pdf" |}.


(** A reply with a status outside the vocabulary. *)
Definition weird : ExportResult :=
  {| exportStatus := "Weird"; viewData := None; mimeType := None |}.

Definition second : Z := 1000000.

(** The example world with the given status replies scripted. *)
Definition world_with_replies (replies : list (Z * reply ExportResult))
  : World :=
  set_status_replies replies example_world.

(** A world in which the status polls are answered [InProgress] after 200
    seconds each: the second answer comes later than the default timeout. *)
Definition slow_world : World :=
  world_with_replies
    [(200 * second, Answers in_progress);
     (200 * second, Answers in_progress);
     (second, Answers in_progress)].

(** The example report with the empty string as its output folder. *)
Definition report_into_empty_folder : Report :=
  {| report_ref := "/shared/Sales/Revenue";
     output_format := "PDF";
     output_folder := Some "";
     custom_report_name := None;
     refresh := false |}.

(* ================================================================== *)
(** ** Vocabulary of the further properties *)
(* ================================================================== *)

(** The string begins with white space. *)
Definition starts_with_space (s : string) : bool :=
  match s with
  | EmptyString => false
  | String c _ => isspace c
  end.

(** The string ends with white space. *)
Fixpoint ends_with_space (s : string) : bool :=
  match s with
  | EmptyString => false
  | String c EmptyString => isspace c
  | String _ s' => ends_with_space s'
  end.

(** A session service that answers the logon with the token [sid-1] and
    accepts the logoff. *)
Definition service_accepting : SAWSessionService :=
  {| logon := fun _ _ => Answers "sid-1"; logoff := fun _ => Answers tt |}.

(** A session service that answers the logon with an empty token. *)
Definition service_with_empty_token : SAWSessionService :=
  {| logon := fun _ _ => Answers ""; logoff := fun _ => Answers tt |}.

(** A session service that cannot be reached. *)
Definition service_unreachable : SAWSessionService :=
  {| logon := fun _ _ =>
       Throws (Exception TransportError "Connection refused." None);
     logoff := fun _ =>
       Throws (Exception TransportError "Connection refused." None) |}.

Definition is_sleep (e : event) : bool :=
  match e with Slept _ => true | _ => false end.

(** How often the loop slept. *)
Definition sleep_calls (tr : list event) : nat :=
  List.length (filter is_sleep tr).

Definition is_initiate (e : event) : bool :=
  match e with CallInitiateAnalysisExport _ _ _ => true | _ => false end.

(** How often an export was requested. *)
Definition initiate_calls (tr : list event) : nat :=
  List.length (filter is_initiate tr).

(** exceptions.py: the classes derived from [OBIEEError]. *)
Definition is_OBIEEError (c : exn_class) : bool :=
  match c with
  | LogonFailedError | LogoffFailedError | ExportFailedError => true
  | _ => false
  end.

(** A reply with the status [Error]. *)
Definition failed_on_server : ExportResult :=
  {| exportStatus := "Error"; viewData := None; mimeType := None |}.

(** An export service that rejects every request with a SOAP fault. *)
Definition service_rejecting_export : AnalysisExportViewsService :=
  {| initiateAnalysisExport := fun _ _ _ =>
       Throws (Exception Fault "Path not found (/shared/Sales/Revenue)" None)
  |}.

(** [w'] comes after [w] with no further export request. *)
Definition without_request (w w' : World) : Prop :=
  exists evs, trace w' = (trace w ++ evs)%list /\ initiate_calls evs = 0%nat.

(** *** The file system, in the statements *)

(** Every directory of [n] is a directory of [n']. *)
Definition keeps_directories (n n' : node) : Prop :=
  forall q es,
    node_at n q = Some (Dir es) -> exists es', node_at n' q = Some (Dir es').

(** Every regular file of [n] is in [n'] with the same contents. *)
Definition keeps_files (n n' : node) : Prop :=
  forall q d, node_at n q = Some (File d) -> node_at n' q = Some (File d).

(** A string that is one path component and a name a directory can hold:
    no slash, not empty, neither [.] nor [..], no NUL character and at
    most [NAME_MAX] bytes. *)
Definition file_name (x : string) : bool :=
  slash_free x && is_component x && negb (String.eqb x "..")
  && negb (has_nul x) && (fsencoded_length x <=? NAME_MAX)%nat.

(** A finished export whose reply carries no MIME type. *)
Definition done_without_mime_type : ExportResult :=
  {| exportStatus := "Done";
     viewData := Some [Byte.x25; Byte.x50; Byte.x44; Byte.x46];
     mimeType := None |}.
(** A world whose current directory is [/home/user], beside
    [/home/exports], which holds [Revenue.pdf] already; the export is
    finished at the first poll. *)
Definition world_in_home : World :=
  {| clock := 0;
     trace := [];
     filesystem :=
       Dir [("home",
             Dir [("user", Dir [("notes.txt", File [Byte.x68; Byte.x69])]);
                  ("exports",
                   Dir [("Revenue.pdf",
                         File [Byte.x6f; Byte.x6c; Byte.x64])])])];
     cwd := ["home"; "user"];
     guess_extension_strict := example_mime_table;
     status_replies := [(second, Answers done_pdf)] |}.

(** The example report, to be saved into the folder beside the current
    directory. *)
Definition report_into_sibling_folder : Report :=
  {| report_ref := "/shared/Sales/Revenue";
     output_format := "PDF";
     output_folder := Some "../exports";
     custom_report_name := None;
     refresh := false |}.

(** The example exporter with overwriting enabled. *)
Definition overwriting_exporter : OBIEEAnalysisExporter :=
  OBIEEAnalysisExporter_init example_service default_timeout true
    default_status_check_interval.

(* ================================================================== *)
(** * Properties *)
(* ================================================================== *)

(** ** Running computations *)

Section Running.
Context {S A B : Type}.

Lemma bind_Returned (m : M S A) (k : A -> M S B) s a s' :
  m s = (Returned a, s') -> bind m k s = k a s'.
Proof. intros H. unfold bind. now rewrite H. Qed.

Lemma bind_Raised (m : M S A) (k : A -> M S B) s e s' :
  m s = (Raised e, s') -> bind m k s = (Raised e, s').
Proof. intros H. unfold bind. now rewrite H. Qed.

Lemma bind_Unanswered (m : M S A) (k : A -> M S B) s s' :
  m s = (Unanswered, s') -> bind m k s = (Unanswered, s').
Proof. intros H. unfold bind. now rewrite H. Qed.

End Running.

Lemma set_trace_trace w : set_trace (trace w) w = w.
Proof. now destruct w. Qed.

Lemma set_trace_twice t1 t2 w : set_trace t2 (set_trace t1 w) = set_trace t2 w.
Proof. reflexivity. Qed.

(** ** Trimming *)

Lemma rstrip_blank s : blank (rstrip s) = blank s.
Proof.
  induction s as [|c s IH]; simpl; [reflexivity|].
  destruct (rstrip s) eqn:E.
  - simpl in IH. rewrite <- IH.
    destruct (isspace c) eqn:Ec; simpl; now rewrite ?Ec.
  - change (blank (String c (String a s0))) with (isspace c && blank (String a s0)).
    now rewrite IH.
Qed.

Lemma lstrip_empty s : lstrip s = EmptyString <-> blank s = true.
Proof.
  induction s as [|c s IH]; simpl; [tauto|].
  destruct (isspace c); simpl; [exact IH|].
  split; discriminate.
Qed.

(** Trimming leaves nothing exactly when there was only white space. *)
Lemma strip_empty s : strip s = EmptyString <-> blank s = true.
Proof. unfold strip. rewrite lstrip_empty. now rewrite rstrip_blank. Qed.

Lemma strip_nonempty s : blank s = false -> strip s <> EmptyString.
Proof.
  intros H E. apply strip_empty in E. congruence.
Qed.

(** ** The report descriptor *)

Lemma _strip_and_log_run value attribute_name w :
  _strip_and_log value attribute_name w
  = (Returned (strip value),
     set_trace (trace w ++ strip_warnings attribute_name value) w).
Proof.
  unfold _strip_and_log, strip_warnings, strip_warning.
  destruct (String.eqb (strip value) value); simpl.
  - cbv [bind ret]. now rewrite app_nil_r, set_trace_trace.
  - reflexivity.
Qed.

Lemma strip_warnings_empty attribute_name : strip_warnings attribute_name "" = [].
Proof. reflexivity. Qed.

(** Construction never fails: it stores the trimmed fields and logs the
    warnings of the fields trimming changed, in the order of the fields. *)
Lemma Report_init_run ref fmt folder custom refr w :
  Report_init ref fmt folder custom refr w
  = (Returned {| report_ref := strip ref;
                 output_format := strip fmt;
                 output_folder := option_map strip folder;
                 custom_report_name := option_map strip custom;
                 refresh := refr |},
     set_trace (trace w
                ++ strip_warnings "report_ref" ref
                ++ strip_warnings "output_format" fmt
                ++ strip_warnings_opt "output_folder" folder
                ++ strip_warnings_opt "custom_report_name" custom) w).
Proof.
  unfold Report_init, __post_init__; simpl.
  rewrite (bind_Returned _ _ _ _ _ (_strip_and_log_run _ _ _)).
  rewrite (bind_Returned _ _ _ _ _ (_strip_and_log_run _ _ _)).
  assert (Hopt : forall attr (v : option string) w0,
    (match v with
     | Some x =>
         if truthy x then (y <- _strip_and_log x attr ;; ret (Some y))
         else ret v
     | None => ret v
     end) w0
    = (Returned (option_map strip v),
       set_trace (trace w0 ++ strip_warnings_opt attr v) w0)).
  { intros attr [x|] w0; simpl.
    - destruct x as [|c x]; unfold truthy.
      + cbv [ret]. simpl. now rewrite app_nil_r, set_trace_trace.
      + now rewrite (bind_Returned _ _ _ _ _ (_strip_and_log_run _ _ _)).
    - cbv [ret]. now rewrite app_nil_r, set_trace_trace. }
  rewrite (bind_Returned _ _ _ _ _ (Hopt _ _ _)).
  rewrite (bind_Returned _ _ _ _ _ (Hopt _ _ _)).
  cbv [ret]. simpl trace. rewrite !set_trace_twice, <- !app_assoc.
  reflexivity.
Qed.

Lemma in_strip_warnings attribute_name value :
  strip value <> value ->
  In (strip_warning attribute_name value) (strip_warnings attribute_name value).
Proof.
  intros H. unfold strip_warnings.
  destruct (String.eqb_spec (strip value) value); [contradiction|now left].
Qed.

Lemma strip_warnings_are_warnings attribute_name value :
  forallb is_warning (strip_warnings attribute_name value) = true.
Proof.
  unfold strip_warnings. now destruct (String.eqb (strip value) value).
Qed.

(** C5, as the code has it: construction never fails and never rejects an
    empty value.  Every string field is stored trimmed; [report_ref] and
    [output_format] are non-empty after construction exactly when the value
    supplied holds a character that is not white space; a field that trimming
    changes gets a warning record, and warnings are all that construction
    logs.  In particular [" a/b/c "] is stored as ["a/b/c"] with a
    warning. *)
Theorem Report_construction_trims_and_warns :
  forall ref fmt folder custom refr w,
  exists r w',
    Report_init ref fmt folder custom refr w = (Returned r, w')
    /\ report_ref r = strip ref
    /\ output_format r = strip fmt
    /\ output_folder r = option_map strip folder
    /\ custom_report_name r = option_map strip custom
    /\ (report_ref r <> "" <-> blank ref = false)
    /\ (output_format r <> "" <-> blank fmt = false)
    /\ (strip ref <> ref -> In (strip_warning "report_ref" ref) (trace w'))
    /\ (strip fmt <> fmt ->
        In (strip_warning "output_format" fmt) (trace w'))
    /\ (forall v, folder = Some v -> strip v <> v ->
        In (strip_warning "output_folder" v) (trace w'))
    /\ (forall v, custom = Some v -> strip v <> v ->
        In (strip_warning "custom_report_name" v) (trace w'))
    /\ (exists ws, trace w' = (trace w ++ ws)%list /\ forallb is_warning ws = true)
    /\ (ref = " a/b/c " ->
        report_ref r = "a/b/c"
        /\ In (strip_warning "report_ref" " a/b/c ") (trace w')).
Proof.
  intros ref fmt folder custom refr w.
  eexists; eexists. split; [apply Report_init_run|].
  cbn [report_ref output_format output_folder custom_report_name trace
       set_trace].
  assert (Hne : forall v, strip v <> "" <-> blank v = false).
  { intros v. rewrite strip_empty. destruct (blank v); split; congruence. }
  repeat split; try apply Hne.
  - intros H. apply in_or_app; right. apply in_or_app; left.
    now apply in_strip_warnings.
  - intros H. do 2 (apply in_or_app; right). apply in_or_app; left.
    now apply in_strip_warnings.
  - intros v -> H. do 3 (apply in_or_app; right). apply in_or_app; left.
    now apply in_strip_warnings.
  - intros v -> H. do 4 (apply in_or_app; right).
    now apply in_strip_warnings.
  - eexists; split; [reflexivity|].
    rewrite !forallb_app, !strip_warnings_are_warnings.
    destruct folder, custom; simpl; now rewrite ?strip_warnings_are_warnings.
  - now subst ref.
  - subst ref. apply in_or_app; right. apply in_or_app; left. now left.
Qed.

(** The example of C5 run: [" a/b/c "] is stored trimmed, with a warning. *)
Lemma Report_construction_trims_and_warns_witness :
  exists r w',
    Report_init " a/b/c " "PDF" None None false example_world = (Returned r, w')
    /\ report_ref r = "a/b/c"
    /\ In (strip_warning "report_ref" " a/b/c ") (trace w').
Proof.
  destruct (Report_construction_trims_and_warns
              " a/b/c " "PDF" None None false example_world)
    as (r & w' & Hrun & _ & _ & _ & _ & _ & _ & _ & _ & _ & _ & _ & Hex).
  exists r, w'. split; [exact Hrun|]. exact (Hex eq_refl).
Defined.

(** C5 as stated fails: a descriptor with an empty [report_ref] and a
    white-space [output_format] is constructed without an error, and both
    fields are empty afterwards. *)
Lemma Report_with_empty_fields_is_constructed :
  exists r w',
    Report_init "" "   " None None false example_world = (Returned r, w')
    /\ report_ref r = ""
    /\ output_format r = "".
Proof.
  eexists; eexists. split; [apply Report_init_run|]. split; reflexivity.
Qed.

(** *** Names *)

Lemma split_slash_not_nil s : split_slash s <> [].
Proof.
  destruct s as [|c s]; simpl; [discriminate|].
  destruct (Ascii.eqb c "/"); [discriminate|].
  destruct (split_slash s); discriminate.
Qed.

Lemma split_slash_app a b :
  split_slash (a ++ String "/" b) = (split_slash a ++ split_slash b)%list.
Proof.
  induction a as [|c a IH]; simpl; [reflexivity|].
  destruct (Ascii.eqb c "/"); [now rewrite IH|].
  rewrite IH. destruct (split_slash a) eqn:E; [|reflexivity].
  now apply split_slash_not_nil in E.
Qed.

Lemma split_slash_free s : slash_free s = true -> split_slash s = [s].
Proof.
  induction s as [|c s IH]; simpl; [reflexivity|].
  destruct (Ascii.eqb c "/"); simpl; [discriminate|].
  intros H. now rewrite (IH H).
Qed.

Lemma lstrip_slash_free s : slash_free s = true -> lstrip_slash s = s.
Proof.
  destruct s as [|c s]; simpl; [reflexivity|].
  now destruct (Ascii.eqb c "/").
Qed.

Lemma splitroot_rest s : snd (splitroot s) = lstrip_slash s.
Proof.
  destruct s as [|c s]; [reflexivity|]. unfold splitroot.
  destruct (Ascii.eqb c "/") eqn:E.
  - now destruct (_ =? 2)%nat.
  - simpl. now rewrite E.
Qed.

Lemma name_Path s :
  name (Path s)
  = last (filter is_component (split_slash (lstrip_slash s))) "".
Proof.
  unfold Path, name. rewrite <- splitroot_rest.
  now destruct (splitroot s).
Qed.

Lemma lstrip_slash_leaf folder leaf :
  slash_free leaf = true ->
  lstrip_slash (folder ++ String "/" leaf) = leaf
  \/ exists folder', lstrip_slash (folder ++ String "/" leaf)
                     = folder' ++ String "/" leaf.
Proof.
  intros H. induction folder as [|c folder IH]; simpl.
  - left. now apply lstrip_slash_free.
  - destruct (Ascii.eqb c "/"); [exact IH|].
    right. now exists (String c folder).
Qed.

(** The name of a path is what follows its last slash, when that is a
    proper component. *)
Lemma name_Path_leaf folder leaf :
  slash_free leaf = true -> is_component leaf = true ->
  name (Path (folder ++ "/" ++ leaf)) = leaf.
Proof.
  intros Hs Hc. rewrite name_Path. change ("/" ++ leaf) with (String "/" leaf).
  destruct (lstrip_slash_leaf folder leaf Hs) as [-> | [f' ->]].
  - rewrite (split_slash_free _ Hs). simpl. now rewrite Hc.
  - rewrite split_slash_app, (split_slash_free _ Hs), filter_app.
    simpl. rewrite Hc. apply last_last.
Qed.

Lemma name_Path_plain leaf :
  slash_free leaf = true -> is_component leaf = true ->
  name (Path leaf) = leaf.
Proof.
  intros Hs Hc. rewrite name_Path, (lstrip_slash_free _ Hs).
  rewrite (split_slash_free _ Hs). simpl. now rewrite Hc.
Qed.

(** C8, as the code has it: [report_name] is the custom name whenever one is
    set and not empty, whatever [report_ref] is, and the final component of
    [report_ref] when the custom name is absent or empty; [original_name] is
    always the final component of [report_ref].  That component is
    [Path(report_ref).name]: for a reference that ends in [/leaf] it is
    [leaf]. *)
Theorem report_name_and_original_name :
  forall r : Report,
    (forall custom,
        custom_report_name r = Some custom -> custom <> "" ->
        report_name r = custom)
    /\ (custom_report_name r = None \/ custom_report_name r = Some "" ->
        report_name r = name (Path (report_ref r)))
    /\ original_name r = name (Path (report_ref r))
    /\ (forall folder leaf,
          report_ref r = folder ++ "/" ++ leaf ->
          slash_free leaf = true -> is_component leaf = true ->
          original_name r = leaf)
    /\ (slash_free (report_ref r) = true ->
        is_component (report_ref r) = true ->
        original_name r = report_ref r).
Proof.
  intros r. unfold report_name, original_name, _generate_report_name.
  repeat split.
  - intros custom -> Hne. destruct custom; [contradiction|reflexivity].
  - intros [-> | ->]; reflexivity.
  - intros folder leaf -> Hs Hc. now apply name_Path_leaf.
  - intros Hs Hc. now apply name_Path_plain.
Qed.

(** C8 on a descriptor with a custom name: the custom name wins over the
    reference, and the original name stays the final component. *)
Lemma report_name_and_original_name_witness :
  report_name {| report_ref := "/shared/Sales/Revenue";
                 output_format := "PDF";
                 output_folder := None;
                 custom_report_name := Some "Q3";
                 refresh := false |} = "Q3"
  /\ original_name {| report_ref := "/shared/Sales/Revenue";
                      output_format := "PDF";
                      output_folder := None;
                      custom_report_name := Some "Q3";
                      refresh := false |} = "Revenue".
Proof.
  destruct (report_name_and_original_name
              {| report_ref := "/shared/Sales/Revenue";
                 output_format := "PDF";
                 output_folder := None;
                 custom_report_name := Some "Q3";
                 refresh := false |}) as (Hcustom & _ & _ & Hleaf & _).
  split.
  - apply Hcustom; [reflexivity|discriminate].
  - apply (Hleaf "/shared/Sales" "Revenue"); reflexivity.
Defined.

(** C8 as stated fails: with the custom name set to the empty string,
    [report_name] is the final component of the reference, not the custom
    name. *)
Lemma report_name_ignores_empty_custom_name :
  custom_report_name {| report_ref := "a/b/c";
                        output_format := "PDF";
                        output_folder := None;
                        custom_report_name := Some "";
                        refresh := false |} = Some ""
  /\ report_name {| report_ref := "a/b/c";
                    output_format := "PDF";
                    output_folder := None;
                    custom_report_name := Some "";
                    refresh := false |} = "c".
Proof. split; reflexivity. Qed.

(** ** The session scope *)

Ltac run_session :=
  cbv beta iota zeta delta
    [__enter__ __exit__ with_session bind self_ in_world try_finally
     try_except call_logon call_logoff emit logger_info logger_debug
     logger_error of_reply ret raise set_session_id set_password fst snd
     session_service username _password _session_id after_logon_attempt
     after_logoff_attempt is_Fault class_of exn_class_eqb truthy].

Ltac open_session self :=
  destruct self as [? ? ? ?];
  cbn [session_service username _password _session_id] in *.

Ltac same_world :=
  repeat match goal with w : World |- _ => destruct w end;
  cbv [logged_failure requested logged slept received set_trace set_clock set_status_replies
       set_filesystem trace clock filesystem cwd guess_extension_strict
       status_replies];
  rewrite <- ?app_assoc; cbn [app]; reflexivity.

Lemma logoff_calls_app tr1 tr2 :
  logoff_calls (tr1 ++ tr2) = (logoff_calls tr1 + logoff_calls tr2)%nat.
Proof. unfold logoff_calls. now rewrite filter_app, length_app. Qed.

Lemma __enter___answered self w sid :
  logon (session_service self) (username self) (_password self) = Answers sid ->
  __enter__ (self, w)
  = (Returned sid,
     (after_logon_attempt self (Some sid),
      set_trace
        (trace w
         ++ [Log session_logger INFO
               ("Attempting to log in as " ++ username self ++ "...") [];
             CallLogon (username self) (_password self);
             Log session_logger INFO
               ("Logged in successfully as " ++ username self ++ ".") [];
             Log session_logger DEBUG ("Session ID: " ++ sid) []]) w)).
Proof.
  intros H. open_session self. run_session. rewrite H. run_session. same_world.
Qed.

Lemma __enter___fault self w msg c :
  logon (session_service self) (username self) (_password self)
  = Throws (Exception Fault msg c) ->
  __enter__ (self, w)
  = (Raised (Exception LogonFailedError ("Logon failed. " ++ msg)
               (Some (Exception Fault msg c))),
     (after_logon_attempt self (_session_id self),
      set_trace
        (trace w
         ++ [Log session_logger INFO
               ("Attempting to log in as " ++ username self ++ "...") [];
             CallLogon (username self) (_password self);
             Log session_logger ERROR
               ("Logon failed for user " ++ username self ++ ". Error: " ++ msg)
               []]) w)).
Proof.
  intros H. open_session self. run_session. rewrite H. run_session. same_world.
Qed.

Lemma __enter___other self w e :
  logon (session_service self) (username self) (_password self) = Throws e ->
  is_Fault e = false ->
  __enter__ (self, w)
  = (Raised e,
     (after_logon_attempt self (_session_id self),
      set_trace
        (trace w
         ++ [Log session_logger INFO
               ("Attempting to log in as " ++ username self ++ "...") [];
             CallLogon (username self) (_password self)]) w)).
Proof.
  intros H Hf. open_session self. destruct e as [cls m c].
  destruct cls; try discriminate Hf;
    run_session; rewrite H; run_session; same_world.
Qed.

Lemma __exit___without_token self w :
  truthy_opt (_session_id self) = false ->
  __exit__ (self, w) = (Returned tt, (self, w)).
Proof.
  intros H. open_session self. run_session.
  destruct _session_id0 as [[|c sid]|]; try reflexivity.
  discriminate.
Qed.

Lemma __exit___answered self w sid :
  _session_id self = Some sid -> sid <> "" ->
  logoff (session_service self) sid = Answers tt ->
  __exit__ (self, w)
  = (Returned tt,
     (after_logoff_attempt self,
      set_trace
        (trace w
         ++ [CallLogoff sid;
             Log session_logger INFO
               ("User " ++ username self ++ " logged off successfully.") [];
             Log session_logger DEBUG
               ("Logged off from session " ++ sid ++ ".") []]) w)).
Proof.
  intros Hs Hne H. open_session self. subst. run_session.
  destruct sid as [|c sid]; [contradiction|].
  rewrite H. run_session. same_world.
Qed.

Lemma __exit___fault self w sid msg c :
  _session_id self = Some sid -> sid <> "" ->
  logoff (session_service self) sid = Throws (Exception Fault msg c) ->
  __exit__ (self, w)
  = (Raised (Exception LogoffFailedError ("Logoff failed. " ++ msg)
               (Some (Exception Fault msg c))),
     (after_logoff_attempt self,
      set_trace
        (trace w
         ++ [CallLogoff sid;
             Log session_logger ERROR
               ("Logoff failed for user " ++ username self ++ ". Error: " ++ msg)
               []]) w)).
Proof.
  intros Hs Hne H. open_session self. subst. run_session.
  destruct sid as [|c0 sid]; [contradiction|].
  rewrite H. run_session. same_world.
Qed.

Lemma __exit___other self w sid e :
  _session_id self = Some sid -> sid <> "" ->
  logoff (session_service self) sid = Throws e ->
  is_Fault e = false ->
  __exit__ (self, w)
  = (Raised e,
     (after_logoff_attempt self,
      set_trace (trace w ++ [CallLogoff sid]) w)).
Proof.
  intros Hs Hne H Hf. open_session self. subst.
  destruct sid as [|c0 sid]; [contradiction|].
  destruct e as [cls m c].
  destruct cls; try discriminate Hf;
    run_session; rewrite H; run_session; same_world.
Qed.

(** Whatever the server answers, [__exit__] calls logoff at most once and
    leaves no token that a further [__exit__] would log off. *)
Lemma __exit___once self w :
  (logoff_calls (trace (snd (snd (__exit__ (self, w)))))
   <= logoff_calls (trace w) + 1)%nat
  /\ truthy_opt (_session_id (fst (snd (__exit__ (self, w))))) = false.
Proof.
  destruct (_session_id self) as [sid|] eqn:Hs.
  2: { rewrite __exit___without_token by now rewrite Hs.
       simpl. rewrite Hs. split; [lia|reflexivity]. }
  destruct sid as [|c0 sid].
  { rewrite __exit___without_token by now rewrite Hs.
    simpl. rewrite Hs. split; [lia|reflexivity]. }
  destruct (logoff (session_service self) (String c0 sid)) as [[]|e] eqn:H.
  - rewrite (__exit___answered _ w _ Hs ltac:(discriminate) H).
    cbn [fst snd trace set_trace]. rewrite logoff_calls_app. split; reflexivity.
  - destruct (is_Fault e) eqn:Hf.
    + destruct e as [cls m c]. unfold is_Fault, class_of in Hf.
      destruct cls; try discriminate.
      rewrite (__exit___fault _ w _ _ _ Hs ltac:(discriminate) H).
      cbn [fst snd trace set_trace]. rewrite logoff_calls_app.
      split; reflexivity.
    + rewrite (__exit___other _ w _ _ Hs ltac:(discriminate) H Hf).
      cbn [fst snd trace set_trace]. rewrite logoff_calls_app.
      split; reflexivity.
Qed.

Lemma __enter___no_logoff self w :
  logoff_calls (trace (snd (snd (__enter__ (self, w)))))
  = logoff_calls (trace w).
Proof.
  destruct (logon (session_service self) (username self) (_password self))
    as [sid|e] eqn:H.
  - rewrite (__enter___answered _ _ _ H). cbn [fst snd trace set_trace].
    rewrite logoff_calls_app. unfold logoff_calls at 2. simpl. lia.
  - destruct (is_Fault e) eqn:Hf.
    + destruct e as [cls m c]. unfold is_Fault, class_of in Hf.
      destruct cls; try discriminate.
      rewrite (__enter___fault _ _ _ _ H). cbn [fst snd trace set_trace].
      rewrite logoff_calls_app. unfold logoff_calls at 2. simpl. lia.
    + rewrite (__enter___other _ _ _ H Hf). cbn [fst snd trace set_trace].
      rewrite logoff_calls_app. unfold logoff_calls at 2. simpl. lia.
Qed.

(** How a scope ends once the logon was answered: [__exit__] runs on the
    world the body left. *)
Lemma with_session_entered {A} (body : string -> M World A) self w sid rb w2 :
  logon (session_service self) (username self) (_password self) = Answers sid ->
  body sid (snd (snd (__enter__ (self, w)))) = (rb, w2) ->
  rb <> Unanswered ->
  with_session body (self, w)
  = match __exit__ (after_logon_attempt self (Some sid), w2) with
    | (Returned _, s) => (rb, s)
    | (Raised e, s) => (Raised e, s)
    | (Unanswered, s) => (Unanswered, s)
    end.
Proof.
  intros H Hb Hrb. unfold with_session.
  rewrite (bind_Returned _ _ _ _ _ (__enter___answered _ w _ H)).
  rewrite (__enter___answered _ w _ H) in Hb. cbn [fst snd] in Hb.
  unfold in_world at 1. cbn [fst snd]. rewrite Hb.
  destruct rb; [reflexivity|reflexivity|contradiction].
Qed.

(** X25: the failures of a session scope, as the code handles them.  A
    logon that raises a fault ends the scope with
    [LogonFailedError] carrying the fault text; the body and [__exit__] do
    not run, no logoff is called, and an [__exit__] on the object would do
    nothing when no token was stored before.  A logoff that raises a SOAP
    fault after a successful logon ends the scope with [LogoffFailedError],
    and the stored token is cleared; the token is cleared too when the
    logoff fails with another error, which then ends the scope as it is.
    [__enter__] never calls logoff,
    [__exit__] calls it at most once and leaves nothing for a second
    [__exit__] to do, so a scope calls it at most once after its body. *)
Theorem session_scope_failures :
  (forall (A : Type) (body : string -> M World A) self w msg c,
      logon (session_service self) (username self) (_password self)
      = Throws (Exception Fault msg c) ->
      with_session body (self, w)
      = (Raised (Exception LogonFailedError ("Logon failed. " ++ msg)
                   (Some (Exception Fault msg c))),
         snd (__enter__ (self, w)))
      /\ logoff_calls (trace (snd (snd (with_session body (self, w)))))
         = logoff_calls (trace w)
      /\ (_session_id self = None ->
          __exit__ (snd (with_session body (self, w)))
          = (Returned tt, snd (with_session body (self, w)))))
  /\ (forall (A : Type) (body : string -> M World A) self w sid rb w2 msg c,
        logon (session_service self) (username self) (_password self)
        = Answers sid ->
        sid <> "" ->
        body sid (snd (snd (__enter__ (self, w)))) = (rb, w2) ->
        rb <> Unanswered ->
        logoff (session_service self) sid = Throws (Exception Fault msg c) ->
        fst (with_session body (self, w))
        = Raised (Exception LogoffFailedError ("Logoff failed. " ++ msg)
                    (Some (Exception Fault msg c)))
        /\ _session_id (fst (snd (with_session body (self, w)))) = None
        /\ logoff_calls (trace (snd (snd (with_session body (self, w)))))
           = (logoff_calls (trace w2) + 1)%nat)
  /\ (forall (A : Type) (body : string -> M World A) self w sid rb w2 e,
        logon (session_service self) (username self) (_password self)
        = Answers sid ->
        sid <> "" ->
        body sid (snd (snd (__enter__ (self, w)))) = (rb, w2) ->
        rb <> Unanswered ->
        logoff (session_service self) sid = Throws e ->
        _session_id (fst (snd (with_session body (self, w)))) = None
        /\ (is_Fault e = false -> fst (with_session body (self, w)) = Raised e))
  /\ (forall self w,
        logoff_calls (trace (snd (snd (__enter__ (self, w)))))
        = logoff_calls (trace w))
  /\ (forall self w,
        (logoff_calls (trace (snd (snd (__exit__ (self, w)))))
         <= logoff_calls (trace w) + 1)%nat
        /\ __exit__ (snd (__exit__ (self, w)))
           = (Returned tt, snd (__exit__ (self, w))))
  /\ (forall (A : Type) (body : string -> M World A) self w sid rb w2,
        logon (session_service self) (username self) (_password self)
        = Answers sid ->
        body sid (snd (snd (__enter__ (self, w)))) = (rb, w2) ->
        rb <> Unanswered ->
        (logoff_calls (trace (snd (snd (with_session body (self, w)))))
         <= logoff_calls (trace w2) + 1)%nat).
Proof.
  repeat apply conj.
  - (* logon fault *)
    intros A body self w msg c H.
    assert (Hrun : with_session body (self, w)
                   = (Raised (Exception LogonFailedError ("Logon failed. " ++ msg)
                                (Some (Exception Fault msg c))),
                      snd (__enter__ (self, w)))).
    { unfold with_session.
      rewrite (bind_Raised _ _ _ _ _ (__enter___fault _ w _ _ H)).
      now rewrite (__enter___fault _ w _ _ H). }
    rewrite Hrun. cbn [snd]. repeat apply conj.
    + reflexivity.
    + apply __enter___no_logoff.
    + intros Hnone. rewrite (__enter___fault _ w _ _ H). cbn [snd].
      apply __exit___without_token. cbn. now rewrite Hnone.
  - (* logoff fault *)
    intros A body self w sid rb w2 msg c H Hne Hb Hrb Hoff.
    rewrite (with_session_entered body self w sid rb w2 H Hb Hrb).
    rewrite (__exit___fault (after_logon_attempt self (Some sid)) w2 sid msg c
               eq_refl Hne Hoff).
    cbn [fst snd trace set_trace after_logoff_attempt _session_id].
    rewrite logoff_calls_app. repeat apply conj; reflexivity.
  - (* any failing logoff *)
    intros A body self w sid rb w2 e H Hne Hb Hrb Hoff.
    rewrite (with_session_entered body self w sid rb w2 H Hb Hrb).
    destruct (is_Fault e) eqn:Hf.
    + destruct e as [cls m c]. unfold is_Fault, class_of in Hf.
      destruct cls; try discriminate.
      rewrite (__exit___fault (after_logon_attempt self (Some sid)) w2 sid m c
                 eq_refl Hne Hoff).
      split; [reflexivity|discriminate].
    + rewrite (__exit___other (after_logon_attempt self (Some sid)) w2 sid e
                 eq_refl Hne Hoff Hf).
      split; reflexivity.
  - exact __enter___no_logoff.
  - intros self w. destruct (__exit___once self w) as [Hle Hnone].
    split; [exact Hle|].
    destruct (__exit__ (self, w)) as [r [self' w']]. cbn [fst snd] in *.
    now apply __exit___without_token.
  - intros A body self w sid rb w2 H Hb Hrb.
    rewrite (with_session_entered body self w sid rb w2 H Hb Hrb).
    pose proof (__exit___once (after_logon_attempt self (Some sid)) w2)
      as [Hle _].
    destruct (__exit__ (after_logon_attempt self (Some sid), w2))
      as [[u|e|] s]; exact Hle.
Qed.

(** X25 run on two servers: one that rejects the logon and one whose logoff
    raises a fault. *)
Lemma session_scope_failures_witness :
  (with_session (fun sid => ret sid)
     (OBIEESession_init service_rejecting_logon "weblogic" "secret",
      example_world)
   = (Raised
        (Exception LogonFailedError
           ("Logon failed. " ++ "Authentication error. Invalid credentials.")
           (Some (Exception Fault "Authentication error. Invalid credentials."
                    None))),
      snd (__enter__
             (OBIEESession_init service_rejecting_logon "weblogic" "secret",
              example_world))))
  /\ fst (with_session (fun sid => ret sid)
            (OBIEESession_init service_with_faulting_logoff "weblogic" "secret",
             example_world))
     = Raised (Exception LogoffFailedError ("Logoff failed. " ++ "Session expired.")
                 (Some (Exception Fault "Session expired." None)))
  /\ _session_id
       (fst (snd (with_session (fun sid => ret sid)
                    (OBIEESession_init service_with_faulting_logoff
                       "weblogic" "secret", example_world)))) = None.
Proof.
  destruct session_scope_failures as (Hlogon & Hlogoff & _).
  split.
  - apply (Hlogon string (fun sid => ret sid)
             (OBIEESession_init service_rejecting_logon "weblogic" "secret")
             example_world _ None).
    reflexivity.
  - edestruct (Hlogoff string (fun sid => ret sid)
                (OBIEESession_init service_with_faulting_logoff
                   "weblogic" "secret")
                example_world "sid-1") as (Hr & Hs & _).
    + reflexivity.
    + discriminate.
    + reflexivity.
    + discriminate.
    + reflexivity.
    + split; [exact Hr|exact Hs].
Defined.

(** C6 at a failing input: the logon succeeds, the body returns, and the
    logoff fails with a connection error, which is no SOAP fault.  Logoff
    was attempted once and the stored token is cleared, but the scope ends
    with the connection error as it is, not with [LogoffFailedError]:
    [__exit__] translates a [Fault] only, although the class is documented
    to raise [LogoffFailedError] if logging off fails.  On a server whose
    logoff raises a fault the same scope does end with
    [LogoffFailedError]. *)
Theorem broken_logoff_is_not_LogoffFailedError :
  fst (with_session (fun sid => ret sid)
         (OBIEESession_init service_with_broken_logoff "weblogic" "secret",
          example_world))
  = Raised (Exception TransportError "Connection aborted." None)
  /\ _session_id
       (fst (snd (with_session (fun sid => ret sid)
                    (OBIEESession_init service_with_broken_logoff
                       "weblogic" "secret", example_world)))) = None
  /\ logoff_calls
       (trace (snd (snd (with_session (fun sid => ret sid)
                           (OBIEESession_init service_with_broken_logoff
                              "weblogic" "secret", example_world)))))
     = 1%nat
  /\ fst (with_session (fun sid => ret sid)
            (OBIEESession_init service_with_faulting_logoff
               "weblogic" "secret", example_world))
     = Raised (Exception LogoffFailedError "Logoff failed. Session expired."
                 (Some (Exception Fault "Session expired." None))).
Proof. repeat split; reflexivity. Qed.

(** C9: whatever the server answers to the logon (a token, a fault, any
    other error), the stored password is absent when [__enter__] ends; the
    logon itself was called with the password as it was stored. *)
Theorem password_cleared_after_logon_attempt :
  forall self w,
    _password (fst (snd (__enter__ (self, w)))) = None
    /\ In (CallLogon (username self) (_password self))
         (trace (snd (snd (__enter__ (self, w)))))
    /\ match logon (session_service self) (username self) (_password self) with
       | Answers sid => fst (__enter__ (self, w)) = Returned sid
       | Throws e =>
           fst (__enter__ (self, w))
           = Raised (if is_Fault e
                     then Exception LogonFailedError
                            ("Logon failed. " ++ str_exn e) (Some e)
                     else e)
       end.
Proof.
  intros self w.
  destruct (logon (session_service self) (username self) (_password self))
    as [sid|e] eqn:H.
  - rewrite (__enter___answered _ w _ H). cbn [fst snd trace set_trace
      after_logon_attempt _password].
    repeat split. apply in_or_app; right. right; now left.
  - destruct (is_Fault e) eqn:Hf.
    + destruct e as [cls m c]. unfold is_Fault, class_of in Hf.
      destruct cls; try discriminate.
      rewrite (__enter___fault _ w _ _ H). cbn [fst snd trace set_trace
        after_logon_attempt _password].
      repeat split. apply in_or_app; right. right; now left.
    + rewrite (__enter___other _ w _ H Hf). cbn [fst snd trace set_trace
        after_logon_attempt _password].
      repeat split. apply in_or_app; right. right; now left.
Qed.

(** ** The polling loop *)

Ltac run_export :=
  cbv beta iota zeta delta
    [bind ret raise try_except emit logger_info logger_debug logger_error
     logger_warning datetime_now time_sleep of_reply _get_export_result
     guess_extension _get_extension path_exists path_mkdir open_wb_write].

(** One turn of the loop on an answered poll. *)
Lemma polling_loop_answered fuel self query_id start_time w d r rest :
  status_replies w = (d, Answers r) :: rest ->
  polling_loop (S fuel) self query_id start_time w
  = let w1 := received query_id start_time d r rest w in
    let elapsed_time := clock w + d - start_time in
    let shown := str_timedelta (Z.quot elapsed_time 1000000) in
    if timeout self * 1000000 <? elapsed_time then
      (Raised (timeout_error self elapsed_time), w1)
    else if String.eqb (exportStatus r) "InProgress" then
      if status_check_interval self <? 0 then
        (Raised negative_sleep_error, w1)
      else polling_loop fuel self query_id start_time (slept self w1)
    else if String.eqb (exportStatus r) "Error" then
      (Raised error_status_error,
       logged ERROR
         "Export failed with an error. OBIEE returned exportStatus 'Error'."
         [] w1)
    else if String.eqb (exportStatus r) "Done" then
      (Returned r, logged DEBUG "Report finished exporting in %s." [shown] w1)
    else
      (Raised (unknown_status_error (exportStatus r)),
       logged ERROR "OBIEE returned an unknown exportStatus: %s"
         [exportStatus r] w1).
Proof.
  intros H. cbn [polling_loop]. run_export. rewrite H. run_export.
  cbv zeta.
  replace (clock
             (set_status_replies rest
                (set_clock (clock w + d)
                   (set_trace
                      (trace w ++ [CallCompleteAnalysisExport query_id]) w))))
    with (clock w + d) by reflexivity.
  destruct (timeout self * 1000000 <? clock w + d - start_time);
    [same_world|].
  destruct (String.eqb (exportStatus r) "InProgress").
  { destruct (status_check_interval self <? 0); [same_world|].
    f_equal. same_world. }
  destruct (String.eqb (exportStatus r) "Error"); [same_world|].
  destruct (String.eqb (exportStatus r) "Done"); same_world.
Qed.

(** A poll the client fails on ends the loop with that error. *)
Lemma polling_loop_thrown fuel self query_id start_time w d e rest :
  status_replies w = (d, Throws e) :: rest ->
  polling_loop (S fuel) self query_id start_time w
  = (Raised e,
     set_status_replies rest
       (set_clock (clock w + d)
          (set_trace (trace w ++ [CallCompleteAnalysisExport query_id]) w))).
Proof.
  intros H. cbn [polling_loop]. run_export. now rewrite H.
Qed.

Lemma polling_loop_unanswered fuel self query_id start_time w :
  status_replies w = [] ->
  polling_loop fuel self query_id start_time w = (Unanswered, w).
Proof.
  intros H. destruct fuel; [reflexivity|].
  cbn [polling_loop]. run_export. now rewrite H.
Qed.

(** *** What the loop leaves alone *)

Lemma same_disk_refl w : same_disk w w.
Proof. repeat split. Qed.

Lemma same_disk_trans w1 w2 w3 :
  same_disk w1 w2 -> same_disk w2 w3 -> same_disk w1 w3.
Proof.
  intros (A1 & B1 & C1) (A2 & B2 & C2). repeat split; congruence.
Qed.

Lemma continues_refl w : continues w w.
Proof. exists []. now rewrite app_nil_r. Qed.

Lemma continues_trans w1 w2 w3 :
  continues w1 w2 -> continues w2 w3 -> continues w1 w3.
Proof.
  intros [e1 H1] [e2 H2]. exists (e1 ++ e2)%list.
  now rewrite H2, H1, app_assoc.
Qed.

Lemma continues_In e w w' : continues w w' -> In e (trace w) -> In e (trace w').
Proof. intros [evs ->] H. apply in_or_app. now left. Qed.

Lemma received_after query_id start_time d r rest w :
  same_disk w (received query_id start_time d r rest w)
  /\ continues w (received query_id start_time d r rest w).
Proof. split; [repeat split|eexists; reflexivity]. Qed.

Lemma slept_after self w :
  same_disk w (slept self w) /\ continues w (slept self w).
Proof. split; [repeat split|eexists; reflexivity]. Qed.

Lemma logged_after lvl msg args w :
  same_disk w (logged lvl msg args w) /\ continues w (logged lvl msg args w).
Proof. split; [repeat split|eexists; reflexivity]. Qed.

Lemma requested_after report w :
  same_disk w (requested report w) /\ continues w (requested report w).
Proof. split; [repeat split|eexists; reflexivity]. Qed.

Ltac after_steps :=
  repeat match goal with
    | |- same_disk ?w ?w => apply same_disk_refl
    | |- continues ?w ?w => apply continues_refl
    | |- same_disk ?w (logged _ _ _ ?w1) =>
        apply (same_disk_trans w w1); [|apply logged_after]
    | |- continues ?w (logged _ _ _ ?w1) =>
        apply (continues_trans w w1); [|apply logged_after]
    | |- same_disk ?w (slept _ ?w1) =>
        apply (same_disk_trans w w1); [|apply slept_after]
    | |- continues ?w (slept _ ?w1) =>
        apply (continues_trans w w1); [|apply slept_after]
    | |- same_disk ?w (received _ _ _ _ _ ?w1) =>
        apply (same_disk_trans w w1); [|apply received_after]
    | |- continues ?w (received _ _ _ _ _ ?w1) =>
        apply (continues_trans w w1); [|apply received_after]
    | |- same_disk ?w (requested _ ?w1) =>
        apply (same_disk_trans w w1); [|apply requested_after]
    | |- continues ?w (requested _ ?w1) =>
        apply (continues_trans w w1); [|apply requested_after]
    end.

(** The loop only polls, logs and sleeps: the disk and the MIME table stay
    as they are, and the trace is continued. *)
Lemma polling_loop_after fuel self query_id start_time :
  forall w,
    same_disk w (snd (polling_loop fuel self query_id start_time w))
    /\ continues w (snd (polling_loop fuel self query_id start_time w)).
Proof.
  induction fuel as [|fuel IH]; intros w.
  - split; [apply same_disk_refl|apply continues_refl].
  - destruct (status_replies w) as [|[d [r|e]] rest] eqn:H.
    + rewrite (polling_loop_unanswered _ _ _ _ _ H).
      split; [apply same_disk_refl|apply continues_refl].
    + rewrite (polling_loop_answered _ _ _ _ _ _ _ _ H). cbv zeta.
      destruct (_ <? _); [cbn [snd]; split; after_steps|].
      destruct (String.eqb _ "InProgress").
      { destruct (_ <? 0); [cbn [snd]; split; after_steps|].
        destruct (IH (slept self (received query_id start_time d r rest w)))
          as [Hd Hc].
        split.
        - eapply same_disk_trans; [|exact Hd]. after_steps.
        - eapply continues_trans; [|exact Hc]. after_steps. }
      destruct (String.eqb _ "Error"); [cbn [snd]; split; after_steps|].
      destruct (String.eqb _ "Done"); cbn [snd]; split; after_steps.
    + rewrite (polling_loop_thrown _ _ _ _ _ _ _ _ H). cbn [snd].
      split; [repeat split|eexists; reflexivity].
Qed.

(** The loop returns only on status [Done], and only the reply of a poll. *)
Lemma polling_loop_Returned fuel self query_id start_time :
  forall w res w',
    polling_loop fuel self query_id start_time w = (Returned res, w') ->
    exportStatus res = "Done"
    /\ In (CallCompleteAnalysisExport query_id) (trace w').
Proof.
  induction fuel as [|fuel IH]; intros w res w' Hrun; [discriminate|].
  destruct (status_replies w) as [|[d [r|e]] rest] eqn:H.
  - rewrite (polling_loop_unanswered _ _ _ _ _ H) in Hrun. discriminate.
  - rewrite (polling_loop_answered _ _ _ _ _ _ _ _ H) in Hrun. cbv zeta in Hrun.
    destruct (_ <? _); [discriminate|].
    destruct (String.eqb _ "InProgress").
    { destruct (_ <? 0); [discriminate|]. now apply IH in Hrun. }
    destruct (String.eqb _ "Error"); [discriminate|].
    destruct (String.eqb_spec (exportStatus r) "Done") as [Hd|]; [|discriminate].
    injection Hrun as <- <-. split; [exact Hd|].
    cbn. apply in_or_app; left. apply in_or_app; right. now left.
  - rewrite (polling_loop_thrown _ _ _ _ _ _ _ _ H) in Hrun. discriminate.
Qed.

(** ** Exporting *)

Lemma _wait_for_export_completion_run self query_id w :
  _wait_for_export_completion self query_id w
  = polling_loop (S (List.length (status_replies w))) self query_id (clock w) w.
Proof. reflexivity. Qed.

Lemma export_failed_class e : class_of (export_failed e) = ExportFailedError.
Proof. unfold export_failed. now destruct (is_Fault e). Qed.

(** The export request fails: the error is wrapped. *)
Lemma _export_report_not_initiated self report w e :
  initiate_reply self report = Throws e ->
  _export_report self report w
  = (Raised (export_failed e), logged_failure report e (requested report w)).
Proof.
  unfold initiate_reply. intros H.
  unfold _export_report, _initiate_export. run_export. rewrite H.
  unfold export_failed. destruct (is_Fault e); same_world.
Qed.

(** The export request is answered: the polling loop decides, and whatever
    it raises is wrapped. *)
Lemma _export_report_initiated self report w initiated :
  initiate_reply self report = Answers initiated ->
  _export_report self report w
  = match _wait_for_export_completion self (queryID initiated)
            (requested report w) with
    | (Returned export_result, w1) =>
        (Returned export_result,
         logged INFO "Export Complete '%s'." [report_name report] w1)
    | (Raised e, w1) => (Raised (export_failed e), logged_failure report e w1)
    | (Unanswered, w1) => (Unanswered, w1)
    end.
Proof.
  unfold initiate_reply. intros H.
  unfold _export_report, _initiate_export. run_export. rewrite H.
  replace (set_trace _ (set_trace _ (set_trace _ (set_trace _ (set_trace _ w)))))
    with (requested report w) by same_world.
  destruct (_wait_for_export_completion self (queryID initiated)
              (requested report w)) as [[res|e|] w1].
  - reflexivity.
  - unfold export_failed, logged_failure. now destruct (is_Fault e).
  - reflexivity.
Qed.

(** An export touches neither the disk nor the MIME table; it continues the
    trace, and the export request is always part of it. *)
Lemma _export_report_after self report w :
  same_disk w (snd (_export_report self report w))
  /\ continues w (snd (_export_report self report w))
  /\ In (initiate_call report) (trace (snd (_export_report self report w))).
Proof.
  assert (Hin : In (initiate_call report) (trace (requested report w))).
  { cbn. apply in_or_app; right. do 4 right. now left. }
  destruct (initiate_reply self report) as [initiated|e] eqn:H.
  - rewrite (_export_report_initiated _ _ _ _ H).
    rewrite _wait_for_export_completion_run.
    destruct (polling_loop_after
                (S (List.length (status_replies (requested report w)))) self
                (queryID initiated) (clock (requested report w))
                (requested report w)) as [Hd Hc].
    destruct (polling_loop _ _ _ _ _) as [[res|e|] w1]; cbn [snd] in *.
    + split; [|split]; [| |eapply continues_In; [|exact Hin]].
      * eapply same_disk_trans; [|apply logged_after].
        eapply same_disk_trans; [apply requested_after|exact Hd].
      * eapply continues_trans; [|apply logged_after].
        eapply continues_trans; [apply requested_after|exact Hc].
      * eapply continues_trans; [exact Hc|apply logged_after].
    + unfold logged_failure.
      split; [|split]; [| |eapply continues_In; [|exact Hin]].
      * eapply same_disk_trans; [|apply logged_after].
        eapply same_disk_trans; [apply requested_after|exact Hd].
      * eapply continues_trans; [|apply logged_after].
        eapply continues_trans; [apply requested_after|exact Hc].
      * eapply continues_trans; [exact Hc|apply logged_after].
    + split; [|split]; [| |eapply continues_In; [exact Hc|exact Hin]].
      * eapply same_disk_trans; [apply requested_after|exact Hd].
      * eapply continues_trans; [apply requested_after|exact Hc].
  - rewrite (_export_report_not_initiated _ _ _ _ H). cbn [snd].
    unfold logged_failure.
    split; [|split]; [| |eapply continues_In; [|exact Hin]].
    + after_steps.
    + after_steps.
    + apply logged_after.
Qed.

(** An export that returns was requested, was polled, and ended on status
    [Done]. *)
Lemma _export_report_Returned self report w res w1 :
  _export_report self report w = (Returned res, w1) ->
  exportStatus res = "Done"
  /\ In (initiate_call report) (trace w1)
  /\ exists initiated,
       initiate_reply self report = Answers initiated
       /\ In (CallCompleteAnalysisExport (queryID initiated)) (trace w1).
Proof.
  intros Hrun.
  pose proof (_export_report_after self report w) as (_ & _ & Hin).
  rewrite Hrun in Hin. cbn [snd] in Hin.
  destruct (initiate_reply self report) as [initiated|e] eqn:H.
  - rewrite (_export_report_initiated _ _ _ _ H) in Hrun.
    rewrite _wait_for_export_completion_run in Hrun.
    destruct (polling_loop _ _ _ _ _) as [[res'|e|] w'] eqn:Hloop;
      try discriminate.
    injection Hrun as <- <-.
    apply polling_loop_Returned in Hloop as [Hdone Hpoll].
    split; [exact Hdone|]. split; [exact Hin|].
    exists initiated. split; [reflexivity|].
    eapply continues_In; [apply logged_after|exact Hpoll].
  - rewrite (_export_report_not_initiated _ _ _ _ H) in Hrun. discriminate.
Qed.


(** *** Polls in progress *)

Lemma poll_calls_app tr1 tr2 :
  poll_calls (tr1 ++ tr2) = (poll_calls tr1 + poll_calls tr2)%nat.
Proof. unfold poll_calls. now rewrite filter_app, length_app. Qed.

Lemma observed_statuses_app tr1 tr2 :
  observed_statuses (tr1 ++ tr2)
  = (observed_statuses tr1 ++ observed_statuses tr2)%list.
Proof.
  induction tr1 as [|e tr1 IH]; [reflexivity|].
  destruct e as [lg lvl msg args| | | | |]; cbn [app observed_statuses]; auto.
  destruct lvl; auto.
  destruct args as [|a1 [|a2 [|a3 [|a4 args]]]]; auto.
  destruct (String.eqb msg _); [cbn [app]; now rewrite IH|exact IH].
Qed.

(** The loop goes through polls that report [InProgress] in time one by
    one; each costs one unit of fuel, one poll and one sleep. *)
Lemma polling_loop_in_progress self query_id start_time :
  0 <= status_check_interval self ->
  forall pre fuel w rest,
    status_replies w = (map answered pre ++ rest)%list ->
    in_progress_in_time self start_time (clock w) pre ->
    polling_loop (List.length pre + fuel) self query_id start_time w
    = polling_loop fuel self query_id start_time
        (after_in_progress self query_id start_time pre w)
    /\ status_replies (after_in_progress self query_id start_time pre w) = rest
    /\ clock (after_in_progress self query_id start_time pre w)
       = clock_after self (clock w) pre
    /\ same_disk w (after_in_progress self query_id start_time pre w)
    /\ poll_calls (trace (after_in_progress self query_id start_time pre w))
       = (poll_calls (trace w) + List.length pre)%nat
    /\ observed_statuses
         (trace (after_in_progress self query_id start_time pre w))
       = (observed_statuses (trace w)
          ++ map (fun _ => "InProgress") pre)%list.
Proof.
  intros Hi pre. induction pre as [|[d r] pre IH]; intros fuel w rest Hw Hin.
  - cbn in *. rewrite Nat.add_0_r, app_nil_r.
    repeat split; auto.
  - change (status_replies w
            = (d, Answers r) :: (map answered pre ++ rest)%list) in Hw.
    destruct Hin as (Hs & Ht & Hin).
    cbn [List.length Nat.add after_in_progress clock_after].
    rewrite (polling_loop_answered _ _ _ _ _ _ _ _ Hw). cbv zeta.
    destruct (Z.ltb_spec (timeout self * 1000000) (clock w + d - start_time));
      [lia|].
    rewrite Hs. cbn [String.eqb Ascii.eqb Bool.eqb].
    destruct (Z.ltb_spec (status_check_interval self) 0); [lia|].
    rewrite Hw. cbn [tl].
    destruct (IH fuel (slept self (received query_id start_time d r
                                     (map answered pre ++ rest) w)) rest)
      as (Hrun & Hrest & Hclock & Hdisk & Hpolls & Hseen).
    + reflexivity.
    + exact Hin.
    + split; [exact Hrun|]. split; [exact Hrest|]. split; [exact Hclock|].
      split; [|split].
      * eapply same_disk_trans; [|exact Hdisk]. after_steps.
      * rewrite Hpolls. cbn [slept received trace set_trace set_clock
                             set_status_replies].
        rewrite !poll_calls_app. cbn. lia.
      * rewrite Hseen. cbn [slept received trace set_trace set_clock
                            set_status_replies].
        rewrite !observed_statuses_app. cbn [observed_statuses map].
        rewrite String.eqb_refl, Hs, <- !app_assoc. reflexivity.
Qed.

(** After polls in progress, the loop is at the next scripted reply. *)
Lemma _wait_for_export_completion_in_progress self query_id w pre d r rest :
  0 <= status_check_interval self ->
  status_replies w = (map answered pre ++ (d, Answers r) :: rest)%list ->
  in_progress_in_time self (clock w) (clock w) pre ->
  _wait_for_export_completion self query_id w
  = polling_loop (S (S (List.length rest))) self query_id (clock w)
      (after_in_progress self query_id (clock w) pre w).
Proof.
  intros Hi Hw Hin. rewrite _wait_for_export_completion_run.
  replace (S (List.length (status_replies w)))
    with (List.length pre + S (S (List.length rest)))%nat.
  - now apply (polling_loop_in_progress self query_id (clock w) Hi pre _ w
                 ((d, Answers r) :: rest) Hw Hin).
  - rewrite Hw, length_app, length_map. cbn [List.length]. lia.
Qed.

(** The state machine of the polling phase, at the first poll that does not
    report [InProgress] in time: a late reply is a timeout whatever its
    status, [Done] returns the reply, an unknown status is a [ValueError]
    naming it.  In each case the replies still scripted stay unqueried. *)
Lemma _wait_for_export_completion_ends self query_id w pre d r rest :
  0 <= status_check_interval self ->
  status_replies w = (map answered pre ++ (d, Answers r) :: rest)%list ->
  in_progress_in_time self (clock w) (clock w) pre ->
  let elapsed_time := clock_after self (clock w) pre + d - clock w in
  let w1 := received query_id (clock w) d r rest
              (after_in_progress self query_id (clock w) pre w) in
  (timeout self * 1000000 < elapsed_time ->
   _wait_for_export_completion self query_id w
   = (Raised (timeout_error self elapsed_time), w1))
  /\ (elapsed_time <= timeout self * 1000000 ->
      exportStatus r = "Done" ->
      _wait_for_export_completion self query_id w
      = (Returned r,
         logged DEBUG "Report finished exporting in %s."
           [str_timedelta (Z.quot elapsed_time 1000000)] w1))
  /\ (elapsed_time <= timeout self * 1000000 ->
      exportStatus r <> "InProgress" -> exportStatus r <> "Error" ->
      exportStatus r <> "Done" ->
      _wait_for_export_completion self query_id w
      = (Raised (unknown_status_error (exportStatus r)),
         logged ERROR "OBIEE returned an unknown exportStatus: %s"
           [exportStatus r] w1))
  /\ status_replies w1 = rest
  /\ same_disk w w1
  /\ poll_calls (trace w1) = (poll_calls (trace w) + List.length pre + 1)%nat
  /\ observed_statuses (trace w1)
     = (observed_statuses (trace w)
        ++ map (fun _ => "InProgress") pre ++ [exportStatus r])%list.
Proof.
  intros Hi Hw Hin elapsed_time w1.
  rewrite (_wait_for_export_completion_in_progress _ _ _ _ _ _ _ Hi Hw Hin).
  destruct (polling_loop_in_progress self query_id (clock w) Hi pre 0%nat w
              ((d, Answers r) :: rest) Hw Hin)
    as (_ & Hrest & Hclock & Hdisk & Hpolls & Hseen).
  rewrite (polling_loop_answered _ _ _ _ _ _ _ _ Hrest). cbv zeta.
  rewrite Hclock. fold elapsed_time. fold w1.
  split; [|split; [|split; [|split; [|split; [|split]]]]].
  - intros Hlate.
    destruct (Z.ltb_spec (timeout self * 1000000) elapsed_time); [|lia].
    reflexivity.
  - intros Hok Hdone.
    destruct (Z.ltb_spec (timeout self * 1000000) elapsed_time); [lia|].
    now rewrite Hdone.
  - intros Hok H1 H2 H3.
    destruct (Z.ltb_spec (timeout self * 1000000) elapsed_time); [lia|].
    destruct (String.eqb_spec (exportStatus r) "InProgress"); [contradiction|].
    destruct (String.eqb_spec (exportStatus r) "Error"); [contradiction|].
    destruct (String.eqb_spec (exportStatus r) "Done"); [contradiction|].
    reflexivity.
  - reflexivity.
  - eapply same_disk_trans; [exact Hdisk|]. apply received_after.
  - unfold w1. cbn [received trace set_trace set_clock set_status_replies].
    rewrite poll_calls_app, Hpolls. cbn. lia.
  - unfold w1. cbn [received trace set_trace set_clock set_status_replies].
    rewrite observed_statuses_app, Hseen. cbn [observed_statuses].
    rewrite String.eqb_refl, <- app_assoc. reflexivity.
Qed.

Lemma export_to_file_like_object_run self report w :
  export_to_file_like_object self report w
  = match _export_report self report w with
    | (Returned export_result, w1) =>
        match mimeType export_result with
        | Some mime_type =>
            (Returned (BytesIO_init (viewData export_result),
                       guess_extension_strict w1 mime_type), w1)
        | None => (Raised missing_mime_type, w1)
        end
    | (Raised e, w1) => (Raised e, w1)
    | (Unanswered, w1) => (Unanswered, w1)
    end.
Proof.
  unfold export_to_file_like_object. run_export.
  destruct (_export_report self report w) as [[res|e|] w1]; try reflexivity.
  unfold _get_extension, guess_extension. now destruct (mimeType res).
Qed.

Lemma export_and_save_run self report w folder :
  output_folder report = Some folder ->
  export_and_save self report w
  = match _export_report self report w with
    | (Returned export_result, w1) => _save_export self export_result report w1
    | (Raised e, w1) => (Raised e, w1)
    | (Unanswered, w1) => (Unanswered, w1)
    end.
Proof.
  intros H. unfold export_and_save. rewrite H. unfold bind.
  now destruct (_export_report self report w) as [[res|e|] w1].
Qed.

Lemma status_replies_logged lvl msg args w :
  status_replies (logged lvl msg args w) = status_replies w.
Proof. reflexivity. Qed.

Lemma trace_logged lvl msg args w :
  trace (logged lvl msg args w)
  = (trace w ++ [Log export_logger lvl msg args])%list.
Proof. reflexivity. Qed.

Lemma guess_extension_strict_logged lvl msg args w :
  guess_extension_strict (logged lvl msg args w) = guess_extension_strict w.
Proof. reflexivity. Qed.

(** C1, as the code has it: when the export request is answered, the first
    two polls report [InProgress], the third reports [Done] and carries the
    payload [P] and the MIME type [M], the interval between polls is not negative and none of
    the three replies is seen later than the timeout after the loop started,
    then [export_to_file_like_object] returns a stream that holds [P], read
    from its start, together with what the strict MIME table gives for [M].
    Exactly these three statuses were observed, and no further poll was
    made. *)
Theorem export_to_file_like_object_after_two_polls_in_progress :
  forall self report w initiated d1 d2 d3 r1 r2 r3 rest P M,
    initiate_reply self report = Answers initiated ->
    status_replies w
    = (d1, Answers r1) :: (d2, Answers r2) :: (d3, Answers r3) :: rest ->
    exportStatus r1 = "InProgress" ->
    exportStatus r2 = "InProgress" ->
    exportStatus r3 = "Done" ->
    viewData r3 = Some P ->
    mimeType r3 = Some M ->
    0 <= status_check_interval self ->
    d1 <= timeout self * 1000000 ->
    d1 + status_check_interval self * 1000000 + d2 <= timeout self * 1000000 ->
    d1 + status_check_interval self * 1000000 + d2
    + status_check_interval self * 1000000 + d3 <= timeout self * 1000000 ->
    exists stream w',
      export_to_file_like_object self report w
      = (Returned (stream, guess_extension_strict w M), w')
      /\ getvalue stream = P
      /\ tell stream = 0%nat
      /\ status_replies w' = rest
      /\ observed_statuses (trace w')
         = (observed_statuses (trace w)
            ++ ["InProgress"; "InProgress"; "Done"])%list.
Proof.
  intros self report w initiated d1 d2 d3 r1 r2 r3 rest P M
    Hinit Hw H1 H2 H3 HP HM Hi Ht1 Ht2 Ht3.
  pose (w0 := requested report w).
  assert (Hw0 : status_replies w0
                = (map answered [(d1, r1); (d2, r2)]
                   ++ (d3, Answers r3) :: rest)%list) by exact Hw.
  assert (Hin : in_progress_in_time self (clock w0) (clock w0)
                  [(d1, r1); (d2, r2)]).
  { cbn [in_progress_in_time]. repeat split; try assumption; lia. }
  destruct (_wait_for_export_completion_ends self (queryID initiated) w0
              [(d1, r1); (d2, r2)] d3 r3 rest Hi Hw0 Hin)
    as (_ & Hdone & _ & Hrest & Hdisk & _ & Hseen).
  rewrite export_to_file_like_object_run.
  rewrite (_export_report_initiated _ _ _ _ Hinit). fold w0.
  rewrite Hdone; [|cbn [clock_after]; lia|exact H3].
  rewrite HM.
  destruct Hdisk as (_ & _ & Htable).
  exists (BytesIO_init (viewData r3)).
  eexists. split; [|split; [|split; [|split]]].
  - rewrite !guess_extension_strict_logged, Htable. reflexivity.
  - cbn [BytesIO_init getvalue]. now rewrite HP.
  - reflexivity.
  - rewrite !status_replies_logged. exact Hrest.
  - rewrite !trace_logged, !observed_statuses_app, Hseen.
    unfold w0. cbn [requested trace set_trace].
    rewrite observed_statuses_app, H3.
    cbn. rewrite ?app_nil_r, <- ?app_assoc. reflexivity.
Qed.

(** C1 run with the default exporter: two polls in progress and a finished
    PDF, each reply one second after its poll. *)
Lemma export_to_file_like_object_after_two_polls_in_progress_witness :
  exists stream w',
    export_to_file_like_object example_exporter example_report
      (world_with_replies
         [(second, Answers in_progress); (second, Answers in_progress);
          (second, Answers done_pdf)])
    = (Returned (stream, Some ".pdf"), w')
    /\ getvalue stream = [Byte.x25; Byte.x50; Byte.x44; Byte.x46]
    /\ tell stream = 0%nat
    /\ status_replies w' = []
    /\ observed_statuses (trace w') = ["InProgress"; "InProgress"; "Done"].
Proof.
  apply (export_to_file_like_object_after_two_polls_in_progress
           example_exporter example_report
           (world_with_replies
              [(second, Answers in_progress); (second, Answers in_progress);
               (second, Answers done_pdf)])
           {| queryID := "q-1" |} second second second
           in_progress in_progress done_pdf []
           [Byte.x25; Byte.x50; Byte.x44; Byte.x46] "application/pdf");
    try reflexivity; vm_compute; discriminate.
Defined.

(** C1 as stated fails: the loop observes [InProgress], [InProgress] and
    [Done], but the third reply is seen 402 seconds after the loop started,
    later than the timeout of 300 seconds, and the operation raises instead
    of returning the payload. *)
Lemma export_to_file_like_object_done_too_late :
  fst (export_to_file_like_object example_exporter example_report
         (world_with_replies
            [(second, Answers in_progress); (second, Answers in_progress);
             (396 * second, Answers done_pdf)]))
  = Raised
      (Exception ExportFailedError "Export failed."
         (Some (Exception TimeoutError
                  "Export timed out after 0:06:42. Timeout is 300 seconds."
                  None)))
  /\ observed_statuses
       (trace (snd (export_to_file_like_object example_exporter example_report
                      (world_with_replies
                         [(second, Answers in_progress);
                          (second, Answers in_progress);
                          (396 * second, Answers done_pdf)]))))
     = ["InProgress"; "InProgress"; "Done"].
Proof. split; vm_compute; reflexivity. Qed.

(** ** Saving *)

(** *** The tree *)

Lemma put_same {A} k (v : A) l : assoc k l = Some v -> put k v l = l.
Proof.
  induction l as [|[k' v'] l IH]; cbn; [discriminate|].
  destruct (String.eqb_spec k k') as [->|].
  - now intros [= ->].
  - intros H. now rewrite (IH H).
Qed.

Lemma assoc_put_same {A} k (v : A) l : assoc k (put k v l) = Some v.
Proof.
  induction l as [|[k' v'] l IH]; cbn.
  - now rewrite String.eqb_refl.
  - destruct (String.eqb_spec k k') as [->|Hne]; cbn.
    + now rewrite String.eqb_refl.
    + destruct (String.eqb_spec k k'); [contradiction|exact IH].
Qed.

Lemma assoc_put_other {A} k k' (v : A) l :
  k' <> k -> assoc k' (put k v l) = assoc k' l.
Proof.
  intros Hne. induction l as [|[k0 v0] l IH]; cbn.
  - destruct (String.eqb_spec k' k); [contradiction|reflexivity].
  - destruct (String.eqb_spec k k0) as [->|Hk]; cbn.
    + destruct (String.eqb_spec k' k0); [contradiction|reflexivity].
    + destruct (String.eqb_spec k' k0); [reflexivity|exact IH].
Qed.

Lemma put_put {A} k (v v' : A) l : put k v' (put k v l) = put k v' l.
Proof.
  induction l as [|[k0 v0] l IH]; cbn.
  - now rewrite String.eqb_refl.
  - destruct (String.eqb_spec k k0) as [->|Hk]; cbn.
    + now rewrite String.eqb_refl.
    + destruct (String.eqb_spec k k0); [contradiction|now rewrite IH].
Qed.

Lemma node_at_app l :
  forall n q,
    node_at n (l ++ q)
    = match node_at n l with
      | Some c => node_at c q
      | None => None
      end.
Proof.
  induction l as [|x l IH]; intros n q; cbn; [reflexivity|].
  destruct n as [d|es]; [reflexivity|].
  destruct (assoc x es); [apply IH|reflexivity].
Qed.

(** What is there lies in a directory. *)
Lemma node_at_parent l x n c :
  node_at n (l ++ [x]) = Some c -> exists es, node_at n l = Some (Dir es).
Proof.
  rewrite node_at_app. destruct (node_at n l) as [[d|es]|]; cbn.
  - discriminate.
  - eauto.
  - discriminate.
Qed.

Lemma parent_is_directory n cur es :
  node_at n cur = Some (Dir es) ->
  exists es', node_at n (removelast cur) = Some (Dir es').
Proof.
  destruct cur as [|x cur] using rev_ind; [cbn; eauto|].
  rewrite removelast_last. apply node_at_parent.
Qed.

Lemma store_below es x loc v :
  loc <> [] ->
  store (Dir es) (x :: loc) v
  = match assoc x es with
    | Some c => Dir (put x (store c loc v) es)
    | None => Dir es
    end.
Proof. now destruct loc. Qed.

Lemma store_same l x v :
  forall n es,
    node_at n l = Some (Dir es) ->
    node_at (store n (l ++ [x]) v) (l ++ [x]) = Some v.
Proof.
  induction l as [|y l IH]; intros n es H; cbn in H.
  - injection H as ->. cbn. now rewrite assoc_put_same.
  - destruct n as [d|es0]; [discriminate|].
    destruct (assoc y es0) as [c|] eqn:Hy; [|discriminate].
    change ((y :: l) ++ [x])%list with (y :: (l ++ [x]))%list.
    rewrite store_below by now destruct l.
    rewrite Hy. cbn [node_at]. rewrite assoc_put_same.
    now apply (IH c es).
Qed.

Lemma store_keeps_directories loc v :
  forall n,
    (forall es, node_at n loc <> Some (Dir es)) ->
    keeps_directories n (store n loc v).
Proof.
  induction loc as [|x loc IH]; intros n Hn q es Hq.
  - cbn in Hn. destruct n as [d|es0]; [|now exfalso; apply (Hn es0)].
    destruct q; cbn in Hq; discriminate.
  - destruct n as [d|es0]; [cbn; eauto|].
    cbn [store]. destruct loc as [|y loc'].
    + destruct q as [|z q]; [cbn; eauto|]. cbn in Hq |- *.
      destruct (String.eqb_spec z x) as [->|Hne].
      * exfalso. cbn in Hn. destruct (assoc x es0) as [c|]; [|discriminate].
        destruct c as [d|es1]; [destruct q; cbn in Hq; discriminate|].
        now apply (Hn es1).
      * rewrite assoc_put_other by exact Hne. eauto.
    + destruct (assoc x es0) as [c|] eqn:Hx; [|eauto].
      destruct q as [|z q]; [cbn; eauto|]. cbn [node_at] in Hq |- *.
      destruct (String.eqb_spec z x) as [->|Hne].
      * rewrite assoc_put_same. rewrite Hx in Hq.
        refine (IH c _ q es Hq).
        intros es1 H1. apply (Hn es1). cbn [node_at]. now rewrite Hx.
      * rewrite assoc_put_other by exact Hne. eauto.
Qed.

Lemma store_keeps_file loc v :
  forall n q d,
    (forall es, node_at n loc <> Some (Dir es)) ->
    q <> loc ->
    node_at n q = Some (File d) ->
    node_at (store n loc v) q = Some (File d).
Proof.
  induction loc as [|x loc IH]; intros n q d Hn Hne Hq.
  - cbn in Hn. destruct n as [d0|es0]; [|now exfalso; apply (Hn es0)].
    destruct q; [contradiction|cbn in Hq; discriminate].
  - destruct n as [d0|es0]; [exact Hq|].
    cbn [store]. destruct loc as [|y loc'].
    + destruct q as [|z q]; [cbn in Hq; discriminate|]. cbn in Hq |- *.
      destruct (String.eqb_spec z x) as [->|Hzx].
      * exfalso. cbn in Hn. destruct (assoc x es0) as [c|]; [|discriminate].
        destruct c as [d1|es1]; [|now apply (Hn es1)].
        destruct q; [contradiction|cbn in Hq; discriminate].
      * rewrite assoc_put_other by exact Hzx. exact Hq.
    + destruct (assoc x es0) as [c|] eqn:Hx; [|exact Hq].
      destruct q as [|z q]; [cbn in Hq; discriminate|].
      cbn [node_at] in Hq |- *.
      destruct (String.eqb_spec z x) as [->|Hzx].
      * rewrite assoc_put_same. rewrite Hx in Hq.
        apply (IH c); [| |exact Hq].
        -- intros es1 H1. apply (Hn es1). cbn [node_at]. now rewrite Hx.
        -- congruence.
      * rewrite assoc_put_other by exact Hzx. exact Hq.
Qed.

Lemma store_twice loc v v' :
  forall n, store (store n loc v) loc v' = store n loc v'.
Proof.
  induction loc as [|x loc IH]; intros n; [reflexivity|].
  destruct n as [d|es]; [reflexivity|].
  destruct loc as [|y loc'].
  - cbn [store]. now rewrite put_put.
  - rewrite (store_below es) by discriminate.
    destruct (assoc x es) as [c|] eqn:Hx.
    + rewrite store_below by discriminate.
      rewrite assoc_put_same, put_put, IH.
      rewrite store_below by discriminate. now rewrite Hx.
    + reflexivity.
Qed.

Lemma keeps_directories_refl n : keeps_directories n n.
Proof. intros q es H. eauto. Qed.

Lemma keeps_directories_trans n1 n2 n3 :
  keeps_directories n1 n2 -> keeps_directories n2 n3 ->
  keeps_directories n1 n3.
Proof. intros H1 H2 q es H. destruct (H1 _ _ H) as [es' H']. eauto. Qed.

Lemma keeps_files_refl n : keeps_files n n.
Proof. intros q d H. exact H. Qed.

Lemma keeps_files_trans n1 n2 n3 :
  keeps_files n1 n2 -> keeps_files n2 n3 -> keeps_files n1 n3.
Proof. intros H1 H2 q d H. auto. Qed.

(** *** Path resolution *)

(** Resolution goes through directories only: in a tree that keeps them
    a path leads where it led. *)
Lemma walk_keeps n n' :
  keeps_directories n n' ->
  forall components cur loc,
    walk n cur components = inr loc -> walk n' cur components = inr loc.
Proof.
  intros K. induction components as [|x ps IH]; intros cur loc H;
    cbn [walk] in *; [exact H|].
  destruct (node_at n cur) as [[d|es]|] eqn:Hc; try discriminate.
  destruct (K _ _ Hc) as [es' ->].
  destruct (String.eqb x ".."); [now apply IH|].
  destruct (NAME_MAX <? _)%nat; [discriminate|now apply IH].
Qed.

(** Where a path leads there is a directory, or the place for an entry of
    a directory. *)
Lemma walk_lands n :
  forall components cur loc,
    (exists es, node_at n cur = Some (Dir es)) ->
    walk n cur components = inr loc ->
    (exists es, node_at n loc = Some (Dir es))
    \/ (exists l x es, loc = (l ++ [x])%list /\ node_at n l = Some (Dir es)).
Proof.
  induction components as [|x ps IH]; intros cur loc Hcur H; cbn [walk] in H.
  - injection H as <-. now left.
  - destruct Hcur as [es Hc]. rewrite Hc in H.
    destruct (String.eqb x "..").
    + apply (IH (removelast cur)); [|exact H].
      now apply (parent_is_directory n cur es).
    + destruct (NAME_MAX <? _)%nat; [discriminate|].
      destruct ps as [|y ps'].
      * cbn in H. injection H as <-. right. now exists cur, x, es.
      * apply (IH (cur ++ [x])%list); [|exact H].
        cbn [walk] in H.
        destruct (node_at n (cur ++ [x])) as [[d|es1]|]; try discriminate.
        eauto.
Qed.

Lemma resolve_keeps n n' cwd p loc :
  keeps_directories n n' ->
  resolve n cwd p = inr loc -> resolve n' cwd p = inr loc.
Proof.
  intros K. unfold resolve.
  destruct (has_nul _); [discriminate|].
  destruct (PATH_MAX <=? _)%nat; [discriminate|].
  destruct (node_at n _) as [[d|es]|] eqn:Hs; try discriminate.
  destruct (K _ _ Hs) as [es' ->].
  destruct (walk n _ _) as [e|loc'] eqn:Hw; [discriminate|].
  intros [= <-]. now rewrite (walk_keeps n n' K _ _ _ Hw).
Qed.

Lemma resolve_lands n cwd p loc :
  resolve n cwd p = inr loc ->
  (exists es, node_at n loc = Some (Dir es))
  \/ (exists l x es, loc = (l ++ [x])%list /\ node_at n l = Some (Dir es)).
Proof.
  unfold resolve.
  destruct (has_nul _); [discriminate|].
  destruct (PATH_MAX <=? _)%nat; [discriminate|].
  destruct (node_at n _) as [[d|es]|] eqn:Hs; try discriminate.
  destruct (walk n _ _) as [e|loc'] eqn:Hw; [discriminate|].
  intros [= <-]. apply (walk_lands n _ _ _ (ex_intro _ es Hs) Hw).
Qed.

(** Storing where no directory is. *)
Lemma store_resolved n cwd p loc v :
  resolve n cwd p = inr loc ->
  (forall es, node_at n loc <> Some (Dir es)) ->
  keeps_directories n (store n loc v)
  /\ (forall q d, q <> loc -> node_at n q = Some (File d) ->
      node_at (store n loc v) q = Some (File d))
  /\ node_at (store n loc v) loc = Some v
  /\ resolve (store n loc v) cwd p = inr loc.
Proof.
  intros Hr Hn.
  assert (K : keeps_directories n (store n loc v))
    by now apply store_keeps_directories.
  split; [exact K|]. split; [|split].
  - intros q d Hq H. now apply store_keeps_file.
  - destruct (resolve_lands _ _ _ _ Hr) as [[es H]|(l & x & es & -> & H)].
    + now exfalso; apply (Hn es).
    + now apply (store_same l x v n es).
  - now apply (resolve_keeps n).
Qed.

(** *** Making directories *)

Lemma os_mkdir_made n cwd p n' :
  os_mkdir n cwd p = inr n' ->
  keeps_directories n n' /\ keeps_files n n'
  /\ os_stat n' cwd p = inr (Dir []).
Proof.
  unfold os_mkdir, os_stat.
  destruct (resolve n cwd p) as [f|loc] eqn:Hr; [discriminate|].
  destruct (node_at n loc) as [c|] eqn:Hl; [discriminate|].
  intros [= <-].
  destruct (store_resolved n cwd p loc (Dir []) Hr) as (K & F & S & R).
  { intros es. congruence. }
  split; [exact K|]. split.
  - intros q d Hq. apply F; [congruence|exact Hq].
  - now rewrite R, S.
Qed.

Lemma mkdir_exists_tree n cwd p e : snd (mkdir_exists n cwd p e) = n.
Proof.
  unfold mkdir_exists. now destruct (Path_is_dir n cwd p) as [f|[|]].
Qed.

Lemma mkdir_exists_made n cwd p e n' :
  mkdir_exists n cwd p e = (None, n') ->
  exists es, os_stat n' cwd p = inr (Dir es).
Proof.
  unfold mkdir_exists, Path_is_dir.
  destruct (os_stat n cwd p) as [[|e0]|[d|es]] eqn:Hs; try discriminate.
  - destruct (ignore_error e0); discriminate.
  - intros [= <-]. eauto.
Qed.

Lemma Path_mkdir_exist_ok_keeps n cwd p :
  keeps_directories n (snd (Path_mkdir_exist_ok n cwd p))
  /\ keeps_files n (snd (Path_mkdir_exist_ok n cwd p)).
Proof.
  unfold Path_mkdir_exist_ok.
  destruct (os_mkdir n cwd p) as [[|e]|n'] eqn:Hm.
  - split; [apply keeps_directories_refl|apply keeps_files_refl].
  - destruct e; cbn [snd]; rewrite ?mkdir_exists_tree;
      (split; [apply keeps_directories_refl|apply keeps_files_refl]).
  - apply os_mkdir_made in Hm as (K & F & _). now split.
Qed.

Lemma Path_mkdir_exist_ok_made n cwd p n' :
  Path_mkdir_exist_ok n cwd p = (None, n') ->
  exists es, os_stat n' cwd p = inr (Dir es).
Proof.
  unfold Path_mkdir_exist_ok.
  destruct (os_mkdir n cwd p) as [[|e]|n1] eqn:Hm.
  - discriminate.
  - destruct e; try discriminate; apply mkdir_exists_made.
  - intros [= <-]. apply os_mkdir_made in Hm as (_ & _ & S). eauto.
Qed.

(** Making a directory with its parents adds directories and changes
    nothing else, also when it fails. *)
Lemma Path_mkdir_parents_keeps cwd rt :
  forall rparts n,
    keeps_directories n (snd (Path_mkdir_parents n cwd rt rparts))
    /\ keeps_files n (snd (Path_mkdir_parents n cwd rt rparts)).
Proof.
  induction rparts as [|x rparent IH]; intros n; cbn [Path_mkdir_parents].
  - destruct (os_mkdir n cwd _) as [[|e]|n'] eqn:Hm.
    + split; [apply keeps_directories_refl|apply keeps_files_refl].
    + destruct e; cbn [snd]; rewrite ?mkdir_exists_tree;
        (split; [apply keeps_directories_refl|apply keeps_files_refl]).
    + apply os_mkdir_made in Hm as (K & F & _). now split.
  - destruct (os_mkdir n cwd _) as [[|e]|n'] eqn:Hm.
    + split; [apply keeps_directories_refl|apply keeps_files_refl].
    + destruct e; cbn [snd]; rewrite ?mkdir_exists_tree;
        try (split; [apply keeps_directories_refl|apply keeps_files_refl]).
      destruct (IH n) as [K F].
      destruct (Path_mkdir_parents n cwd rt rparent) as [[e|] n1];
        cbn [snd] in *; [now split|].
      destruct (Path_mkdir_exist_ok_keeps n1 cwd
                  {| root := rt; parts := rev (x :: rparent) |}) as [K1 F1].
      split.
      * eapply keeps_directories_trans; eassumption.
      * eapply keeps_files_trans; eassumption.
    + apply os_mkdir_made in Hm as (K & F & _). now split.
Qed.

(** After it returned, the directory is there. *)
Lemma Path_mkdir_parents_made cwd rt :
  forall rparts n n',
    Path_mkdir_parents n cwd rt rparts = (None, n') ->
    exists es, os_stat n' cwd {| root := rt; parts := rev rparts |}
               = inr (Dir es).
Proof.
  assert (Hbase : forall n n' p e,
             match e with
             | ENOENT => (Some (raised_for (Errno ENOENT) p), n)
             | _ => mkdir_exists n cwd p e
             end = (None, n') ->
             exists es, os_stat n' cwd p = inr (Dir es)).
  { intros n n' p e. destruct e; try discriminate; apply mkdir_exists_made. }
  destruct rparts as [|x rparent]; intros n n'; cbn [Path_mkdir_parents].
  - destruct (os_mkdir n cwd _) as [[|e]|n1] eqn:Hm.
    + discriminate.
    + destruct e; try discriminate; apply mkdir_exists_made.
    + intros [= <-]. apply os_mkdir_made in Hm as (_ & _ & S). eauto.
  - destruct (os_mkdir n cwd _) as [[|e]|n1] eqn:Hm.
    + discriminate.
    + destruct e; try apply mkdir_exists_made.
      destruct (Path_mkdir_parents n cwd rt rparent) as [[e|] n1];
        [discriminate|].
      apply Path_mkdir_exist_ok_made.
    + intros [= <-]. apply os_mkdir_made in Hm as (_ & _ & S). eauto.
Qed.

(** Making a directory that is there changes nothing. *)
Lemma Path_mkdir_parents_existing n cwd p es :
  os_stat n cwd p = inr (Dir es) ->
  Path_mkdir_parents n cwd (root p) (rev (parts p)) = (None, n).
Proof.
  intros Hs.
  assert (Hp : {| root := root p; parts := rev (rev (parts p)) |} = p).
  { rewrite rev_involutive. now destruct p. }
  assert (Hm : os_mkdir n cwd p = inl (Errno EEXIST)).
  { unfold os_mkdir. unfold os_stat in Hs.
    destruct (resolve n cwd p) as [f|loc]; [discriminate|].
    now destruct (node_at n loc). }
  assert (He : mkdir_exists n cwd p EEXIST = (None, n)).
  { unfold mkdir_exists, Path_is_dir. now rewrite Hs. }
  destruct (rev (parts p)) as [|x rparent] eqn:E; cbn [Path_mkdir_parents];
    rewrite Hp, Hm; exact He.
Qed.

(** *** Saving, step by step *)

Lemma set_filesystem_same w : set_filesystem (filesystem w) w = w.
Proof. now destruct w. Qed.

(** A plain file name is a relative path of one part. *)
Lemma Path_plain x :
  slash_free x = true -> is_component x = true ->
  Path x = {| root := ""; parts := [x] |}.
Proof.
  intros Hs Hc. unfold Path.
  destruct x as [|c x]; [discriminate|].
  assert (Ec : Ascii.eqb c "/" = false).
  { cbn in Hs. now destruct (Ascii.eqb c "/"). }
  unfold splitroot. rewrite Ec.
  rewrite (split_slash_free _ Hs). cbn [filter]. now rewrite Hc.
Qed.

(** Joined to the empty path, a string is the path it spells. *)
Lemma joinpath_empty s : joinpath (Path "") s = Path s.
Proof.
  unfold joinpath. destruct (truthy (root (Path s))) eqn:E; [reflexivity|].
  change (parts (Path "")) with (@nil string).
  change (root (Path "")) with "". cbn [app].
  destruct (Path s) as [rt ps]. cbn [root] in E.
  destruct rt; [reflexivity|discriminate].
Qed.

(** The current directory, as the empty path names it. *)
Lemma os_stat_empty n cwd entries :
  node_at n cwd = Some (Dir entries) ->
  os_stat n cwd (Path "") = inr (Dir entries).
Proof.
  intros H. unfold os_stat, resolve.
  change (str_path (Path "")) with ".".
  change (has_nul ".") with false.
  change (PATH_MAX <=? fsencoded_length ".")%nat with false.
  change (root (Path "")) with "". change (parts (Path "")) with (@nil string).
  cbn [truthy walk]. rewrite H. cbn [walk]. now rewrite H.
Qed.

(** A file name in the current directory. *)
Lemma resolve_file_name n cwd x entries :
  file_name x = true ->
  node_at n cwd = Some (Dir entries) ->
  Path x = {| root := ""; parts := [x] |}
  /\ resolve n cwd (Path x) = inr (cwd ++ [x])%list
  /\ node_at n (cwd ++ [x]) = assoc x entries.
Proof.
  unfold file_name. intros Hx Hcwd.
  apply andb_prop in Hx as [Hx Hlen]. apply andb_prop in Hx as [Hx Hnul].
  apply andb_prop in Hx as [Hx Hup]. apply andb_prop in Hx as [Hs Hc].
  apply negb_true_iff in Hnul, Hup. apply Nat.leb_le in Hlen.
  assert (HP : Path x = {| root := ""; parts := [x] |}) by now apply Path_plain.
  split; [exact HP|]. split.
  - unfold resolve. rewrite HP. unfold str_path. cbn [parts root String.concat].
    change ("" ++ x) with x. rewrite Hnul.
    replace (PATH_MAX <=? fsencoded_length x)%nat with false
      by (symmetry; apply Nat.leb_gt; unfold PATH_MAX, NAME_MAX in *; lia).
    cbn [truthy walk]. rewrite Hcwd, Hup.
    replace (NAME_MAX <? fsencoded_length x)%nat with false
      by (symmetry; apply Nat.ltb_ge; exact Hlen).
    reflexivity.
  - rewrite node_at_app, Hcwd. cbn. now destruct (assoc x entries).
Qed.

Lemma path_mkdir_existing p w es :
  node_of w p = Some (Dir es) -> path_mkdir p w = (Returned tt, w).
Proof.
  unfold node_of, path_mkdir. intros H.
  destruct (os_stat (filesystem w) (cwd w) p) as [f|n] eqn:Hs; [discriminate|].
  injection H as ->.
  rewrite (Path_mkdir_parents_existing _ _ _ _ Hs).
  now rewrite set_filesystem_same.
Qed.

(** What making the output folder leaves behind: the directories and the
    regular files that were there, and the folder when it returned. *)
Lemma path_mkdir_after p w :
  keeps_directories (filesystem w) (filesystem (snd (path_mkdir p w)))
  /\ keeps_files (filesystem w) (filesystem (snd (path_mkdir p w)))
  /\ cwd (snd (path_mkdir p w)) = cwd w
  /\ trace (snd (path_mkdir p w)) = trace w
  /\ (fst (path_mkdir p w) = Returned tt ->
      exists es, node_of (snd (path_mkdir p w)) p = Some (Dir es)).
Proof.
  unfold path_mkdir.
  destruct (Path_mkdir_parents_keeps (cwd w) (root p) (rev (parts p))
              (filesystem w)) as [K F].
  pose proof (Path_mkdir_parents_made (cwd w) (root p) (rev (parts p))
                (filesystem w)) as Hmade.
  destruct (Path_mkdir_parents _ _ _ _) as [[e|] n]; cbn [fst snd] in *.
  - repeat split; try assumption. discriminate.
  - repeat split; try assumption. intros _.
    destruct (Hmade n eq_refl) as [es Hs].
    rewrite rev_involutive in Hs.
    exists es. unfold node_of. cbn [filesystem cwd set_filesystem].
    replace {| root := root p; parts := parts p |} with p in Hs
      by now destruct p.
    now rewrite Hs.
Qed.

(** [_save_export] on a result with a MIME type: the folder is made, then
    the bytes are written to the target. *)
Lemma _save_export_steps self res report w folder M :
  output_folder report = Some folder ->
  mimeType res = Some M ->
  _save_export self res report w
  = (path_mkdir (Path folder) ;;
     logger_debug export_logger "Saving export data to %s..."
       [str_path (output_file_path_of w report folder M)] ;;
     _write_data_to_file self res (output_file_path_of w report folder M) ;;
     logger_info export_logger "Export saved to %s."
       [str_path (output_file_path_of w report folder M)] ;;
     ret (output_file_path_of w report folder M)) w.
Proof.
  intros Hf HM.
  unfold _save_export, _get_output_file_path, _get_extension, guess_extension.
  rewrite Hf, HM. unfold output_file_path_of. cbv [bind ret].
  now destruct (path_mkdir (Path folder) w) as [[[]|e|] w2].
Qed.

(** Without a MIME type nothing is saved. *)
Lemma _save_export_without_mime_type self res report w :
  mimeType res = None ->
  _save_export self res report w = (Raised missing_mime_type, w).
Proof.
  intros HM.
  unfold _save_export, _get_output_file_path, _get_extension, guess_extension.
  now rewrite HM.
Qed.

(** Writing, case by case. *)
Lemma _write_data_to_file_run self res target w :
  _write_data_to_file self res target w
  = match Path_exists (filesystem w) (cwd w) target with
    | inl f => (Raised (raised_for f target), w)
    | inr present =>
        if present && negb (overwrite_existing self) then
          (Raised (file_exists_error target),
           logged ERROR "File %s already exists and overwriting is disabled."
             [str_path target] w)
        else
          match os_open_wb (filesystem w) (cwd w) target with
          | inl f => (Raised (raised_for f target), w)
          | inr (loc, n) =>
              match viewData res with
              | Some b =>
                  (Returned tt, set_filesystem (store n loc (File b)) w)
              | None => (Raised missing_payload, set_filesystem n w)
              end
          end
    end.
Proof.
  unfold _write_data_to_file. run_export.
  destruct (Path_exists _ _ _) as [f|present]; [reflexivity|].
  destruct (present && negb (overwrite_existing self)); reflexivity.
Qed.

Lemma _write_data_to_file_after self res target w :
  continues w (snd (_write_data_to_file self res target w))
  /\ cwd (snd (_write_data_to_file self res target w)) = cwd w
  /\ guess_extension_strict (snd (_write_data_to_file self res target w))
     = guess_extension_strict w.
Proof.
  rewrite _write_data_to_file_run.
  destruct (Path_exists _ _ _) as [f|present];
    [repeat split; apply continues_refl|].
  destruct (present && negb (overwrite_existing self)).
  { repeat split. apply logged_after. }
  destruct (os_open_wb _ _ _) as [f|[loc n]];
    [repeat split; apply continues_refl|].
  destruct (viewData res); repeat split; exists []; cbn; now rewrite app_nil_r.
Qed.

(** Saving continues the trace. *)
Lemma _save_export_after self res report w folder :
  output_folder report = Some folder ->
  continues w (snd (_save_export self res report w)).
Proof.
  intros Hf. destruct (mimeType res) as [M|] eqn:HM.
  - rewrite (_save_export_steps _ _ _ _ _ _ Hf HM).
    destruct (path_mkdir_after (Path folder) w) as (_ & _ & _ & Htr & _).
    unfold bind at 1.
    destruct (path_mkdir (Path folder) w) as [[[]|e|] w2]; cbn [snd] in *;
      try (exists []; now rewrite app_nil_r).
    run_export.
    set (w3 := set_trace _ w2).
    assert (H3 : continues w w3).
    { eexists. unfold w3. cbn [trace set_trace]. now rewrite Htr. }
    destruct (_write_data_to_file_after self res
                (output_file_path_of w report folder M) w3) as (Hc & _).
    destruct (_write_data_to_file _ _ _ w3) as [[[]|e|] w4]; cbn [snd] in *.
    + eapply continues_trans; [exact H3|].
      eapply continues_trans; [exact Hc|]. eexists. reflexivity.
    + eapply continues_trans; eassumption.
    + eapply continues_trans; eassumption.
  - rewrite (_save_export_without_mime_type _ _ _ _ HM). apply continues_refl.
Qed.

(** The first thing an export does is to request it. *)
Lemma _export_report_requested self report w :
  continues (requested report w) (snd (_export_report self report w)).
Proof.
  destruct (initiate_reply self report) as [initiated|e] eqn:H.
  - rewrite (_export_report_initiated _ _ _ _ H).
    rewrite _wait_for_export_completion_run.
    destruct (polling_loop_after
                (S (List.length (status_replies (requested report w)))) self
                (queryID initiated) (clock (requested report w))
                (requested report w)) as [_ Hc].
    destruct (polling_loop _ _ _ _ _) as [[res|e|] w1]; cbn [snd] in *.
    + eapply continues_trans; [exact Hc|apply logged_after].
    + unfold logged_failure.
      eapply continues_trans; [exact Hc|apply logged_after].
    + exact Hc.
  - rewrite (_export_report_not_initiated _ _ _ _ H). cbn [snd].
    unfold logged_failure. apply logged_after.
Qed.





(** C10: the fail-fast check of [export_and_save] rejects a descriptor
    without output folder, before anything is requested from the server, and
    no other descriptor: with any folder, the empty string included, the
    operation starts by requesting the export.  The empty string passes
    construction untrimmed and unwarned.  With it as output folder and the
    export through, [mkdir] finds the current directory and the output path
    is the report name with its extension, relative to the current
    directory: there the payload is written, and that path is returned. *)
Theorem export_and_save_accepts_empty_output_folder :
  (forall self report w,
      output_folder report = None ->
      export_and_save self report w
      = (Raised output_folder_required,
         logged ERROR "Output folder is required when exporting to file." []
           w))
  /\ (forall self report w folder,
        output_folder report = Some folder ->
        continues (requested report w) (snd (export_and_save self report w)))
  /\ (forall ref fmt custom refr w,
      exists r w',
        Report_init ref fmt (Some "") custom refr w = (Returned r, w')
        /\ output_folder r = Some ""
        /\ trace w'
           = (trace w ++ strip_warnings "report_ref" ref
              ++ strip_warnings "output_format" fmt
              ++ strip_warnings_opt "custom_report_name" custom)%list)
  /\ (forall self report w res w1 M entries,
        output_folder report = Some "" ->
        _export_report self report w = (Returned res, w1) ->
        mimeType res = Some M ->
        node_at (filesystem w) (cwd w) = Some (Dir entries) ->
        let target :=
          Path (report_name report
                ++ format_opt (guess_extension_strict w M)) in
        export_and_save self report w
        = (logger_debug export_logger "Saving export data to %s..."
             [str_path target] ;;
           _write_data_to_file self res target ;;
           logger_info export_logger "Export saved to %s." [str_path target] ;;
           ret target) w1)
  /\ (forall self report w res w1 M P entries,
        output_folder report = Some "" ->
        _export_report self report w = (Returned res, w1) ->
        mimeType res = Some M ->
        viewData res = Some P ->
        node_at (filesystem w) (cwd w) = Some (Dir entries) ->
        let leaf :=
          report_name report ++ format_opt (guess_extension_strict w M) in
        file_name leaf = true ->
        assoc leaf entries = None ->
        export_and_save self report w
        = (Returned {| root := ""; parts := [leaf] |},
           logged INFO "Export saved to %s." [leaf]
             (set_filesystem
                (store (filesystem w) (cwd w ++ [leaf]) (File P))
                (logged DEBUG "Saving export data to %s..." [leaf] w1)))
        /\ node_at (store (filesystem w) (cwd w ++ [leaf]) (File P))
             (cwd w ++ [leaf])
           = Some (File P)).
Proof.
  assert (Hempty : forall self report w res w1 M entries,
    output_folder report = Some "" ->
    _export_report self report w = (Returned res, w1) ->
    mimeType res = Some M ->
    node_at (filesystem w) (cwd w) = Some (Dir entries) ->
    let target :=
      Path (report_name report ++ format_opt (guess_extension_strict w M)) in
    export_and_save self report w
    = (logger_debug export_logger "Saving export data to %s..."
         [str_path target] ;;
       _write_data_to_file self res target ;;
       logger_info export_logger "Export saved to %s." [str_path target] ;;
       ret target) w1).
  { intros self report w res w1 M entries Hf Hexp HM Hcwd target.
    pose proof (_export_report_after self report w)
      as ((Hfs & Hcwd1 & Hmime) & _).
    rewrite Hexp in Hfs, Hcwd1, Hmime. cbn [snd] in Hfs, Hcwd1, Hmime.
    rewrite (export_and_save_run _ _ _ _ Hf), Hexp.
    rewrite (_save_export_steps _ _ _ _ _ _ Hf HM).
    assert (Hmk : path_mkdir (Path "") w1 = (Returned tt, w1)).
    { apply (path_mkdir_existing _ _ entries). unfold node_of.
      rewrite Hfs, Hcwd1. now rewrite (os_stat_empty _ _ _ Hcwd). }
    rewrite (bind_Returned _ _ _ _ _ Hmk).
    unfold output_file_path_of. rewrite joinpath_empty, Hmime. reflexivity. }
  split; [|split; [|split; [|split]]].
  - intros self report w H. unfold export_and_save. now rewrite H.
  - intros self report w folder H.
    rewrite (export_and_save_run _ _ _ _ H).
    pose proof (_export_report_requested self report w) as Hreq.
    destruct (_export_report self report w) as [[res|e|] w1];
      cbn [snd] in *; try exact Hreq.
    eapply continues_trans; [exact Hreq|].
    now apply (_save_export_after self res report w1 folder).
  - intros ref fmt custom refr w. eexists; eexists.
    split; [apply Report_init_run|]. split; reflexivity.
  - exact Hempty.
  - intros self report w res w1 M P entries Hf Hexp HM HP Hcwd leaf Hleaf Hnew.
    pose proof (_export_report_after self report w)
      as ((Hfs & Hcwd1 & _) & _).
    rewrite Hexp in Hfs, Hcwd1. cbn [snd] in Hfs, Hcwd1.
    destruct (resolve_file_name (filesystem w) (cwd w) leaf entries Hleaf Hcwd)
      as (Hpath & Hres & Hnode).
    split.
    + rewrite (Hempty self report w res w1 M entries Hf Hexp HM Hcwd).
      fold leaf. rewrite Hpath.
      change (str_path {| root := ""; parts := [leaf] |}) with ("" ++ leaf).
      change ("" ++ leaf) with leaf.
      unfold logger_debug, emit. unfold bind at 1.
      rewrite (bind_Returned _ _ _ tt
                 (set_filesystem
                    (store (filesystem w) (cwd w ++ [leaf]) (File P))
                    (logged DEBUG "Saving export data to %s..." [leaf] w1))).
      { reflexivity. }
      rewrite _write_data_to_file_run.
      cbn [filesystem cwd set_trace]. rewrite Hfs, Hcwd1, <- Hpath.
      unfold Path_exists, os_stat, os_open_wb.
      rewrite Hres, Hnode, Hnew. cbn [ignore_error]. cbn [andb].
      rewrite HP, store_twice. reflexivity.
    + now apply (store_same (cwd w) leaf (File P) (filesystem w) entries).
Qed.

(** C10 run: the example report with the empty string as output folder is
    exported and saved as [Revenue.pdf] in the current directory. *)
Lemma export_and_save_accepts_empty_output_folder_witness :
  fst (export_and_save example_exporter report_into_empty_folder
         (world_with_replies [(second, Answers done_pdf)]))
  = Returned {| root := ""; parts := ["Revenue.pdf"] |}
  /\ filesystem
       (snd (export_and_save example_exporter report_into_empty_folder
               (world_with_replies [(second, Answers done_pdf)])))
     = Dir [("Revenue.pdf", File [Byte.x25; Byte.x50; Byte.x44; Byte.x46])].
Proof.
  destruct export_and_save_accepts_empty_output_folder
    as (_ & _ & _ & _ & Hsave).
  destruct (Hsave example_exporter report_into_empty_folder
              (world_with_replies [(second, Answers done_pdf)])
              done_pdf
              (snd (_export_report example_exporter report_into_empty_folder
                      (world_with_replies [(second, Answers done_pdf)])))
              "application/pdf" [Byte.x25; Byte.x50; Byte.x44; Byte.x46] [])
    as [Hrun _].
  - reflexivity.
  - vm_compute. reflexivity.
  - reflexivity.
  - reflexivity.
  - reflexivity.
  - reflexivity.
  - reflexivity.
  - rewrite Hrun. split; reflexivity.
Defined.

(** ** Unmapped MIME types *)




(** ** Errors of the polling loop, as the operations raise them *)

(** A timeout in the loop: the loop raises [TimeoutError] and polls no
    further, and [_export_report] turns the error into
    [ExportFailedError]. *)
Lemma _export_report_times_out self report w initiated pre d r rest :
  initiate_reply self report = Answers initiated ->
  0 <= status_check_interval self ->
  status_replies w = (map answered pre ++ (d, Answers r) :: rest)%list ->
  in_progress_in_time self (clock w) (clock w) pre ->
  timeout self * 1000000 < clock_after self (clock w) pre + d - clock w ->
  exists w',
    _export_report self report w
    = (Raised (Exception ExportFailedError "Export failed."
                 (Some (timeout_error self
                          (clock_after self (clock w) pre + d - clock w)))),
       w')
    /\ status_replies w' = rest
    /\ poll_calls (trace w')
       = (poll_calls (trace w) + List.length pre + 1)%nat.
Proof.
  intros Hinit Hi Hw Hin Hlate.
  destruct (_wait_for_export_completion_ends self (queryID initiated)
              (requested report w) pre d r rest Hi Hw Hin)
    as (Htimeout & _ & _ & Hrest & _ & Hpolls & _).
  rewrite (_export_report_initiated _ _ _ _ Hinit).
  rewrite (Htimeout Hlate).
  eexists. split; [reflexivity|]. split; [exact Hrest|].
  unfold logged_failure. cbn [logged trace set_trace].
  rewrite poll_calls_app, Hpolls.
  cbn [requested trace set_trace]. rewrite poll_calls_app. cbn. lia.
Qed.

(** A status outside the vocabulary: the loop raises a [ValueError] that
    names it, and [_export_report] turns the error into an
    [ExportFailedError] whose message is the same for every status. *)
Lemma _export_report_unknown_status self report w initiated pre d r rest :
  initiate_reply self report = Answers initiated ->
  0 <= status_check_interval self ->
  status_replies w = (map answered pre ++ (d, Answers r) :: rest)%list ->
  in_progress_in_time self (clock w) (clock w) pre ->
  clock_after self (clock w) pre + d - clock w <= timeout self * 1000000 ->
  exportStatus r <> "InProgress" ->
  exportStatus r <> "Error" ->
  exportStatus r <> "Done" ->
  exists w',
    _export_report self report w
    = (Raised (Exception ExportFailedError "Export failed."
                 (Some (unknown_status_error (exportStatus r)))), w').
Proof.
  intros Hinit Hi Hw Hin Hok H1 H2 H3.
  destruct (_wait_for_export_completion_ends self (queryID initiated)
              (requested report w) pre d r rest Hi Hw Hin)
    as (_ & _ & Hunknown & _).
  rewrite (_export_report_initiated _ _ _ _ Hinit).
  rewrite (Hunknown Hok H1 H2 H3).
  eexists. reflexivity.
Qed.

(** C2 at a failing input: with the default timeout of 300 seconds, the
    second poll is answered [InProgress] 402 seconds after the loop started.
    The loop raises [TimeoutError] and polls no further (the third scripted
    reply stays unqueried), but both operations raise [ExportFailedError],
    with the timeout as its cause. *)
Theorem timeout_is_raised_as_ExportFailedError :
  fst (_wait_for_export_completion example_exporter "q-1" slow_world)
  = Raised (Exception TimeoutError
              "Export timed out after 0:06:42. Timeout is 300 seconds." None)
  /\ fst (export_to_file_like_object example_exporter example_report
            slow_world)
     = Raised (Exception ExportFailedError "Export failed."
                 (Some (Exception TimeoutError
                          "Export timed out after 0:06:42. Timeout is 300 seconds."
                          None)))
  /\ fst (export_and_save example_exporter example_report slow_world)
     = Raised (Exception ExportFailedError "Export failed."
                 (Some (Exception TimeoutError
                          "Export timed out after 0:06:42. Timeout is 300 seconds."
                          None)))
  /\ poll_calls
       (trace (snd (export_to_file_like_object example_exporter example_report
                      slow_world))) = 2%nat
  /\ status_replies
       (snd (export_to_file_like_object example_exporter example_report
               slow_world))
     = [(second, Answers in_progress)]
  /\ poll_calls
       (trace (snd (export_and_save example_exporter example_report
                      slow_world))) = 2%nat
  /\ status_replies
       (snd (export_and_save example_exporter example_report slow_world))
     = [(second, Answers in_progress)].
Proof.
  assert (Hexp : exists w',
    _export_report example_exporter example_report slow_world
    = (Raised (Exception ExportFailedError "Export failed."
                 (Some (timeout_error example_exporter (402 * second)))), w')
    /\ status_replies w' = [(second, Answers in_progress)]
    /\ poll_calls (trace w') = 2%nat).
  { apply (_export_report_times_out example_exporter example_report slow_world
             {| queryID := "q-1" |} [(200 * second, in_progress)]
             (200 * second) in_progress [(second, Answers in_progress)]);
      try reflexivity; vm_compute; try discriminate.
    repeat split; discriminate. }
  destruct Hexp as (w' & Hrun & Hrest & Hpolls).
  split; [vm_compute; reflexivity|].
  rewrite export_to_file_like_object_run.
  rewrite (export_and_save_run example_exporter example_report slow_world
             "out" eq_refl).
  rewrite Hrun. cbn [fst snd].
  repeat split; try assumption; reflexivity.
Qed.

(** C3 at a failing input: the first poll is answered with the status
    [Weird].  The loop raises a [ValueError] that names the status, but both
    operations raise [ExportFailedError] with the message [Export failed.],
    which does not name it. *)
Theorem unknown_status_is_raised_as_ExportFailedError :
  fst (_wait_for_export_completion example_exporter "q-1"
         (world_with_replies [(second, Answers weird)]))
  = Raised (Exception ValueError
              "OBIEE returned an unknown exportStatus: Weird" None)
  /\ fst (export_to_file_like_object example_exporter example_report
            (world_with_replies [(second, Answers weird)]))
     = Raised (Exception ExportFailedError "Export failed."
                 (Some (Exception ValueError
                          "OBIEE returned an unknown exportStatus: Weird"
                          None)))
  /\ fst (export_and_save example_exporter example_report
            (world_with_replies [(second, Answers weird)]))
     = Raised (Exception ExportFailedError "Export failed."
                 (Some (Exception ValueError
                          "OBIEE returned an unknown exportStatus: Weird"
                          None)))
  /\ String.index 0 "Weird" "Export failed." = None
  /\ String.index 0 "Weird" "OBIEE returned an unknown exportStatus: Weird"
     = Some 40%nat.
Proof.
  assert (Hexp : exists w',
    _export_report example_exporter example_report
      (world_with_replies [(second, Answers weird)])
    = (Raised (Exception ExportFailedError "Export failed."
                 (Some (unknown_status_error (exportStatus weird)))), w')).
  { apply (_export_report_unknown_status example_exporter example_report
             (world_with_replies [(second, Answers weird)])
             {| queryID := "q-1" |} [] second weird []);
      try reflexivity; vm_compute; discriminate. }
  destruct Hexp as (w' & Hrun).
  split; [vm_compute; reflexivity|].
  rewrite export_to_file_like_object_run.
  rewrite (export_and_save_run example_exporter example_report
             (world_with_replies [(second, Answers weird)]) "out" eq_refl).
  rewrite Hrun. cbn [fst snd].
  repeat split; reflexivity.
Qed.

(* ================================================================== *)
(** * Further properties *)
(* ================================================================== *)

(** ** Trimming, once more *)

Lemma rstrip_idempotent s : rstrip (rstrip s) = rstrip s.
Proof.
  induction s as [|c s IH]; [reflexivity|].
  cbn [rstrip]. destruct (rstrip s) as [|a t] eqn:E.
  - destruct (isspace c) eqn:Ec; [reflexivity|]. cbn. now rewrite Ec.
  - cbn [rstrip]. cbn [rstrip] in IH. now rewrite IH.
Qed.

Lemma lstrip_idempotent s : lstrip (lstrip s) = lstrip s.
Proof.
  induction s as [|c s IH]; [reflexivity|].
  cbn [lstrip]. destruct (isspace c) eqn:Ec; [exact IH|].
  cbn [lstrip]. now rewrite Ec.
Qed.

(** Trimming on the left keeps a string that is trimmed on the right
    trimmed on the right. *)
Lemma rstrip_lstrip s : rstrip s = s -> rstrip (lstrip s) = lstrip s.
Proof.
  induction s as [|c s IH]; [reflexivity|].
  intros H. cbn [lstrip]. destruct (isspace c) eqn:Ec; [|exact H].
  apply IH. cbn [rstrip] in H. destruct (rstrip s) as [|a t].
  - rewrite Ec in H. discriminate.
  - now injection H.
Qed.

Lemma strip_idempotent s : strip (strip s) = strip s.
Proof.
  unfold strip.
  rewrite (rstrip_lstrip (rstrip s) (rstrip_idempotent s)).
  apply lstrip_idempotent.
Qed.

Lemma lstrip_starts s : starts_with_space (lstrip s) = false.
Proof.
  induction s as [|c s IH]; [reflexivity|].
  cbn [lstrip]. destruct (isspace c) eqn:Ec; [exact IH|exact Ec].
Qed.

Lemma rstrip_ends s : ends_with_space (rstrip s) = false.
Proof.
  induction s as [|c s IH]; [reflexivity|].
  cbn [rstrip]. destruct (rstrip s) as [|a t].
  - destruct (isspace c) eqn:Ec; [reflexivity|exact Ec].
  - exact IH.
Qed.

Lemma lstrip_ends s : ends_with_space s = false -> ends_with_space (lstrip s) = false.
Proof.
  induction s as [|c s IH]; [reflexivity|].
  intros H. cbn [lstrip]. destruct (isspace c) eqn:Ec; [|exact H].
  apply IH. destruct s as [|a t]; [|exact H].
  cbn in H. congruence.
Qed.

Lemma strip_clean s :
  starts_with_space (strip s) = false /\ ends_with_space (strip s) = false.
Proof.
  unfold strip. split; [apply lstrip_starts|].
  apply lstrip_ends, rstrip_ends.
Qed.

Lemma strip_warnings_strip attribute_name value :
  strip_warnings attribute_name (strip value) = [].
Proof.
  unfold strip_warnings. now rewrite strip_idempotent, String.eqb_refl.
Qed.

(** X1: construction is idempotent.  Building a descriptor again from the
    fields of a constructed descriptor gives the same descriptor and logs
    nothing: the stored values are already trimmed. *)
Theorem Report_construction_is_idempotent :
  forall ref fmt folder custom refr w r w',
    Report_init ref fmt folder custom refr w = (Returned r, w') ->
    forall w2,
      Report_init (report_ref r) (output_format r) (output_folder r)
        (custom_report_name r) (refresh r) w2
      = (Returned r, w2).
Proof.
  intros ref fmt folder custom refr w r w' H w2.
  rewrite Report_init_run in H. injection H as <- _.
  rewrite Report_init_run.
  cbn [report_ref output_format output_folder custom_report_name refresh].
  rewrite !strip_idempotent, !strip_warnings_strip.
  assert (Ho : forall attr o,
             option_map strip (option_map strip o) = option_map strip o
             /\ strip_warnings_opt attr (option_map strip o) = []).
  { intros attr [v|]; cbn; [|now split].
    now rewrite strip_idempotent, strip_warnings_strip. }
  rewrite !(proj1 (Ho "" _)).
  rewrite (proj2 (Ho "output_folder" folder)).
  rewrite (proj2 (Ho "custom_report_name" custom)).
  cbn [app]. now rewrite app_nil_r, set_trace_trace.
Qed.

(** X1 run on a descriptor given with surrounding blanks. *)
Lemma Report_construction_is_idempotent_witness :
  Report_init "a/b/c" "PDF" (Some "out") None true example_world
  = (Returned {| report_ref := "a/b/c";
                 output_format := "PDF";
                 output_folder := Some "out";
                 custom_report_name := None;
                 refresh := true |}, example_world).
Proof.
  apply (Report_construction_is_idempotent
           " a/b/c " "PDF  " (Some " out") None true example_world
           {| report_ref := "a/b/c";
              output_format := "PDF";
              output_folder := Some "out";
              custom_report_name := None;
              refresh := true |}
           (snd (Report_init " a/b/c " "PDF  " (Some " out") None true
                   example_world))).
  vm_compute. reflexivity.
Defined.

(** X2: after construction no string field begins or ends with a white
    space character. *)
Theorem Report_fields_have_no_surrounding_space :
  forall ref fmt folder custom refr w,
  exists r w',
    Report_init ref fmt folder custom refr w = (Returned r, w')
    /\ starts_with_space (report_ref r) = false
    /\ ends_with_space (report_ref r) = false
    /\ starts_with_space (output_format r) = false
    /\ ends_with_space (output_format r) = false
    /\ (forall v, output_folder r = Some v ->
        starts_with_space v = false /\ ends_with_space v = false)
    /\ (forall v, custom_report_name r = Some v ->
        starts_with_space v = false /\ ends_with_space v = false).
Proof.
  intros ref fmt folder custom refr w.
  eexists; eexists. split; [apply Report_init_run|].
  cbn [report_ref output_format output_folder custom_report_name].
  repeat split; try apply strip_clean.
  - destruct folder as [x|]; cbn in H; [|discriminate].
    injection H as <-. apply strip_clean.
  - destruct folder as [x|]; cbn in H; [|discriminate].
    injection H as <-. apply strip_clean.
  - destruct custom as [x|]; cbn in H; [|discriminate].
    injection H as <-. apply strip_clean.
  - destruct custom as [x|]; cbn in H; [|discriminate].
    injection H as <-. apply strip_clean.
Qed.

(** ** File names *)

Lemma split_slash_components s :
  Forall (fun x => slash_free x = true) (split_slash s).
Proof.
  induction s as [|c s IH]; [now repeat constructor|].
  cbn [split_slash]. destruct (Ascii.eqb c "/") eqn:Ec.
  - now constructor.
  - destruct (split_slash s) as [|x xs]; [now repeat constructor; cbn; rewrite Ec|].
    inversion IH as [|? ? Hx Hxs]; subst. constructor; [|exact Hxs].
    cbn. now rewrite Ec.
Qed.

Lemma last_of_all {A} (P : A -> Prop) (l : list A) (d : A) :
  Forall P l -> l <> [] -> P (last l d).
Proof.
  induction l as [|a l IH]; [contradiction|].
  intros H _. inversion H as [|? ? Ha Hl]; subst.
  destruct l as [|b l]; [exact Ha|].
  apply IH; [exact Hl|discriminate].
Qed.

(** The name of a path is empty, or a component free of slashes. *)
Lemma name_Path_component s :
  name (Path s) = ""
  \/ (slash_free (name (Path s)) = true /\ is_component (name (Path s)) = true).
Proof.
  rewrite name_Path.
  set (l := filter is_component (split_slash (lstrip_slash s))).
  destruct l as [|a l'] eqn:El; [now left|]. right.
  apply (last_of_all
           (fun x => slash_free x = true /\ is_component x = true)
           (a :: l') "").
  - rewrite <- El. unfold l. apply Forall_forall. intros x Hx.
    apply filter_In in Hx as [Hin Hc]. split; [|exact Hc].
    pose proof (split_slash_components (lstrip_slash s)) as Hall.
    rewrite Forall_forall in Hall. now apply Hall.
  - discriminate.
Qed.

Lemma slash_free_app a b :
  slash_free (a ++ b) = slash_free a && slash_free b.
Proof.
  induction a as [|c a IH]; [reflexivity|].
  cbn. rewrite IH. now rewrite andb_assoc.
Qed.

(** X3: the generated name is a file name, not a path.  [original_name], and
    [report_name] when no custom name is in force, never holds a slash and is
    never [.]; it is empty only when [report_ref] has no component at all.
    With an extension free of slashes the output path then lies directly in
    the output folder, whatever the MIME type [M] of the result. *)
Theorem generated_name_is_a_plain_file_name :
  forall (r : Report),
    slash_free (original_name r) = true
    /\ original_name r <> "."
    /\ (original_name r = "" <-> parts (Path (report_ref r)) = [])
    /\ (truthy_opt (custom_report_name r) = false ->
        report_name r = original_name r)
    /\ (forall w folder M,
          truthy_opt (custom_report_name r) = false ->
          original_name r <> "" ->
          slash_free (format_opt (guess_extension_strict w M)) = true ->
          output_file_path_of w r folder M
          = {| root := root (Path folder);
               parts := parts (Path folder)
                        ++ [original_name r
                            ++ format_opt (guess_extension_strict w M)] |}).
Proof.
  intros r. unfold original_name, _generate_report_name.
  pose proof (name_Path_component (report_ref r)) as Hname.
  assert (Hcustom : truthy_opt (custom_report_name r) = false ->
                    report_name r = name (Path (report_ref r))).
  { unfold report_name. destruct (custom_report_name r) as [[|c x]|];
      cbn; try reflexivity. discriminate. }
  split; [|split; [|split; [|split]]].
  - destruct Hname as [-> | [Hs _]]; [reflexivity|exact Hs].
  - destruct Hname as [-> | [_ Hc]]; [discriminate|].
    intros E. rewrite E in Hc. discriminate.
  - unfold name. split.
    + intros E. destruct (parts (Path (report_ref r))) as [|a l] eqn:El;
        [reflexivity|].
      exfalso. destruct Hname as [_ | [_ Hc]].
      * assert (Hin : In "" (parts (Path (report_ref r)))).
        { rewrite El, <- E.
          apply (last_of_all (fun x => In x (a :: l)) (a :: l) "");
            [|discriminate].
          apply Forall_forall. auto. }
        unfold Path in Hin. destruct (splitroot (report_ref r)) as [rt rel].
        cbn [parts] in Hin. apply filter_In in Hin as [_ Hc]. discriminate.
      * unfold name in Hc. rewrite El, E in Hc. discriminate.
    + now intros ->.
  - exact Hcustom.
  - intros w folder M Hc Hne Hext.
    destruct Hname as [E | [Hs Hcomp]]; [contradiction|].
    unfold output_file_path_of. rewrite (Hcustom Hc).
    set (ext := format_opt (guess_extension_strict w M)) in *.
    set (nm := name (Path (report_ref r))) in *.
    assert (Hplain : Path (nm ++ ext) = {| root := ""; parts := [nm ++ ext] |}).
    { apply Path_plain.
      - now rewrite slash_free_app, Hs, Hext.
      - destruct nm as [|c nm']; [contradiction|].
        unfold is_component. cbn [append truthy andb].
        destruct nm' as [|c' nm'']; cbn.
        + destruct ext as [|e ext'].
          * exact Hcomp.
          * destruct (Ascii.eqb c "."); reflexivity.
        + destruct (Ascii.eqb c "."); reflexivity. }
    unfold joinpath. rewrite Hplain. reflexivity.
Qed.

(** X3 run on the example report, exported as PDF into [out]. *)
Lemma generated_name_is_a_plain_file_name_witness :
  output_file_path_of example_world example_report "out" "application/pdf"
  = {| root := ""; parts := ["out"; "Revenue.pdf"] |}.
Proof.
  destruct (generated_name_is_a_plain_file_name example_report)
    as (_ & _ & _ & _ & Hpath).
  apply (Hpath example_world "out" "application/pdf");
    [reflexivity|discriminate|reflexivity].
Defined.

Lemma truthy_strip s : truthy (strip s) = negb (blank s).
Proof.
  destruct (blank s) eqn:E.
  - apply strip_empty in E. now rewrite E.
  - apply strip_nonempty in E. now destruct (strip s).
Qed.

(** X4: a custom name counts only if something is left of it after
    trimming.  For a descriptor constructed with a custom name, [report_name]
    is the trimmed custom name, unless the custom name was empty or white
    space only: then it is the final component of the trimmed
    [report_ref]. *)
Theorem report_name_after_construction :
  forall ref fmt folder custom refr w,
  exists r w',
    Report_init ref fmt folder (Some custom) refr w = (Returned r, w')
    /\ report_name r
       = (if blank custom then name (Path (strip ref)) else strip custom).
Proof.
  intros ref fmt folder custom refr w.
  eexists; eexists. split; [apply Report_init_run|].
  unfold report_name, _generate_report_name.
  cbn [custom_report_name report_ref option_map].
  rewrite truthy_strip. now destruct (blank custom).
Qed.

Lemma Path_rooted x : truthy (root (Path (String "/" x))) = true.
Proof.
  unfold Path, splitroot.
  change (Ascii.eqb "/" "/") with true. cbv iota.
  now destruct (_ =? 2)%nat.
Qed.

(** X5: a custom name that begins with a slash escapes the output folder.
    The output path is then the custom name with the extension appended, read
    as an absolute path; the output folder is no part of it, whatever it
    is. *)
Theorem absolute_custom_name_ignores_output_folder :
  forall (r : Report) w folder M rest,
    custom_report_name r = Some (String "/" rest) ->
    output_file_path_of w r folder M
    = Path (String "/" rest ++ format_opt (guess_extension_strict w M))
    /\ truthy (root (output_file_path_of w r folder M)) = true.
Proof.
  intros r w folder M rest H.
  assert (Hname : report_name r = String "/" rest).
  { unfold report_name. now rewrite H. }
  unfold output_file_path_of, joinpath. rewrite Hname.
  change (String "/" rest ++ ?e) with (String "/" (rest ++ e)).
  rewrite Path_rooted. split; [reflexivity|apply Path_rooted].
Qed.

(** X5 run: the custom name [/tmp/Q3] with the output folder [out]. *)
Lemma absolute_custom_name_ignores_output_folder_witness :
  str_path
    (output_file_path_of example_world
       {| report_ref := "/shared/Sales/Revenue";
          output_format := "PDF";
          output_folder := Some "out";
          custom_report_name := Some "/tmp/Q3";
          refresh := false |} "out" "application/pdf")
  = "/tmp/Q3.pdf".
Proof.
  destruct (absolute_custom_name_ignores_output_folder
              {| report_ref := "/shared/Sales/Revenue";
                 output_format := "PDF";
                 output_folder := Some "out";
                 custom_report_name := Some "/tmp/Q3";
                 refresh := false |} example_world "out" "application/pdf"
              "tmp/Q3" eq_refl) as [-> _].
  reflexivity.
Defined.

(** ** The session scope, further *)

(** X6: a scope whose logon and logoff are answered releases the session
    after its body, whether the body returned or raised.  The outcome of the
    body is the outcome of the scope; logoff is called once, after
    everything the body did, with the token logon returned; afterwards
    neither the token nor the password is stored. *)
Theorem session_scope_releases_after_body :
  forall (A : Type) (body : string -> M World A) self w sid rb w2,
    logon (session_service self) (username self) (_password self)
    = Answers sid ->
    sid <> "" ->
    body sid (snd (snd (__enter__ (self, w)))) = (rb, w2) ->
    rb <> Unanswered ->
    logoff (session_service self) sid = Answers tt ->
    with_session body (self, w)
    = (rb,
       ({| session_service := session_service self;
           username := username self;
           _password := None;
           _session_id := None |},
        set_trace
          (trace w2
           ++ [CallLogoff sid;
               Log session_logger INFO
                 ("User " ++ username self ++ " logged off successfully.") [];
               Log session_logger DEBUG
                 ("Logged off from session " ++ sid ++ ".") []]) w2)).
Proof.
  intros A body self w sid rb w2 H Hne Hb Hrb Hoff.
  rewrite (with_session_entered body self w sid rb w2 H Hb Hrb).
  rewrite (__exit___answered (after_logon_attempt self (Some sid)) w2 sid
             eq_refl Hne Hoff).
  reflexivity.
Qed.

(** X6 run with a body that raises: the error of the body ends the scope,
    after the logoff. *)
Lemma session_scope_releases_after_body_witness :
  fst (with_session
         (fun _ => raise (Exception ValueError "bad report" None))
         (OBIEESession_init service_accepting "weblogic" "secret",
          example_world))
  = @Raised unit (Exception ValueError "bad report" None)
  /\ logoff_calls
       (trace (snd (snd (with_session
                           (fun _ => @raise World unit
                                       (Exception ValueError "bad report" None))
                           (OBIEESession_init service_accepting "weblogic"
                              "secret", example_world))))) = 1%nat.
Proof.
  rewrite (session_scope_releases_after_body unit
             (fun _ => raise (Exception ValueError "bad report" None))
             (OBIEESession_init service_accepting "weblogic" "secret")
             example_world "sid-1"
             (Raised (Exception ValueError "bad report" None))
             (snd (snd (__enter__
                          (OBIEESession_init service_accepting "weblogic"
                             "secret", example_world))))).
  - split; reflexivity.
  - reflexivity.
  - discriminate.
  - reflexivity.
  - discriminate.
  - reflexivity.
Defined.

(** X7: a logon error that is not a SOAP fault is not translated.  The scope
    ends with that very error; the body does not run, logoff is not called,
    no error record is logged, and the password is cleared all the same. *)
Theorem logon_error_other_than_fault_is_passed_on :
  forall (A : Type) (body : string -> M World A) self w e,
    logon (session_service self) (username self) (_password self) = Throws e ->
    is_Fault e = false ->
    with_session body (self, w)
    = (Raised e,
       ({| session_service := session_service self;
           username := username self;
           _password := None;
           _session_id := _session_id self |},
        set_trace
          (trace w
           ++ [Log session_logger INFO
                 ("Attempting to log in as " ++ username self ++ "...") [];
               CallLogon (username self) (_password self)]) w)).
Proof.
  intros A body self w e H Hf. unfold with_session.
  now rewrite (bind_Raised _ _ _ _ _ (__enter___other self w e H Hf)).
Qed.

(** X7 run against a server that cannot be reached. *)
Lemma logon_error_other_than_fault_is_passed_on_witness :
  fst (with_session (fun sid => ret sid)
         (OBIEESession_init service_unreachable "weblogic" "secret",
          example_world))
  = Raised (Exception TransportError "Connection refused." None).
Proof.
  rewrite (logon_error_other_than_fault_is_passed_on string
             (fun sid => ret sid)
             (OBIEESession_init service_unreachable "weblogic" "secret")
             example_world
             (Exception TransportError "Connection refused." None)
             eq_refl eq_refl).
  reflexivity.
Defined.

(** What every [__enter__] does first, whatever the answer. *)
Lemma __enter___calls_logon self w :
  exists evs,
    trace (snd (snd (__enter__ (self, w))))
    = (trace w
       ++ Log session_logger INFO
            ("Attempting to log in as " ++ username self ++ "...") []
          :: CallLogon (username self) (_password self) :: evs)%list
    /\ fst (snd (__enter__ (self, w)))
       = after_logon_attempt self (_session_id (fst (snd (__enter__ (self, w))))).
Proof.
  destruct (logon (session_service self) (username self) (_password self))
    as [sid|e] eqn:H.
  - rewrite (__enter___answered _ w _ H). eexists. split; reflexivity.
  - destruct (is_Fault e) eqn:Hf.
    + destruct e as [cls m c]. unfold is_Fault, class_of in Hf.
      destruct cls; try discriminate.
      rewrite (__enter___fault _ w _ _ H). eexists. split; reflexivity.
    + rewrite (__enter___other _ w _ H Hf). eexists. split; reflexivity.
Qed.

(** X8: a session object logs on with its password once.  Whatever the
    first [__enter__] ended with, a second [__enter__] on the same object
    calls logon with the same user name and an absent password. *)
Theorem second_entry_submits_no_password :
  forall self w,
  exists evs,
    trace (snd (snd (__enter__ (snd (__enter__ (self, w))))))
    = (trace (snd (snd (__enter__ (self, w))))
       ++ Log session_logger INFO
            ("Attempting to log in as " ++ username self ++ "...") []
          :: CallLogon (username self) None :: evs)%list.
Proof.
  intros self w.
  destruct (__enter___calls_logon self w) as (evs1 & _ & Hobj).
  destruct (__enter__ (self, w)) as [r [self1 w1]]. cbn [fst snd] in *.
  destruct (__enter___calls_logon self1 w1) as (evs2 & Htrace & _).
  exists evs2. rewrite Htrace, Hobj. reflexivity.
Qed.

(** X9: an empty token is never logged off.  When logon answers with the
    empty string, [__exit__] finds no token worth a logoff: the scope ends
    with the outcome of its body, logoff is not called, and the empty token
    stays stored. *)
Theorem empty_session_id_is_never_logged_off :
  forall (A : Type) (body : string -> M World A) self w rb w2,
    logon (session_service self) (username self) (_password self)
    = Answers "" ->
    body "" (snd (snd (__enter__ (self, w)))) = (rb, w2) ->
    rb <> Unanswered ->
    with_session body (self, w)
    = (rb,
       ({| session_service := session_service self;
           username := username self;
           _password := None;
           _session_id := Some "" |}, w2)).
Proof.
  intros A body self w rb w2 H Hb Hrb.
  rewrite (with_session_entered body self w "" rb w2 H Hb Hrb).
  now rewrite (__exit___without_token (after_logon_attempt self (Some "")) w2
                 eq_refl).
Qed.

(** X9 run against a server that answers the logon with an empty token. *)
Lemma empty_session_id_is_never_logged_off_witness :
  logoff_calls
    (trace (snd (snd (with_session (fun sid => ret sid)
                        (OBIEESession_init service_with_empty_token "weblogic"
                           "secret", example_world))))) = 0%nat.
Proof.
  rewrite (empty_session_id_is_never_logged_off string (fun sid => ret sid)
             (OBIEESession_init service_with_empty_token "weblogic" "secret")
             example_world (Returned "")
             (snd (snd (__enter__
                          (OBIEESession_init service_with_empty_token
                             "weblogic" "secret", example_world))))).
  - reflexivity.
  - reflexivity.
  - reflexivity.
  - discriminate.
Defined.

(** ** The export, further *)

Lemma sleep_calls_app tr1 tr2 :
  sleep_calls (tr1 ++ tr2) = (sleep_calls tr1 + sleep_calls tr2)%nat.
Proof. unfold sleep_calls. now rewrite filter_app, length_app. Qed.

Lemma initiate_calls_app tr1 tr2 :
  initiate_calls (tr1 ++ tr2) = (initiate_calls tr1 + initiate_calls tr2)%nat.
Proof. unfold initiate_calls. now rewrite filter_app, length_app. Qed.

(** One sleep after every poll in progress. *)
Lemma after_in_progress_sleeps self query_id start_time pre :
  forall w,
    sleep_calls (trace (after_in_progress self query_id start_time pre w))
    = (sleep_calls (trace w) + List.length pre)%nat.
Proof.
  induction pre as [|[d r] pre IH]; intros w.
  - cbn. lia.
  - cbn [after_in_progress List.length]. rewrite IH.
    cbn [slept received trace set_trace set_clock set_status_replies].
    rewrite !sleep_calls_app. cbn. lia.
Qed.

(** What [_export_report] raises, both operations raise. *)
Lemma operations_raise_with_export self report w e w' :
  _export_report self report w = (Raised e, w') ->
  export_to_file_like_object self report w = (Raised e, w')
  /\ (forall folder,
        output_folder report = Some folder ->
        export_and_save self report w = (Raised e, w')).
Proof.
  intros H. split.
  - now rewrite export_to_file_like_object_run, H.
  - intros folder Hf. now rewrite (export_and_save_run _ _ _ _ Hf), H.
Qed.

(** X10: the polling phase for any number of polls.  When the export
    request is answered, any number of polls (none included) report
    [InProgress] in time and the next poll reports [Done] no later than the
    timeout after the loop started (exactly at the timeout is in time), then
    [export_to_file_like_object] returns the payload of that last reply and
    the extension of its MIME type [M].  It has polled once per reply, slept once after each
    poll in progress, and left the replies still scripted unqueried. *)
Theorem export_to_file_like_object_returns_the_done_reply :
  forall self report w initiated pre d r rest M,
    initiate_reply self report = Answers initiated ->
    0 <= status_check_interval self ->
    status_replies w = (map answered pre ++ (d, Answers r) :: rest)%list ->
    in_progress_in_time self (clock w) (clock w) pre ->
    clock_after self (clock w) pre + d - clock w <= timeout self * 1000000 ->
    exportStatus r = "Done" ->
    mimeType r = Some M ->
    exists w',
      export_to_file_like_object self report w
      = (Returned (BytesIO_init (viewData r), guess_extension_strict w M), w')
      /\ status_replies w' = rest
      /\ poll_calls (trace w')
         = (poll_calls (trace w) + List.length pre + 1)%nat
      /\ sleep_calls (trace w')
         = (sleep_calls (trace w) + List.length pre)%nat
      /\ clock w' = clock_after self (clock w) pre + d.
Proof.
  intros self report w initiated pre d r rest M Hinit Hi Hw Hin Hok Hdone HM.
  pose (w0 := requested report w).
  destruct (_wait_for_export_completion_ends self (queryID initiated) w0
              pre d r rest Hi Hw Hin)
    as (_ & Hret & _ & Hrest & Hdisk & Hpolls & _).
  destruct (polling_loop_in_progress self (queryID initiated) (clock w0) Hi
              pre 0%nat w0 ((d, Answers r) :: rest) Hw Hin)
    as (_ & _ & Hclock & _).
  rewrite export_to_file_like_object_run.
  rewrite (_export_report_initiated _ _ _ _ Hinit). fold w0.
  rewrite (Hret Hok Hdone), HM.
  eexists. split; [|split; [|split; [|split]]].
  - destruct Hdisk as (_ & _ & Htable).
    cbn [logged guess_extension_strict set_trace] in *.
    now rewrite Htable.
  - exact Hrest.
  - cbn [logged trace set_trace]. rewrite !poll_calls_app.
    cbn [logged trace set_trace] in Hpolls. rewrite Hpolls.
    unfold w0. cbn [requested trace set_trace]. rewrite poll_calls_app.
    cbn. lia.
  - cbn [logged received trace set_trace set_clock set_status_replies].
    rewrite !sleep_calls_app, after_in_progress_sleeps.
    unfold w0. cbn [requested trace set_trace]. rewrite sleep_calls_app.
    cbn. lia.
  - cbn [logged received clock set_trace set_clock set_status_replies].
    exact (f_equal (fun t => t + d) Hclock).
Qed.

(** X10 run: [Done] at the first poll, exactly 300 seconds after the loop
    started. *)
Lemma export_to_file_like_object_returns_the_done_reply_witness :
  exists w',
    export_to_file_like_object example_exporter example_report
      (world_with_replies [(300 * second, Answers done_pdf)])
    = (Returned (BytesIO_init (viewData done_pdf), Some ".pdf"), w')
    /\ status_replies w' = []
    /\ poll_calls (trace w') = 1%nat
    /\ sleep_calls (trace w') = 0%nat
    /\ clock w' = 300 * second.
Proof.
  apply (export_to_file_like_object_returns_the_done_reply
           example_exporter example_report
           (world_with_replies [(300 * second, Answers done_pdf)])
           {| queryID := "q-1" |} [] (300 * second) done_pdf []
           "application/pdf");
    try reflexivity; vm_compute; try discriminate; exact I.
Defined.

(** The loop at a reply with status [Error], and at a poll the client fails
    on. *)
Lemma _wait_for_export_completion_fails self query_id w pre rest :
  0 <= status_check_interval self ->
  in_progress_in_time self (clock w) (clock w) pre ->
  (forall d r,
      status_replies w = (map answered pre ++ (d, Answers r) :: rest)%list ->
      clock_after self (clock w) pre + d - clock w <= timeout self * 1000000 ->
      exportStatus r = "Error" ->
      exists w',
        _wait_for_export_completion self query_id w
        = (Raised error_status_error, w')
        /\ status_replies w' = rest
        /\ poll_calls (trace w')
           = (poll_calls (trace w) + List.length pre + 1)%nat)
  /\ (forall d e,
        status_replies w = (map answered pre ++ (d, Throws e) :: rest)%list ->
        exists w',
          _wait_for_export_completion self query_id w = (Raised e, w')
          /\ status_replies w' = rest
          /\ poll_calls (trace w')
             = (poll_calls (trace w) + List.length pre + 1)%nat).
Proof.
  intros Hi Hin. split.
  - intros d r Hw Hok Herr.
    destruct (_wait_for_export_completion_ends self query_id w
                pre d r rest Hi Hw Hin)
      as (_ & _ & _ & Hrest & _ & Hpolls & _).
    rewrite (_wait_for_export_completion_in_progress _ _ _ _ _ _ _ Hi Hw Hin).
    destruct (polling_loop_in_progress self query_id (clock w) Hi pre 0%nat w
                ((d, Answers r) :: rest) Hw Hin)
      as (_ & Hnext & Hclock & _).
    rewrite (polling_loop_answered _ _ _ _ _ _ _ _ Hnext). cbv zeta.
    rewrite Hclock.
    destruct (Z.ltb_spec (timeout self * 1000000)
                (clock_after self (clock w) pre + d - clock w)); [lia|].
    rewrite Herr. cbn [String.eqb Ascii.eqb Bool.eqb].
    eexists. split; [reflexivity|]. split; [exact Hrest|].
    cbn [logged trace set_trace]. rewrite poll_calls_app, Hpolls. cbn. lia.
  - intros d e Hw.
    destruct (polling_loop_in_progress self query_id (clock w) Hi pre
                (S (S (List.length rest))) w ((d, Throws e) :: rest) Hw Hin)
      as (Hrun & Hnext & _ & _ & Hpolls & _).
    rewrite _wait_for_export_completion_run.
    replace (S (List.length (status_replies w)))
      with (List.length pre + S (S (List.length rest)))%nat
      by (rewrite Hw, length_app, length_map; cbn [List.length]; lia).
    rewrite Hrun, (polling_loop_thrown _ _ _ _ _ _ _ _ Hnext).
    eexists. split; [reflexivity|]. split; [reflexivity|].
    cbn [trace set_trace set_clock set_status_replies].
    rewrite poll_calls_app, Hpolls. cbn. lia.
Qed.

(** X11: the status [Error] ends the export at once.  After any number of
    polls in progress, a reply with status [Error] makes both operations
    raise [ExportFailedError], with the error of the loop as its cause; the
    replies still scripted stay unqueried, so nothing is retried. *)
Theorem error_status_fails_the_export_without_retry :
  forall self report w initiated pre d r rest,
    initiate_reply self report = Answers initiated ->
    0 <= status_check_interval self ->
    status_replies w = (map answered pre ++ (d, Answers r) :: rest)%list ->
    in_progress_in_time self (clock w) (clock w) pre ->
    clock_after self (clock w) pre + d - clock w <= timeout self * 1000000 ->
    exportStatus r = "Error" ->
    exists w',
      export_to_file_like_object self report w
      = (Raised (Exception ExportFailedError "Export failed."
                   (Some error_status_error)), w')
      /\ (forall folder,
            output_folder report = Some folder ->
            export_and_save self report w
            = (Raised (Exception ExportFailedError "Export failed."
                         (Some error_status_error)), w'))
      /\ status_replies w' = rest
      /\ poll_calls (trace w')
         = (poll_calls (trace w) + List.length pre + 1)%nat.
Proof.
  intros self report w initiated pre d r rest Hinit Hi Hw Hin Hok Herr.
  destruct (_wait_for_export_completion_fails self (queryID initiated)
              (requested report w) pre rest Hi Hin) as [Herror _].
  destruct (Herror d r Hw Hok Herr) as (w1 & Hrun & Hrest & Hpolls).
  assert (Hexp : _export_report self report w
                 = (Raised (export_failed error_status_error),
                    logged_failure report error_status_error w1)).
  { now rewrite (_export_report_initiated _ _ _ _ Hinit), Hrun. }
  destruct (operations_raise_with_export _ _ _ _ _ Hexp) as [Hmem Hsave].
  eexists. split; [exact Hmem|]. split; [exact Hsave|].
  split; [exact Hrest|].
  unfold logged_failure. cbn [logged trace set_trace].
  rewrite poll_calls_app, Hpolls.
  cbn [requested trace set_trace]. rewrite poll_calls_app. cbn. lia.
Qed.

(** X11 run: [Error] at the first poll, with another reply scripted. *)
Lemma error_status_fails_the_export_without_retry_witness :
  exists w',
    export_to_file_like_object example_exporter example_report
      (world_with_replies
         [(second, Answers failed_on_server); (second, Answers done_pdf)])
    = (Raised (Exception ExportFailedError "Export failed."
                 (Some error_status_error)), w')
    /\ status_replies w' = [(second, Answers done_pdf)]
    /\ poll_calls (trace w') = 1%nat.
Proof.
  destruct (error_status_fails_the_export_without_retry
              example_exporter example_report
              (world_with_replies
                 [(second, Answers failed_on_server);
                  (second, Answers done_pdf)])
              {| queryID := "q-1" |} [] second failed_on_server
              [(second, Answers done_pdf)])
    as (w' & Hrun & _ & Hrest & Hpolls);
    try reflexivity; try (vm_compute; discriminate); try exact I.
  exists w'. split; [exact Hrun|]. split; [exact Hrest|exact Hpolls].
Defined.

(** X12: a failing export request.  When the server or the client fails on
    the request itself, both operations raise [ExportFailedError] with the
    error as its cause: a SOAP fault with its text after [Export failed. ],
    any other error with the bare [Export failed.].  No status is polled and
    no time passes. *)
Theorem failed_export_request_is_wrapped :
  forall self report w e,
    initiate_reply self report = Throws e ->
    exists w',
      export_to_file_like_object self report w
      = (Raised (Exception ExportFailedError
                   (if is_Fault e then "Export failed. " ++ str_exn e
                    else "Export failed.") (Some e)), w')
      /\ (forall folder,
            output_folder report = Some folder ->
            export_and_save self report w
            = (Raised (Exception ExportFailedError
                         (if is_Fault e then "Export failed. " ++ str_exn e
                          else "Export failed.") (Some e)), w'))
      /\ poll_calls (trace w') = poll_calls (trace w)
      /\ status_replies w' = status_replies w
      /\ clock w' = clock w.
Proof.
  intros self report w e H.
  pose proof (_export_report_not_initiated self report w e H) as Hexp.
  assert (Hwrap : export_failed e
                  = Exception ExportFailedError
                      (if is_Fault e then "Export failed. " ++ str_exn e
                       else "Export failed.") (Some e)).
  { unfold export_failed. now destruct (is_Fault e). }
  rewrite Hwrap in Hexp.
  destruct (operations_raise_with_export _ _ _ _ _ Hexp) as [Hmem Hsave].
  eexists. split; [exact Hmem|]. split; [exact Hsave|].
  split; [|split; reflexivity].
  unfold logged_failure. cbn [logged requested trace set_trace].
  rewrite !poll_calls_app. cbn. lia.
Qed.

(** X12 run against a server that rejects the request with a fault. *)
Lemma failed_export_request_is_wrapped_witness :
  fst (export_to_file_like_object
         (OBIEEAnalysisExporter_init service_rejecting_export 300 false 2)
         example_report (world_with_replies [(second, Answers done_pdf)]))
  = Raised
      (Exception ExportFailedError
         "Export failed. Path not found (/shared/Sales/Revenue)"
         (Some (Exception Fault "Path not found (/shared/Sales/Revenue)"
                  None))).
Proof.
  destruct (failed_export_request_is_wrapped
              (OBIEEAnalysisExporter_init service_rejecting_export 300 false 2)
              example_report (world_with_replies [(second, Answers done_pdf)])
              (Exception Fault "Path not found (/shared/Sales/Revenue)" None)
              eq_refl) as (w' & Hrun & _).
  rewrite Hrun. reflexivity.
Defined.

(** X13: a status poll the client fails on.  After any number of polls in
    progress, a poll that raises ends both operations with
    [ExportFailedError] and the error as its cause; a SOAP fault keeps its
    text in the message.  Nothing is polled afterwards. *)
Theorem failed_status_poll_is_wrapped :
  forall self report w initiated pre d e rest,
    initiate_reply self report = Answers initiated ->
    0 <= status_check_interval self ->
    status_replies w = (map answered pre ++ (d, Throws e) :: rest)%list ->
    in_progress_in_time self (clock w) (clock w) pre ->
    exists w',
      export_to_file_like_object self report w
      = (Raised (Exception ExportFailedError
                   (if is_Fault e then "Export failed. " ++ str_exn e
                    else "Export failed.") (Some e)), w')
      /\ (forall folder,
            output_folder report = Some folder ->
            export_and_save self report w
            = (Raised (Exception ExportFailedError
                         (if is_Fault e then "Export failed. " ++ str_exn e
                          else "Export failed.") (Some e)), w'))
      /\ status_replies w' = rest
      /\ poll_calls (trace w')
         = (poll_calls (trace w) + List.length pre + 1)%nat.
Proof.
  intros self report w initiated pre d e rest Hinit Hi Hw Hin.
  destruct (_wait_for_export_completion_fails self (queryID initiated)
              (requested report w) pre rest Hi Hin) as [_ Hthrown].
  destruct (Hthrown d e Hw) as (w1 & Hrun & Hrest & Hpolls).
  assert (Hexp : _export_report self report w
                 = (Raised (export_failed e), logged_failure report e w1)).
  { now rewrite (_export_report_initiated _ _ _ _ Hinit), Hrun. }
  assert (Hwrap : export_failed e
                  = Exception ExportFailedError
                      (if is_Fault e then "Export failed. " ++ str_exn e
                       else "Export failed.") (Some e)).
  { unfold export_failed. now destruct (is_Fault e). }
  rewrite Hwrap in Hexp.
  destruct (operations_raise_with_export _ _ _ _ _ Hexp) as [Hmem Hsave].
  eexists. split; [exact Hmem|]. split; [exact Hsave|].
  split; [exact Hrest|].
  unfold logged_failure. cbn [logged trace set_trace].
  rewrite poll_calls_app, Hpolls.
  cbn [requested trace set_trace]. rewrite poll_calls_app. cbn. lia.
Qed.

(** X13 run: the second poll fails with a SOAP fault. *)
Lemma failed_status_poll_is_wrapped_witness :
  exists w',
    export_to_file_like_object example_exporter example_report
      (world_with_replies
         [(second, Answers in_progress);
          (second, Throws (Exception Fault "Invalid query id" None));
          (second, Answers done_pdf)])
    = (Raised (Exception ExportFailedError "Export failed. Invalid query id"
                 (Some (Exception Fault "Invalid query id" None))), w')
    /\ status_replies w' = [(second, Answers done_pdf)]
    /\ poll_calls (trace w') = 2%nat.
Proof.
  destruct (failed_status_poll_is_wrapped
              example_exporter example_report
              (world_with_replies
                 [(second, Answers in_progress);
                  (second, Throws (Exception Fault "Invalid query id" None));
                  (second, Answers done_pdf)])
              {| queryID := "q-1" |} [(second, in_progress)] second
              (Exception Fault "Invalid query id" None)
              [(second, Answers done_pdf)])
    as (w' & Hrun & _ & Hrest & Hpolls);
    try reflexivity; try (vm_compute; discriminate).
  { vm_compute. repeat split; discriminate. }
  exists w'. split; [exact Hrun|]. split; [exact Hrest|exact Hpolls].
Defined.

(** X14: exporting to memory never touches the disk.  Whatever the server
    answers and however the operation ends, the file system, the current
    directory and the MIME table are what they were. *)
Theorem export_to_file_like_object_leaves_the_disk_alone :
  forall self report w,
    same_disk w (snd (export_to_file_like_object self report w)).
Proof.
  intros self report w. rewrite export_to_file_like_object_run.
  pose proof (_export_report_after self report w) as (Hdisk & _).
  destruct (_export_report self report w) as [[res|e|] w1]; try exact Hdisk.
  now destruct (mimeType res).
Qed.

(** How [_export_report] raises: the wrapped error, logged just before. *)
Lemma _export_report_Raised_logged self report w e w' :
  _export_report self report w = (Raised e, w') ->
  exists c w1, e = export_failed c /\ w' = logged_failure report c w1.
Proof.
  intros Hrun.
  destruct (initiate_reply self report) as [initiated|e0] eqn:H.
  - rewrite (_export_report_initiated _ _ _ _ H) in Hrun.
    destruct (_wait_for_export_completion _ _ _) as [[res|c|] w1];
      try discriminate.
    injection Hrun as <- <-. now exists c, w1.
  - rewrite (_export_report_not_initiated _ _ _ _ H) in Hrun.
    injection Hrun as <- <-. now exists e0, (requested report w).
Qed.

(** X15: the errors of an export to memory.  Whatever
    [export_to_file_like_object] raises is one of two things.  Either the
    export itself failed: then it is an [ExportFailedError] (an
    [OBIEEError]) chained to the error that caused it, its message is
    [Export failed.], followed by the text of the cause when the cause is a
    SOAP fault, and the last record of the log is the ERROR record of that
    failure, naming the report and the cause.  Or the export is through and
    its result has no MIME type: then it is the bare [AttributeError] of
    [guess_extension], raised outside the [try] block, and nothing is logged
    for it.  A finished export without MIME type always ends in this way. *)
Theorem export_to_file_like_object_errors :
  forall self report w,
    (forall e w',
        export_to_file_like_object self report w = (Raised e, w') ->
        (_export_report self report w = (Raised e, w')
         /\ class_of e = ExportFailedError
         /\ is_OBIEEError (class_of e) = true
         /\ exists c,
              cause_of e = Some c
              /\ str_exn e
                 = (if is_Fault c then "Export failed. " ++ str_exn c
                    else "Export failed.")
              /\ last (trace w') (Slept 0)
                 = Log export_logger ERROR
                     "Export failed for report '%s'. Error: %s"
                     [report_name report; str_exn c])
        \/ (e = missing_mime_type
            /\ is_OBIEEError (class_of e) = false
            /\ exists res,
                 _export_report self report w = (Returned res, w')
                 /\ exportStatus res = "Done"
                 /\ mimeType res = None))
    /\ (forall res w1,
          _export_report self report w = (Returned res, w1) ->
          mimeType res = None ->
          export_to_file_like_object self report w
          = (Raised missing_mime_type, w1)).
Proof.
  intros self report w. split.
  - intros e w' Hrun.
    rewrite export_to_file_like_object_run in Hrun.
    destruct (_export_report self report w) as [[res|e0|] w1] eqn:Hexp;
      try discriminate.
    + destruct (mimeType res) as [M|] eqn:HM; [discriminate|].
      injection Hrun as <- <-. right.
      split; [reflexivity|]. split; [reflexivity|].
      exists res. split; [reflexivity|]. split; [|exact HM].
      now apply (_export_report_Returned self report w res w1).
    + injection Hrun as -> ->. left. split; [reflexivity|].
      destruct (_export_report_Raised_logged _ _ _ _ _ Hexp)
        as (c & w2 & -> & ->).
      rewrite export_failed_class. split; [reflexivity|]. split; [reflexivity|].
      exists c. unfold export_failed, logged_failure.
      cbn [logged trace set_trace]. rewrite last_last.
      now destruct (is_Fault c).
  - intros res w1 Hexp HM.
    now rewrite export_to_file_like_object_run, Hexp, HM.
Qed.

(** X15 run twice: on the world in which the second poll comes too late,
    and on a finished export without MIME type. *)
Lemma export_to_file_like_object_errors_witness :
  (exists c,
      cause_of (Exception ExportFailedError "Export failed."
                  (Some (timeout_error example_exporter (402 * second))))
      = Some c
      /\ last (trace (snd (export_to_file_like_object example_exporter
                             example_report slow_world))) (Slept 0)
         = Log export_logger ERROR "Export failed for report '%s'. Error: %s"
             ["Revenue"; str_exn c])
  /\ fst (export_to_file_like_object example_exporter example_report
            (world_with_replies [(second, Answers done_without_mime_type)]))
     = Raised (Exception AttributeError
                 "'NoneType' object has no attribute 'lower'" None).
Proof.
  split.
  - destruct (export_to_file_like_object_errors example_exporter
                example_report slow_world) as [Hraised _].
    destruct (Hraised
                (Exception ExportFailedError "Export failed."
                   (Some (timeout_error example_exporter (402 * second))))
                (snd (export_to_file_like_object example_exporter
                        example_report slow_world)))
      as [(_ & _ & _ & c & Hc & _ & Hlog)|(Hne & _)].
    + vm_compute. reflexivity.
    + exists c. split; [exact Hc|exact Hlog].
    + discriminate Hne.
  - destruct (export_to_file_like_object_errors example_exporter
                example_report
                (world_with_replies
                   [(second, Answers done_without_mime_type)]))
      as [_ Hbare].
    rewrite (Hbare done_without_mime_type
               (snd (_export_report example_exporter example_report
                       (world_with_replies
                          [(second, Answers done_without_mime_type)])))).
    + reflexivity.
    + vm_compute. reflexivity.
    + reflexivity.
Defined.

(** X16: a failed export leaves no trace on the disk.  When the export
    itself does not return a result, [export_and_save] has created neither
    the output folder nor a file: the file system is unchanged. *)
Theorem export_and_save_writes_nothing_when_the_export_fails :
  forall self report w,
    (forall res, fst (_export_report self report w) <> Returned res) ->
    same_disk w (snd (export_and_save self report w)).
Proof.
  intros self report w Hfail.
  destruct (output_folder report) as [folder|] eqn:Hf.
  - rewrite (export_and_save_run _ _ _ _ Hf).
    pose proof (_export_report_after self report w) as (Hdisk & _).
    destruct (_export_report self report w) as [[res|e|] w1];
      cbn [fst snd] in *; try exact Hdisk.
    now destruct (Hfail res).
  - unfold export_and_save. rewrite Hf. repeat split.
Qed.

(** X16 run: the poll comes too late, and the folder [out] is not made. *)
Lemma export_and_save_writes_nothing_when_the_export_fails_witness :
  filesystem (snd (export_and_save example_exporter example_report slow_world))
  = Dir [].
Proof.
  destruct (export_and_save_writes_nothing_when_the_export_fails
              example_exporter example_report slow_world) as (Hfs & _).
  - intros res. vm_compute. discriminate.
  - exact Hfs.
Defined.

(** The loop returns a reply of the script. *)
Lemma polling_loop_Returned_scripted fuel self query_id start_time :
  forall w res w',
    polling_loop fuel self query_id start_time w = (Returned res, w') ->
    exists d, In (d, Answers res) (status_replies w).
Proof.
  induction fuel as [|fuel IH]; intros w res w' Hrun; [discriminate|].
  destruct (status_replies w) as [|[d [r|e]] rest] eqn:H.
  - rewrite (polling_loop_unanswered _ _ _ _ _ H) in Hrun. discriminate.
  - rewrite (polling_loop_answered _ _ _ _ _ _ _ _ H) in Hrun. cbv zeta in Hrun.
    destruct (_ <? _); [discriminate|].
    destruct (String.eqb _ "InProgress").
    { destruct (_ <? 0); [discriminate|].
      apply IH in Hrun as [d' Hin]. exists d'. right. exact Hin. }
    destruct (String.eqb _ "Error"); [discriminate|].
    destruct (String.eqb _ "Done"); [|discriminate].
    injection Hrun as <- _. exists d. now left.
  - rewrite (polling_loop_thrown _ _ _ _ _ _ _ _ H) in Hrun. discriminate.
Qed.

(** X17: what is returned is what a finished export delivered.  Whenever
    [export_to_file_like_object] returns, the export request was answered,
    and the stream and the extension are the payload and the strict
    extension of the MIME type of one reply of the server whose status was
    [Done] (never of a reply in progress or in error); that reply carried a
    MIME type, and the stream is at its start. *)
Theorem export_to_file_like_object_returns_a_done_reply :
  forall self report w stream extension w',
    export_to_file_like_object self report w
    = (Returned (stream, extension), w') ->
    exists d res,
      In (d, Answers res) (status_replies w)
      /\ exportStatus res = "Done"
      /\ stream = BytesIO_init (viewData res)
      /\ (exists M,
            mimeType res = Some M /\ extension = guess_extension_strict w M)
      /\ exists initiated, initiate_reply self report = Answers initiated.
Proof.
  intros self report w stream extension w' Hrun.
  rewrite export_to_file_like_object_run in Hrun.
  destruct (_export_report self report w) as [[res|e|] w1] eqn:Hexp;
    try discriminate.
  destruct (mimeType res) as [M|] eqn:HM; [|discriminate].
  injection Hrun as <- <- <-.
  pose proof (_export_report_after self report w) as ((_ & _ & Hmime) & _).
  rewrite Hexp in Hmime. cbn [snd] in Hmime.
  destruct (_export_report_Returned _ _ _ _ _ Hexp)
    as (Hdone & _ & initiated & Hinit & _).
  rewrite (_export_report_initiated _ _ _ _ Hinit) in Hexp.
  rewrite _wait_for_export_completion_run in Hexp.
  destruct (polling_loop _ _ _ _ _) as [[res'|e|] w2] eqn:Hloop;
    try discriminate.
  injection Hexp as -> _.
  apply polling_loop_Returned_scripted in Hloop as [d Hin].
  exists d, res. split; [exact Hin|]. split; [exact Hdone|].
  split; [reflexivity|]. split; [|now exists initiated].
  exists M. split; [exact HM|now rewrite Hmime].
Qed.

(** X17 run: the payload of the third reply is returned. *)
Lemma export_to_file_like_object_returns_a_done_reply_witness :
  exists d res,
    In (d, Answers res)
      [(second, Answers in_progress); (second, Answers in_progress);
       (second, Answers done_pdf)]
    /\ exportStatus res = "Done"
    /\ BytesIO_init (viewData done_pdf) = BytesIO_init (viewData res).
Proof.
  destruct (export_to_file_like_object_returns_a_done_reply
              example_exporter example_report
              (world_with_replies
                 [(second, Answers in_progress); (second, Answers in_progress);
                  (second, Answers done_pdf)])
              (BytesIO_init (viewData done_pdf)) (Some ".pdf")
              (snd (export_to_file_like_object example_exporter example_report
                      (world_with_replies
                         [(second, Answers in_progress);
                          (second, Answers in_progress);
                          (second, Answers done_pdf)]))))
    as (d & res & Hin & Hdone & Hstream & _).
  - vm_compute. reflexivity.
  - exists d, res. split; [exact Hin|]. split; [exact Hdone|exact Hstream].
Defined.

(** ** Saving, further *)

(** A run of [export_and_save] that returns: the export is through with a
    payload and a MIME type, the folder is made, and the payload is stored
    where the target leads, which is no directory. *)
Lemma export_and_save_Returned self report w p w' :
  export_and_save self report w = (Returned p, w') ->
  exists folder res w1 M P w2 loc,
    output_folder report = Some folder
    /\ _export_report self report w = (Returned res, w1)
    /\ mimeType res = Some M
    /\ viewData res = Some P
    /\ p = output_file_path_of w report folder M
    /\ path_mkdir (Path folder) w1 = (Returned tt, w2)
    /\ resolve (filesystem w2) (cwd w) p = inr loc
    /\ (forall es, node_at (filesystem w2) loc <> Some (Dir es))
    /\ filesystem w' = store (filesystem w2) loc (File P)
    /\ cwd w' = cwd w.
Proof.
  intros Hrun.
  destruct (output_folder report) as [folder|] eqn:Hf;
    [|unfold export_and_save in Hrun; rewrite Hf in Hrun; discriminate].
  rewrite (export_and_save_run _ _ _ _ Hf) in Hrun.
  destruct (_export_report self report w) as [[res|e|] w1] eqn:Hexp;
    try discriminate.
  pose proof (_export_report_after self report w) as ((_ & Hcwd & Hmime) & _).
  rewrite Hexp in Hcwd, Hmime. cbn [snd] in Hcwd, Hmime.
  destruct (mimeType res) as [M|] eqn:HM;
    [|rewrite (_save_export_without_mime_type _ _ _ _ HM) in Hrun;
      discriminate].
  rewrite (_save_export_steps _ _ _ _ _ _ Hf HM) in Hrun.
  replace (output_file_path_of w1 report folder M)
    with (output_file_path_of w report folder M) in Hrun
    by (unfold output_file_path_of; now rewrite Hmime).
  set (target := output_file_path_of w report folder M) in *.
  unfold bind at 1 in Hrun.
  destruct (path_mkdir_after (Path folder) w1) as (_ & _ & Hcwd2 & _).
  destruct (path_mkdir (Path folder) w1) as [[[]|e|] w2] eqn:Hmk;
    try discriminate.
  cbn [snd] in Hcwd2. rewrite Hcwd in Hcwd2.
  unfold logger_debug, logger_info, emit in Hrun.
  unfold bind at 1 in Hrun. unfold bind at 1 in Hrun.
  rewrite _write_data_to_file_run in Hrun.
  cbn [filesystem cwd set_trace] in Hrun. rewrite Hcwd2 in Hrun.
  destruct (Path_exists _ _ _) as [f|present]; [discriminate|].
  destruct (present && negb (overwrite_existing self)); [discriminate|].
  unfold os_open_wb in Hrun.
  destruct (resolve (filesystem w2) (cwd w) target) as [f|loc] eqn:Hr;
    [discriminate|].
  exists folder, res, w1, M.
  destruct (node_at (filesystem w2) loc) as [[d|es]|] eqn:Hl;
    try discriminate;
    (destruct (viewData res) as [P|] eqn:HP; [|discriminate]);
    cbv [bind ret] in Hrun; injection Hrun as <- <-;
    exists P, w2, loc; rewrite store_twice;
    repeat split; try reflexivity; try assumption; try discriminate;
    intros es; rewrite Hl; discriminate.
Qed.



(** X19: after [export_and_save] returned, the file is there.  The export
    was through with a payload and a MIME type; the returned path is the
    output folder joined with the report name and the extension; that path
    leads to a regular file that holds exactly the payload, and the output
    folder is a directory (made with its parents when it was missing). *)
Theorem export_and_save_writes_the_payload :
  forall self report w p w',
    export_and_save self report w = (Returned p, w') ->
    exists folder res M P,
      output_folder report = Some folder
      /\ fst (_export_report self report w) = Returned res
      /\ exportStatus res = "Done"
      /\ mimeType res = Some M
      /\ viewData res = Some P
      /\ p = output_file_path_of w report folder M
      /\ node_of w' p = Some (File P)
      /\ exists entries, node_of w' (Path folder) = Some (Dir entries).
Proof.
  intros self report w p w' Hrun.
  destruct (export_and_save_Returned _ _ _ _ _ Hrun)
    as (folder & res & w1 & M & P & w2 & loc
        & Hf & Hexp & HM & HP & Hp & Hmk & Hr & Hnodir & Hfs & Hcwd).
  pose proof (_export_report_after self report w) as ((_ & Hcwd1 & _) & _).
  rewrite Hexp in Hcwd1. cbn [snd] in Hcwd1.
  destruct (store_resolved _ _ _ _ (File P) Hr Hnodir) as (K & _ & S & R).
  exists folder, res, M, P.
  split; [exact Hf|]. split; [now rewrite Hexp|].
  split; [now apply (_export_report_Returned self report w res w1)|].
  split; [exact HM|]. split; [exact HP|]. split; [exact Hp|]. split.
  - unfold node_of, os_stat. now rewrite Hfs, Hcwd, R, S.
  - destruct (path_mkdir_after (Path folder) w1) as (_ & _ & Hcwd2 & _ & Hdir).
    rewrite Hmk in Hcwd2, Hdir. cbn [fst snd] in Hcwd2, Hdir.
    destruct (Hdir eq_refl) as [es Hes].
    unfold node_of, os_stat in Hes |- *.
    rewrite Hcwd2, Hcwd1 in Hes. rewrite Hfs, Hcwd.
    destruct (resolve (filesystem w2) (cwd w) (Path folder)) as [f|floc] eqn:Hrf;
      [discriminate|].
    rewrite (resolve_keeps _ _ _ _ _ K Hrf).
    destruct (node_at (filesystem w2) floc) as [[d|es0]|] eqn:Hn;
      try discriminate.
    destruct (K _ _ Hn) as [es' ->]. now exists es'.
Qed.

(** X19 run: from [/home/user] the report is saved into [../exports]: the
    path [../exports/Revenue.pdf] leads to the payload. *)
Lemma export_and_save_writes_the_payload_witness :
  node_of
    (snd (export_and_save overwriting_exporter report_into_sibling_folder
            world_in_home))
    {| root := ""; parts := [".."; "exports"; "Revenue.pdf"] |}
  = Some (File [Byte.x25; Byte.x50; Byte.x44; Byte.x46]).
Proof.
  destruct (export_and_save_writes_the_payload
              overwriting_exporter report_into_sibling_folder world_in_home
              {| root := ""; parts := [".."; "exports"; "Revenue.pdf"] |}
              (snd (export_and_save overwriting_exporter
                      report_into_sibling_folder world_in_home)))
    as (folder & res & M & P & _ & Hexp & _ & _ & HP & _ & Hfile & _).
  - vm_compute. reflexivity.
  - vm_compute in Hexp. injection Hexp as <-.
    cbn in HP. injection HP as <-. exact Hfile.
Defined.

(** X20: saving changes one file only.  After [export_and_save] returned,
    every regular file at a location other than the one the returned path
    leads to holds what it held before. *)
Theorem export_and_save_keeps_other_files :
  forall self report w p w' q old,
    export_and_save self report w = (Returned p, w') ->
    node_at (filesystem w) q = Some (File old) ->
    location_of w' p <> Some q ->
    node_at (filesystem w') q = Some (File old).
Proof.
  intros self report w p w' q old Hrun Hold Hne.
  destruct (export_and_save_Returned _ _ _ _ _ Hrun)
    as (folder & res & w1 & M & P & w2 & loc
        & Hf & Hexp & HM & HP & Hp & Hmk & Hr & Hnodir & Hfs & Hcwd).
  pose proof (_export_report_after self report w) as ((Hfs1 & _ & _) & _).
  rewrite Hexp in Hfs1. cbn [snd] in Hfs1.
  destruct (store_resolved _ _ _ _ (File P) Hr Hnodir) as (_ & F & _ & R).
  destruct (path_mkdir_after (Path folder) w1) as (_ & F1 & _).
  rewrite Hmk in F1. cbn [snd] in F1. rewrite Hfs1 in F1.
  rewrite Hfs. apply F; [|now apply F1].
  intros ->. apply Hne. unfold location_of. now rewrite Hfs, Hcwd, R.
Qed.

(** X20 run: [/home/user/notes.txt] is as it was after the report was
    saved into [../exports]. *)
Lemma export_and_save_keeps_other_files_witness :
  node_at
    (filesystem
       (snd (export_and_save overwriting_exporter report_into_sibling_folder
               world_in_home)))
    ["home"; "user"; "notes.txt"]
  = Some (File [Byte.x68; Byte.x69]).
Proof.
  apply (export_and_save_keeps_other_files overwriting_exporter
           report_into_sibling_folder world_in_home
           {| root := ""; parts := [".."; "exports"; "Revenue.pdf"] |}).
  - vm_compute. reflexivity.
  - reflexivity.
  - vm_compute. discriminate.
Defined.

(** X21: with overwriting enabled an existing file is replaced.  When the
    export returns a result with a payload and a MIME type, the output folder
    is a directory and the target leads to a regular file,
    [export_and_save] returns the target and the file there holds the new
    payload. *)
Theorem export_and_save_overwrites_when_enabled :
  forall self report w folder res w1 M P entries old,
    overwrite_existing self = true ->
    output_folder report = Some folder ->
    _export_report self report w = (Returned res, w1) ->
    mimeType res = Some M ->
    viewData res = Some P ->
    node_of w (Path folder) = Some (Dir entries) ->
    node_of w (output_file_path_of w report folder M) = Some (File old) ->
    exists w',
      export_and_save self report w
      = (Returned (output_file_path_of w report folder M), w')
      /\ node_of w' (output_file_path_of w report folder M) = Some (File P)
      /\ location_of w' (output_file_path_of w report folder M)
         = location_of w (output_file_path_of w report folder M).
Proof.
  intros self report w folder res w1 M P entries old
    Hover Hf Hexp HM HP Hdir Hold.
  pose proof (_export_report_after self report w) as ((Hfs & Hcwd & Hmime) & _).
  rewrite Hexp in Hfs, Hcwd, Hmime. cbn [snd] in Hfs, Hcwd, Hmime.
  set (target := output_file_path_of w report folder M) in *.
  assert (Hmk : path_mkdir (Path folder) w1 = (Returned tt, w1)).
  { apply (path_mkdir_existing _ _ entries). unfold node_of in *.
    now rewrite Hfs, Hcwd. }
  unfold node_of, os_stat in Hold.
  destruct (resolve (filesystem w) (cwd w) target) as [f|loc] eqn:Hr;
    [discriminate|].
  destruct (node_at (filesystem w) loc) as [c|] eqn:Hl; [|discriminate].
  injection Hold as ->.
  destruct (store_resolved _ _ _ _ (File P) Hr) as (_ & _ & S & R).
  { intros es. rewrite Hl. discriminate. }
  eexists. split; [|split].
  - rewrite (export_and_save_run _ _ _ _ Hf), Hexp.
    rewrite (_save_export_steps _ _ _ _ _ _ Hf HM).
    replace (output_file_path_of w1 report folder M) with target
      by (unfold target, output_file_path_of; now rewrite Hmime).
    rewrite (bind_Returned _ _ _ _ _ Hmk).
    unfold logger_debug, logger_info, emit.
    unfold bind at 1. unfold bind at 1.
    rewrite _write_data_to_file_run.
    cbn [filesystem cwd set_trace]. rewrite Hfs, Hcwd.
    unfold Path_exists, os_stat, os_open_wb. rewrite Hr, Hl, Hover, HP.
    cbn [andb negb]. rewrite store_twice. cbv [bind ret]. reflexivity.
  - unfold node_of, os_stat. cbn [filesystem cwd set_trace set_filesystem].
    now rewrite Hcwd, R, S.
  - unfold location_of. cbn [filesystem cwd set_trace set_filesystem].
    now rewrite Hcwd, R, Hr.
Qed.

(** X21 run: from [/home/user], [../exports/Revenue.pdf] is there already
    and is replaced. *)
Lemma export_and_save_overwrites_when_enabled_witness :
  exists w',
    export_and_save overwriting_exporter report_into_sibling_folder
      world_in_home
    = (Returned {| root := ""; parts := [".."; "exports"; "Revenue.pdf"] |},
       w')
    /\ node_of w' {| root := ""; parts := [".."; "exports"; "Revenue.pdf"] |}
       = Some (File [Byte.x25; Byte.x50; Byte.x44; Byte.x46])
    /\ location_of w'
         {| root := ""; parts := [".."; "exports"; "Revenue.pdf"] |}
       = Some ["home"; "exports"; "Revenue.pdf"].
Proof.
  apply (export_and_save_overwrites_when_enabled
           overwriting_exporter report_into_sibling_folder world_in_home
           "../exports" done_pdf
           (snd (_export_report overwriting_exporter
                   report_into_sibling_folder world_in_home))
           "application/pdf" [Byte.x25; Byte.x50; Byte.x44; Byte.x46]
           [("Revenue.pdf", File [Byte.x6f; Byte.x6c; Byte.x64])]
           [Byte.x6f; Byte.x6c; Byte.x64]);
    reflexivity.
Defined.


(** ** How much an export polls *)

Lemma received_polls query_id start_time d r rest w :
  poll_calls (trace (received query_id start_time d r rest w))
  = (poll_calls (trace w) + 1)%nat.
Proof.
  cbn [received trace set_trace set_clock set_status_replies].
  rewrite poll_calls_app. reflexivity.
Qed.

(** The polls of the loop, counted against the time that is left: every
    poll in progress is followed by a sleep, so the time left shrinks by
    the interval at least. *)
Lemma polling_loop_polls self query_id start_time :
  0 < status_check_interval self ->
  forall fuel w,
    Forall (fun p => 0 <= fst p) (status_replies w) ->
    Z.of_nat (poll_calls (trace (snd (polling_loop fuel self query_id
                                        start_time w))))
    <= Z.of_nat (poll_calls (trace w)) + 1
       + Z.max 0
           ((timeout self * 1000000 - (clock w - start_time))
              / (status_check_interval self * 1000000) + 1).
Proof.
  intros Hi. induction fuel as [|fuel IH]; intros w Hlat.
  - cbn [polling_loop snd]. lia.
  - destruct (status_replies w) as [|[d [r|e]] rest] eqn:H.
    + rewrite (polling_loop_unanswered _ _ _ _ _ H). cbn [snd]. lia.
    + rewrite (polling_loop_answered _ _ _ _ _ _ _ _ H). cbv zeta.
      pose proof (received_polls query_id start_time d r rest w) as Hp.
      destruct (Z.ltb_spec (timeout self * 1000000)
                  (clock w + d - start_time)) as [Hlate|Hok];
        [cbn [snd]; lia|].
      destruct (String.eqb _ "InProgress").
      { destruct (_ <? 0); [cbn [snd]; lia|].
        inversion Hlat as [|? ? Hd Hrest]; subst. cbn [fst] in Hd.
        specialize (IH (slept self (received query_id start_time d r rest w))
                      Hrest).
        replace (poll_calls
                   (trace (slept self
                             (received query_id start_time d r rest w))))
          with (poll_calls (trace w) + 1)%nat in IH
          by (cbn [slept trace set_trace set_clock];
              rewrite poll_calls_app, Hp; cbn; lia).
        replace (clock (slept self (received query_id start_time d r rest w)))
          with (clock w + d + status_check_interval self * 1000000) in IH
          by reflexivity.
        set (I := status_check_interval self * 1000000) in *.
        set (T := timeout self * 1000000) in *.
        assert (HI : 0 < I) by (unfold I; lia).
        replace (T - (clock w + d + I - start_time))
          with ((T - (clock w + d - start_time)) + (-1) * I) in IH by lia.
        rewrite Z.div_add in IH by lia.
        assert (H0 : 0 <= (T - (clock w + d - start_time)) / I)
          by (apply Z.div_pos; lia).
        assert (Hmono : (T - (clock w + d - start_time)) / I
                        <= (T - (clock w - start_time)) / I)
          by (apply Z.div_le_mono; lia).
        lia. }
      destruct (String.eqb _ "Error");
        [cbn [snd logged trace set_trace]; rewrite poll_calls_app, Hp; cbn; lia|].
      destruct (String.eqb _ "Done");
        cbn [snd logged trace set_trace]; rewrite poll_calls_app, Hp; cbn; lia.
    + rewrite (polling_loop_thrown _ _ _ _ _ _ _ _ H). cbn [snd].
      cbn [trace set_trace set_clock set_status_replies].
      rewrite poll_calls_app. cbn. lia.
Qed.

(** X22: the number of polls is bounded by the timeout.  With a positive
    interval between polls, a timeout that is not negative and replies that
    take no negative time, an export polls the status at most
    [timeout / status_check_interval + 2] times, whatever the server
    answers. *)
Theorem export_polls_at_most_timeout_over_interval :
  forall self report w,
    0 < status_check_interval self ->
    0 <= timeout self ->
    Forall (fun p => 0 <= fst p) (status_replies w) ->
    Z.of_nat (poll_calls
                (trace (snd (export_to_file_like_object self report w))))
    <= Z.of_nat (poll_calls (trace w))
       + timeout self / status_check_interval self + 2.
Proof.
  intros self report w Hi Ht Hlat.
  assert (Hbound : 0 <= timeout self / status_check_interval self)
    by (apply Z.div_pos; lia).
  assert (Hreq : poll_calls (trace (requested report w))
                 = poll_calls (trace w)).
  { cbn [requested trace set_trace]. rewrite poll_calls_app. cbn. lia. }
  rewrite export_to_file_like_object_run.
  destruct (initiate_reply self report) as [initiated|e] eqn:Hinit.
  - rewrite (_export_report_initiated _ _ _ _ Hinit).
    rewrite _wait_for_export_completion_run.
    pose proof (polling_loop_polls self (queryID initiated)
                  (clock (requested report w)) Hi
                  (S (List.length (status_replies (requested report w))))
                  (requested report w) Hlat) as Hloop.
    rewrite Hreq in Hloop.
    replace (timeout self * 1000000
             - (clock (requested report w) - clock (requested report w)))
      with (timeout self * 1000000) in Hloop by lia.
    rewrite Z.div_mul_cancel_r in Hloop by lia.
    destruct (polling_loop _ _ _ _ _) as [[res|e|] w1]; cbn [snd] in *.
    + destruct (mimeType res); cbn [snd logged trace set_trace];
        rewrite poll_calls_app; cbn; lia.
    + unfold logged_failure. cbn [logged trace set_trace].
      rewrite poll_calls_app. cbn. lia.
    + lia.
  - rewrite (_export_report_not_initiated _ _ _ _ Hinit). cbn [snd].
    unfold logged_failure. cbn [logged trace set_trace].
    rewrite poll_calls_app, Hreq. cbn. lia.
Qed.

(** X22 run: replies that stay in progress, one every 100 seconds. *)
Lemma export_polls_at_most_timeout_over_interval_witness :
  Z.of_nat
    (poll_calls
       (trace (snd (export_to_file_like_object example_exporter example_report
                      (world_with_replies
                         [(100 * second, Answers in_progress);
                          (100 * second, Answers in_progress);
                          (100 * second, Answers in_progress);
                          (100 * second, Answers in_progress)])))))
  <= Z.of_nat (poll_calls (trace (world_with_replies
                         [(100 * second, Answers in_progress);
                          (100 * second, Answers in_progress);
                          (100 * second, Answers in_progress);
                          (100 * second, Answers in_progress)])))
     + timeout example_exporter / status_check_interval example_exporter + 2.
Proof.
  apply (export_polls_at_most_timeout_over_interval example_exporter
           example_report
           (world_with_replies
              [(100 * second, Answers in_progress);
               (100 * second, Answers in_progress);
               (100 * second, Answers in_progress);
               (100 * second, Answers in_progress)])).
  - reflexivity.
  - vm_compute. discriminate.
  - repeat constructor; vm_compute; discriminate.
Defined.

(** ** One request per export *)

Lemma without_request_refl w : without_request w w.
Proof. exists []. now rewrite app_nil_r. Qed.

Lemma without_request_trans w1 w2 w3 :
  without_request w1 w2 -> without_request w2 w3 -> without_request w1 w3.
Proof.
  intros (e1 & H1 & N1) (e2 & H2 & N2). exists (e1 ++ e2)%list.
  split; [now rewrite H2, H1, app_assoc|].
  rewrite initiate_calls_app. lia.
Qed.

Lemma received_without_request query_id start_time d r rest w :
  without_request w (received query_id start_time d r rest w).
Proof. eexists. split; reflexivity. Qed.

Lemma slept_without_request self w : without_request w (slept self w).
Proof. eexists. split; reflexivity. Qed.

Lemma logged_without_request lvl msg args w :
  without_request w (logged lvl msg args w).
Proof. eexists. split; reflexivity. Qed.

(** The loop polls, logs and sleeps; it requests nothing. *)
Lemma polling_loop_without_request fuel self query_id start_time :
  forall w,
    without_request w (snd (polling_loop fuel self query_id start_time w)).
Proof.
  induction fuel as [|fuel IH]; intros w; [apply without_request_refl|].
  destruct (status_replies w) as [|[d [r|e]] rest] eqn:H.
  - rewrite (polling_loop_unanswered _ _ _ _ _ H). apply without_request_refl.
  - rewrite (polling_loop_answered _ _ _ _ _ _ _ _ H). cbv zeta.
    pose proof (received_without_request query_id start_time d r rest w) as Hr.
    destruct (_ <? _); [exact Hr|].
    destruct (String.eqb _ "InProgress").
    { destruct (_ <? 0); [exact Hr|].
      eapply without_request_trans; [exact Hr|].
      eapply without_request_trans; [apply slept_without_request|apply IH]. }
    destruct (String.eqb _ "Error");
      [eapply without_request_trans; [exact Hr|apply logged_without_request]|].
    destruct (String.eqb _ "Done");
      (eapply without_request_trans; [exact Hr|apply logged_without_request]).
  - rewrite (polling_loop_thrown _ _ _ _ _ _ _ _ H). cbn [snd].
    eexists. split; reflexivity.
Qed.

Lemma _export_report_without_request self report w :
  without_request (requested report w) (snd (_export_report self report w)).
Proof.
  destruct (initiate_reply self report) as [initiated|e] eqn:H.
  - rewrite (_export_report_initiated _ _ _ _ H).
    rewrite _wait_for_export_completion_run.
    pose proof (polling_loop_without_request
                  (S (List.length (status_replies (requested report w)))) self
                  (queryID initiated) (clock (requested report w))
                  (requested report w)) as Hloop.
    destruct (polling_loop _ _ _ _ _) as [[res|e|] w1]; cbn [snd] in *.
    + eapply without_request_trans; [exact Hloop|apply logged_without_request].
    + eapply without_request_trans; [exact Hloop|apply logged_without_request].
    + exact Hloop.
  - rewrite (_export_report_not_initiated _ _ _ _ H). cbn [snd].
    apply logged_without_request.
Qed.

Lemma _write_data_to_file_without_request self res target w :
  without_request w (snd (_write_data_to_file self res target w)).
Proof.
  rewrite _write_data_to_file_run.
  destruct (Path_exists _ _ _) as [f|present]; [apply without_request_refl|].
  destruct (present && negb (overwrite_existing self));
    [apply logged_without_request|].
  destruct (os_open_wb _ _ _) as [f|[loc n]]; [apply without_request_refl|].
  destruct (viewData res); exists []; cbn; now rewrite app_nil_r.
Qed.

Lemma _save_export_without_request self res report w folder :
  output_folder report = Some folder ->
  without_request w (snd (_save_export self res report w)).
Proof.
  intros Hf. destruct (mimeType res) as [M|] eqn:HM.
  - rewrite (_save_export_steps _ _ _ _ _ _ Hf HM).
    destruct (path_mkdir_after (Path folder) w) as (_ & _ & _ & Htr & _).
    unfold bind at 1.
    destruct (path_mkdir (Path folder) w) as [[[]|e|] w2]; cbn [snd] in *;
      try (exists []; now rewrite app_nil_r).
    run_export.
    set (w3 := set_trace _ w2).
    assert (H3 : without_request w w3).
    { eexists. unfold w3. cbn [trace set_trace]. rewrite Htr.
      split; reflexivity. }
    pose proof (_write_data_to_file_without_request self res
                  (output_file_path_of w report folder M) w3) as Hc.
    destruct (_write_data_to_file _ _ _ w3) as [[[]|e|] w4]; cbn [snd] in *.
    + eapply without_request_trans; [exact H3|].
      eapply without_request_trans; [exact Hc|].
      eexists. split; reflexivity.
    + eapply without_request_trans; eassumption.
    + eapply without_request_trans; eassumption.
  - rewrite (_save_export_without_mime_type _ _ _ _ HM).
    apply without_request_refl.
Qed.

(** X23: one export request per operation, made before any poll.  Every
    run of [export_to_file_like_object], and of [export_and_save] on a
    descriptor with an output folder, sends the export request exactly once,
    with the reference, the format and the execution options of the
    descriptor; only log records precede it, and whatever follows holds no
    second request: the job is never submitted again. *)
Theorem export_is_requested_exactly_once :
  forall self report w,
    (exists before after,
        trace (snd (export_to_file_like_object self report w))
        = (trace w ++ before ++ initiate_call report :: after)%list
        /\ poll_calls before = 0%nat
        /\ initiate_calls before = 0%nat
        /\ initiate_calls after = 0%nat)
    /\ (forall folder,
          output_folder report = Some folder ->
          exists before after,
            trace (snd (export_and_save self report w))
            = (trace w ++ before ++ initiate_call report :: after)%list
            /\ poll_calls before = 0%nat
            /\ initiate_calls before = 0%nat
            /\ initiate_calls after = 0%nat).
Proof.
  intros self report w.
  assert (Hshape : forall w', without_request (requested report w) w' ->
    exists before after,
      trace w' = (trace w ++ before ++ initiate_call report :: after)%list
      /\ poll_calls before = 0%nat
      /\ initiate_calls before = 0%nat
      /\ initiate_calls after = 0%nat).
  { intros w' (evs & Htr & Hno).
    exists [Log export_logger INFO "Exporting '%s' in '%s' format..."
              [report_name report; output_format report];
            Log export_logger DEBUG
              ("Initiating export for report: " ++ report_ref report) [];
            Log export_logger DEBUG
              ("Output format: " ++ output_format report) [];
            Log export_logger DEBUG
              ("Execution options: "
               ++ str_options (execution_options report)) []], evs.
    split; [|repeat split; try reflexivity; exact Hno].
    rewrite Htr. cbn [requested trace set_trace].
    rewrite <- !app_assoc. reflexivity. }
  pose proof (_export_report_without_request self report w) as Hexp.
  split.
  - apply Hshape. rewrite export_to_file_like_object_run.
    destruct (_export_report self report w) as [[res|e|] w1]; try exact Hexp.
    now destruct (mimeType res).
  - intros folder Hf. apply Hshape.
    rewrite (export_and_save_run _ _ _ _ Hf).
    destruct (_export_report self report w) as [[res|e|] w1];
      cbn [snd] in *; try exact Hexp.
    eapply without_request_trans; [exact Hexp|].
    now apply (_save_export_without_request self res report w1 folder).
Qed.

(** X23 run: the request of the example report, saved into [out]. *)
Lemma export_is_requested_exactly_once_witness :
  exists before after,
    trace (snd (export_and_save example_exporter example_report
                  (world_with_replies [(second, Answers done_pdf)])))
    = (trace (world_with_replies [(second, Answers done_pdf)])
       ++ before
       ++ CallInitiateAnalysisExport "/shared/Sales/Revenue" "PDF"
            [("async", true); ("useMtom", false); ("refresh", false)]
          :: after)%list
    /\ poll_calls before = 0%nat
    /\ initiate_calls before = 0%nat
    /\ initiate_calls after = 0%nat.
Proof.
  destruct (export_is_requested_exactly_once example_exporter example_report
              (world_with_replies [(second, Answers done_pdf)]))
    as [_ Hsave].
  exact (Hsave "out" eq_refl).
Defined.

(** X24: a negative interval between polls.  The interval is handed to
    [time.sleep] unchecked: with a negative [status_check_interval], an
    export whose first poll reports [InProgress] in time fails at the sleep
    that follows, after that single poll, with an [ExportFailedError] whose
    cause is the [ValueError] of [time.sleep]. *)
Theorem negative_interval_fails_the_first_sleep :
  forall self report w initiated d r rest,
    initiate_reply self report = Answers initiated ->
    status_check_interval self < 0 ->
    status_replies w = (d, Answers r) :: rest ->
    exportStatus r = "InProgress" ->
    d <= timeout self * 1000000 ->
    exists w',
      export_to_file_like_object self report w
      = (Raised (Exception ExportFailedError "Export failed."
                   (Some negative_sleep_error)), w')
      /\ status_replies w' = rest
      /\ poll_calls (trace w') = (poll_calls (trace w) + 1)%nat
      /\ sleep_calls (trace w') = sleep_calls (trace w).
Proof.
  intros self report w initiated d r rest Hinit Hneg Hw Hs Hok.
  assert (Hexp : _export_report self report w
                 = (Raised (export_failed negative_sleep_error),
                    logged_failure report negative_sleep_error
                      (received (queryID initiated) (clock w) d r rest
                         (requested report w)))).
  { rewrite (_export_report_initiated _ _ _ _ Hinit).
    rewrite _wait_for_export_completion_run.
    rewrite (polling_loop_answered _ self (queryID initiated)
               (clock (requested report w)) (requested report w) d r rest Hw).
    cbv zeta.
    replace (clock (requested report w)) with (clock w) by reflexivity.
    destruct (Z.ltb_spec (timeout self * 1000000) (clock w + d - clock w));
      [lia|].
    rewrite Hs. cbn [String.eqb Ascii.eqb Bool.eqb].
    destruct (Z.ltb_spec (status_check_interval self) 0); [|lia].
    reflexivity. }
  destruct (operations_raise_with_export _ _ _ _ _ Hexp) as [Hmem _].
  eexists. split; [exact Hmem|]. split; [reflexivity|].
  unfold logged_failure.
  cbn [logged received requested trace set_trace set_clock set_status_replies].
  rewrite !poll_calls_app, !sleep_calls_app. cbn. lia.
Qed.

(** X24 run with an interval of minus one second. *)
Lemma negative_interval_fails_the_first_sleep_witness :
  exists w',
    export_to_file_like_object
      (OBIEEAnalysisExporter_init example_service 300 false (-1))
      example_report
      (world_with_replies [(second, Answers in_progress);
                           (second, Answers done_pdf)])
    = (Raised (Exception ExportFailedError "Export failed."
                 (Some negative_sleep_error)), w')
    /\ status_replies w' = [(second, Answers done_pdf)]
    /\ poll_calls (trace w')
       = (poll_calls
            (trace (world_with_replies [(second, Answers in_progress);
                                        (second, Answers done_pdf)])) + 1)%nat
    /\ sleep_calls (trace w')
       = sleep_calls
           (trace (world_with_replies [(second, Answers in_progress);
                                       (second, Answers done_pdf)])).
Proof.
  apply (negative_interval_fails_the_first_sleep
           (OBIEEAnalysisExporter_init example_service 300 false (-1))
           example_report
           (world_with_replies [(second, Answers in_progress);
                                (second, Answers done_pdf)])
           {| queryID := "q-1" |} second in_progress
           [(second, Answers done_pdf)]);
    try reflexivity; vm_compute; discriminate.
Defined.
